(** * AT24C256 EEPROM driver and camera-parameter file index

    A shallow embedding of [src/at24c256.c] (the paged-write storage
    driver) and of the programs built on it: the two command line
    programs [camera_data_write.c] and [camera_data_read.c] (the flat
    file index), their earlier versions without the index, and the
    example program [examples/main.c]; together with the properties
    established about them.

    Layout of the development:
    - machine integers and the byte encodings the programs use;
    - the environment: the EEPROM behind the I2C character device, the
      allocator and the host file system, all part of one [world];
    - the driver, function by function;
    - the writer and the reader programs, the example program and the
      earlier writer and reader;
    - lemmas and the theorems. *)

From Stdlib Require Import ZArith String Ascii Lia Sorted.
From stdpp Require Import base tactics option list.

Local Open Scope Z_scope.

(** ** Machine integers *)

(** Values of the C types [uint8_t] and [uint16_t] are integers of [Z];
    a store into a narrower type is written with its wrap-around. *)
Definition u8 (x : Z) : Z := x mod 256.
Definition u16 (x : Z) : Z := x mod 65536.

Definition is_u8 (x : Z) : Prop := 0 ≤ x < 256.
Definition is_u16 (x : Z) : Prop := 0 ≤ x < 65536.

(** [sizeof] of a buffer held as a list. *)
Definition len {A} (l : list A) : Z := Z.of_nat (length l).

(** ** Error codes ([at24c256.h]) *)

Inductive at24c256_err_t :=
| AT24C256_OK
| AT24C256_ERROR_INIT
| AT24C256_ERROR_WRITE
| AT24C256_ERROR_READ
| AT24C256_ERROR_PARAM
| AT24C256_ERROR_MEMORY
| AT24C256_ERROR_BUSY
| AT24C256_ERROR_TIMEOUT.

(** The enumerators' integer values. *)
Definition err_code (e : at24c256_err_t) : Z :=
  match e with
  | AT24C256_OK => 0
  | AT24C256_ERROR_INIT => -1
  | AT24C256_ERROR_WRITE => -2
  | AT24C256_ERROR_READ => -3
  | AT24C256_ERROR_PARAM => -4
  | AT24C256_ERROR_MEMORY => -5
  | AT24C256_ERROR_BUSY => -6
  | AT24C256_ERROR_TIMEOUT => -7
  end.

Definition err_eqb (a b : at24c256_err_t) : bool := err_code a =? err_code b.

(** ** Configuration and handle *)

Record at24c256_config_t := Config {
  i2c_bus : string;
  device_addr : Z;
  page_size : Z;
  total_size : Z;
  write_delay_ms : Z
}.

Definition AT24C256_DEFAULT_CONFIG : at24c256_config_t :=
  {| i2c_bus := "/dev/i2c-5";
     device_addr := 80;
     page_size := 64;
     total_size := 32768;
     write_delay_ms := 5 |}.

Record at24c256_dev_s := Dev {
  fd : Z;
  config : at24c256_config_t;
  initialized : bool
}.

(** A handle is a pointer to the device structure; [None] is [NULL]. *)
Definition at24c256_handle_t := option at24c256_dev_s.

(** ** The environment *)

(** What the programs do to the outside, in the order it happens. *)
Inductive event :=
| I2cWrite (payload : list Z) (acked : bool)   (* write(fd, buf, n)          *)
| I2cRead (count : Z) (acked : bool)           (* read(fd, buf, n)           *)
| Usleep (usec : Z)                            (* usleep(usec), sleep(s)     *)
| FileSaved (path : string) (bytes : list Z).  (* fopen "wb", fwrite, fclose *)

(** The world holds the EEPROM (its array, its physical page size and its
    internal address counter), the outcome of every external call still
    to come (a transfer on the I2C link, an allocation, a host file
    operation: [true] succeeds, and an exhausted list succeeds), the
    values of the bytes the program sends without ever setting them
    ([junk]: the padding of a structure on the stack; an exhausted list
    gives 0), and the log of what was done so far. *)
Record world := Env {
  cells : list Z;
  dev_page : Z;
  cursor : Z;
  link : list bool;
  heap : list bool;
  fs : list bool;
  junk : list Z;
  log : list event
}.

(** A world in which nothing is said about the bytes never set. *)
Definition World (cells : list Z) (dev_page cursor : Z)
    (link heap fs : list bool) (log : list event) : world :=
  {| cells := cells; dev_page := dev_page; cursor := cursor;
     link := link; heap := heap; fs := fs; junk := []; log := log |}.

Definition pop (s : list bool) : bool * list bool :=
  match s with
  | [] => (true, [])
  | b :: s' => (b, s')
  end.

Definition set_chip (cs : list Z) (p : Z) (w : world) : world :=
  {| cells := cs; dev_page := dev_page w; cursor := p;
     link := link w; heap := heap w; fs := fs w; junk := junk w; log := log w |}.

Definition set_link (l : list bool) (w : world) : world :=
  {| cells := cells w; dev_page := dev_page w; cursor := cursor w;
     link := l; heap := heap w; fs := fs w; junk := junk w; log := log w |}.

Definition set_heap (h : list bool) (w : world) : world :=
  {| cells := cells w; dev_page := dev_page w; cursor := cursor w;
     link := link w; heap := h; fs := fs w; junk := junk w; log := log w |}.

Definition set_fs (f : list bool) (w : world) : world :=
  {| cells := cells w; dev_page := dev_page w; cursor := cursor w;
     link := link w; heap := heap w; fs := f; junk := junk w; log := log w |}.

Definition set_junk (j : list Z) (w : world) : world :=
  {| cells := cells w; dev_page := dev_page w; cursor := cursor w;
     link := link w; heap := heap w; fs := fs w; junk := j; log := log w |}.

Definition emit (e : event) (w : world) : world :=
  {| cells := cells w; dev_page := dev_page w; cursor := cursor w;
     link := link w; heap := heap w; fs := fs w; junk := junk w;
     log := log w ++ [e] |}.

(** *** The EEPROM *)

(** A cell that does not exist reads as an erased one. *)
Definition peek (cs : list Z) (p : Z) : Z := default 255 (cs !! Z.to_nat p).

(** Within a write transaction only the low bits of the address counter
    advance: after the last byte of a page it rolls over to the first
    byte of the same page. *)
Definition next_in_page (page p : Z) : Z :=
  p - p mod page + (p mod page + 1) mod page.

Fixpoint program (page p : Z) (bytes : list Z) (cs : list Z) : list Z * Z :=
  match bytes with
  | [] => (cs, p)
  | b :: bs => program page (next_in_page page p) bs (<[Z.to_nat p := b]> cs)
  end.

(** A sequential read advances over the whole array and rolls over at its
    end. *)
Fixpoint fetch (cs : list Z) (p : Z) (n : nat) : list Z * Z :=
  match n with
  | O => ([], p)
  | S k =>
      let '(bs, q) := fetch cs ((p + 1) mod len cs) k in
      (peek cs p :: bs, q)
  end.

(** A write transaction: two address bytes, most significant first, then
    the data. *)
Definition chip_write (buf : list Z) (w : world) : world :=
  match buf with
  | hi :: lo :: data =>
      let '(cs, q) := program (dev_page w) ((hi * 256 + lo) mod len (cells w))
                              data (cells w) in
      set_chip cs q w
  | _ => w
  end.

(** ** Computations *)

(** A computation runs in a world and returns a value and the world it
    leaves, or has no defined behaviour in C ([Undefined]: a division by
    zero, an access outside a buffer), or is cut off by the bound on the
    iterations of a loop ([Spin]). *)
Inductive outcome (A : Type) :=
| Ret (a : A) (w : world)
| Undefined
| Spin.
Arguments Ret {A} a w.
Arguments Undefined {A}.
Arguments Spin {A}.

Definition M (A : Type) : Type := world → outcome A.

Definition ret {A} (a : A) : M A := λ w, Ret a w.
Definition undefined {A} : M A := λ _, Undefined.
Definition spin {A} : M A := λ _, Spin.

Definition bind {A B} (m : M A) (k : A → M B) : M B :=
  λ w, match m w with
       | Ret a w' => k a w'
       | Undefined => Undefined
       | Spin => Spin
       end.

Notation "x <- m ;; k" := (bind m (λ x, k))
  (at level 100, m at next level, right associativity).
Notation "m ;;; k" := (bind m (λ _, k))
  (at level 100, right associativity).

(** *** System calls *)

(** [write(fd, buf, n)] on the I2C device: the bytes accepted, or -1. *)
Definition sys_write (fd : Z) (buf : list Z) : M Z := λ w,
  let '(ok, rest) := pop (link w) in
  if ok
  then Ret (len buf) (emit (I2cWrite buf true) (set_link rest (chip_write buf w)))
  else Ret (-1) (emit (I2cWrite buf false) (set_link rest w)).

(** [read(fd, buf, n)] on the I2C device: the count and the bytes. *)
Definition sys_read (fd : Z) (count : Z) : M (Z * list Z) := λ w,
  let '(ok, rest) := pop (link w) in
  if ok
  then let '(bs, q) := fetch (cells w) (cursor w) (Z.to_nat count) in
       Ret (count, bs) (emit (I2cRead count true) (set_link rest (set_chip (cells w) q w)))
  else Ret (-1, []) (emit (I2cRead count false) (set_link rest w)).

(** [ioctl(fd, I2C_SLAVE, addr)]. *)
Definition sys_ioctl_slave (fd : Z) (addr : Z) : M Z := λ w,
  let '(ok, rest) := pop (link w) in
  Ret (if ok then 0 else -1) (set_link rest w).

(** [open(path, O_RDWR)]. *)
Definition sys_open (path : string) : M Z := λ w,
  let '(ok, rest) := pop (fs w) in
  Ret (if ok then 3 else -1) (set_fs rest w).

(** [fopen(path, mode)]: whether a stream was obtained. *)
Definition sys_fopen : M bool := λ w,
  let '(ok, rest) := pop (fs w) in
  Ret ok (set_fs rest w).

(** [fread] and [fwrite] of a whole buffer: whether all of it was
    transferred. *)
Definition sys_fread_fwrite : M bool := λ w,
  let '(ok, rest) := pop (fs w) in
  Ret ok (set_fs rest w).

(** [malloc(n)]: whether a block was obtained. *)
Definition sys_malloc (n : Z) : M bool := λ w,
  let '(ok, rest) := pop (heap w) in
  Ret ok (set_heap rest w).

Definition usleep (usec : Z) : M unit := λ w, Ret tt (emit (Usleep usec) w).

(** Reading a byte of an object the program never set: the value the
    world holds for it. *)
Definition never_set : M Z := λ w,
  match junk w with
  | [] => Ret 0 w
  | b :: rest => Ret (u8 b) (set_junk rest w)
  end.

(** [clock_gettime(CLOCK_MONOTONIC)], in microseconds: the time slept. *)
Fixpoint slept (l : list event) : Z :=
  match l with
  | [] => 0
  | Usleep us :: l' => us + slept l'
  | _ :: l' => slept l'
  end.

Definition clock_gettime : M Z := λ w, Ret (slept (log w)) w.

(** ** The driver ([src/at24c256.c]) *)


Definition check_address_length (handle : at24c256_handle_t)
    (address length : Z) : at24c256_err_t :=
  match handle with
  | None => AT24C256_ERROR_INIT
  | Some dev =>
      if negb (initialized dev) then AT24C256_ERROR_INIT
      else if address + length >? total_size (config dev) then AT24C256_ERROR_PARAM
      else if length =? 0 then AT24C256_ERROR_PARAM
      else AT24C256_OK
  end.

(** The polling loop of [internal_wait_ready]; [fuel] bounds its
    iterations. *)
Fixpoint wait_loop (fuel : nat) (dev : at24c256_dev_s) (start timeout_ms : Z)
    : M at24c256_err_t :=
  match fuel with
  | O => spin
  | S fuel' =>
      r <- sys_read (fd dev) 1 ;;
      if fst r >=? 0 then ret AT24C256_OK
      else
        current <- clock_gettime ;;
        let elapsed_ms :=
          (current / 1000000 - start / 1000000) * 1000
          + Z.quot (current mod 1000000 * 1000 - start mod 1000000 * 1000) 1000000 in
        if elapsed_ms >=? timeout_ms then ret AT24C256_ERROR_TIMEOUT
        else usleep 1000 ;;; wait_loop fuel' dev start timeout_ms
  end.

Definition internal_wait_ready (dev : at24c256_dev_s) (timeout_ms : Z)
    : M at24c256_err_t :=
  start <- clock_gettime ;;
  wait_loop (Z.to_nat timeout_ms + 2) dev start timeout_ms.

Definition at24c256_init (config : option at24c256_config_t)
    : M (at24c256_err_t * at24c256_handle_t) :=
  match config with
  | None => ret (AT24C256_ERROR_PARAM, None)
  | Some cfg =>
      got <- sys_malloc 1 ;;
      if negb got then ret (AT24C256_ERROR_MEMORY, None)
      else
        f <- sys_open (i2c_bus cfg) ;;
        if f <? 0 then ret (AT24C256_ERROR_INIT, None)
        else
          r <- sys_ioctl_slave f (device_addr cfg) ;;
          if r <? 0 then ret (AT24C256_ERROR_INIT, None)
          else ret (AT24C256_OK,
                    Some {| fd := f; config := cfg; initialized := true |})
  end.

Definition at24c256_deinit (handle : at24c256_handle_t) : M at24c256_err_t :=
  match handle with
  | None => ret AT24C256_ERROR_PARAM
  | Some _ => ret AT24C256_OK
  end.

(** [data] is the caller's buffer ([None] is [NULL]). Next to
    [AT24C256_OK] the result holds the buffer as the call leaves it.
    Next to an error it holds the argument: what a transfer that failed
    may have stored into the buffer is not followed, so the buffer that
    comes with an error says nothing about the bytes in memory. *)
Definition at24c256_read (handle : at24c256_handle_t) (address : Z)
    (data : option (list Z)) (length : Z)
    : M (at24c256_err_t * option (list Z)) :=
  let r := check_address_length handle address length in
  if negb (err_eqb r AT24C256_OK) then ret (r, data)
  else
    match handle, data with
    | None, _ => undefined
    | Some _, None => ret (AT24C256_ERROR_PARAM, data)
    | Some dev, Some buf =>
        let addr_buffer := [Z.land (Z.shiftr address 8) 255; Z.land address 255] in
        n <- sys_write (fd dev) addr_buffer ;;
        if negb (n =? 2) then ret (AT24C256_ERROR_READ, data)
        else
          got <- sys_read (fd dev) length ;;
          if negb (fst got =? length) then ret (AT24C256_ERROR_READ, data)
          else if len buf <? length then undefined
          else ret (AT24C256_OK, Some (snd got ++ drop (Z.to_nat length) buf))
    end.

(** The loop of [at24c256_write]; every iteration sends at least one
    byte, so [fuel] is the number of bytes to send. *)
Fixpoint write_loop (fuel : nat) (dev : at24c256_dev_s)
    (current_addr : Z) (current_data : list Z) (remaining : Z)
    : M at24c256_err_t :=
  if remaining >? 0 then
    match fuel with
    | O => spin
    | S fuel' =>
        if page_size (config dev) =? 0 then undefined
        else
          let page_offset := u16 (current_addr mod page_size (config dev)) in
          let bytes_in_page := u16 (page_size (config dev) - page_offset) in
          let bytes_in_page :=
            if bytes_in_page >? remaining then remaining else bytes_in_page in
          if len current_data <? bytes_in_page then undefined
          else
            let buffer :=
              [Z.land (Z.shiftr current_addr 8) 255; Z.land current_addr 255]
              ++ take (Z.to_nat bytes_in_page) current_data in
            bytes_written <- sys_write (fd dev) buffer ;;
            if negb (bytes_written =? bytes_in_page + 2)
            then ret AT24C256_ERROR_WRITE
            else
              usleep (write_delay_ms (config dev) * 1000) ;;;
              write_loop fuel' dev
                (u16 (current_addr + bytes_in_page))
                (drop (Z.to_nat bytes_in_page) current_data)
                (u16 (remaining - bytes_in_page))
    end
  else ret AT24C256_OK.

Definition at24c256_write (handle : at24c256_handle_t) (address : Z)
    (data : option (list Z)) (length : Z) : M at24c256_err_t :=
  let r := check_address_length handle address length in
  if negb (err_eqb r AT24C256_OK) then ret r
  else
    match handle, data with
    | None, _ => undefined
    | Some _, None => ret AT24C256_ERROR_PARAM
    | Some dev, Some buf => write_loop (Z.to_nat length) dev address buf length
    end.

Definition at24c256_erase (handle : at24c256_handle_t) (address length : Z)
    : M at24c256_err_t :=
  let r := check_address_length handle address length in
  if negb (err_eqb r AT24C256_OK) then ret r
  else
    got <- sys_malloc length ;;
    if negb got then ret AT24C256_ERROR_MEMORY
    else
      let erase_data := replicate (Z.to_nat length) 255 in
      at24c256_write handle address (Some erase_data) length.

Definition at24c256_wait_ready (handle : at24c256_handle_t) (timeout_ms : Z)
    : M at24c256_err_t :=
  match handle with
  | None => ret AT24C256_ERROR_INIT
  | Some dev =>
      if negb (initialized dev) then ret AT24C256_ERROR_INIT
      else internal_wait_ready dev timeout_ms
  end.

Definition at24c256_get_info (handle : at24c256_handle_t) (config_out : bool)
    : M (at24c256_err_t * option at24c256_config_t) :=
  match handle with
  | None => ret (AT24C256_ERROR_PARAM, None)
  | Some dev =>
      if negb (initialized dev) || negb config_out
      then ret (AT24C256_ERROR_PARAM, None)
      else ret (AT24C256_OK, Some (config dev))
  end.



(** ** The file index (shared by [camera_data_write.c] and [camera_data_read.c]) *)

Definition EEPROM_START_ADDRESS : Z := 0.
Definition MAX_FILE_SIZE : Z := 32 * 1024.
Definition MAX_FILENAME_LENGTH : Z := 64.
Definition MAX_FILES : Z := 16.

Definition EXIT_SUCCESS : Z := 0.
Definition EXIT_FAILURE : Z := 1.

Record file_index_t := FileIndex {
  filename : string;
  address : Z;
  size : Z;
  checksum : Z
}.

Record index_header_t := IndexHeader {
  magic : list Z;
  version : Z;
  file_count : Z;
  hdr_total_size : Z;
  reserved : list Z
}.

(** [sizeof] of the two structures under the usual ABI: the members of
    [file_index_t] take 64 + 2 + 2 + 1 bytes and one byte of padding
    rounds the size up to the alignment of [uint16_t]. *)
Definition sizeof_index_header_t : Z := 16.
Definition sizeof_file_index_t : Z := 70.

(** "CAM\0" *)
Definition CAM_MAGIC : list Z := [67; 65; 77; 0].

(** *** Strings and bytes *)

Definition bytes_of_string (s : string) : list Z :=
  map (λ c, Z.of_N (N_of_ascii c)) (list_ascii_of_string s).

(** The C string held in a character array: the bytes before the first
    NUL. *)
Fixpoint c_string (bs : list Z) : string :=
  match bs with
  | [] => EmptyString
  | b :: bs' =>
      if b =? 0 then EmptyString
      else String (ascii_of_N (Z.to_N b)) (c_string bs')
  end.

(** [strrchr(s, c)]: the part of [s] from the last [c] on. *)
Fixpoint strrchr (s : string) (c : ascii) : option string :=
  match s with
  | EmptyString => None
  | String a s' =>
      match strrchr s' c with
      | Some t => Some t
      | None => if Ascii.eqb a c then Some s else None
      end
  end.

(** [snprintf(buf, 512, "%s/%s", dir, name)] *)
Definition join_path (dir name : string) : string :=
  substring 0 511 (dir ++ "/" ++ name).

(** A 16-bit integer in the byte order of the host (little-endian). *)
Definition le16 (x : Z) : list Z := [Z.land x 255; Z.land (Z.shiftr x 8) 255].
Definition of_le16 (bs : list Z) : Z :=
  default 0 (bs !! 0%nat) + 256 * default 0 (bs !! 1%nat).

(** The object representation of the structures, as the programs pass
    them to the driver with a cast to [uint8_t *]. No member covers the
    last byte of a [file_index_t]: [pad] is what this padding byte
    holds. *)
Definition header_bytes (h : index_header_t) : list Z :=
  magic h ++ [version h; file_count h] ++ le16 (hdr_total_size h) ++ reserved h.

Definition header_of_bytes (bs : list Z) : index_header_t :=
  {| magic := take 4 bs;
     version := default 0 (bs !! 4%nat);
     file_count := default 0 (bs !! 5%nat);
     hdr_total_size := of_le16 (take 2 (drop 6 bs));
     reserved := take 8 (drop 8 bs) |}.

Definition file_index_bytes (f : file_index_t) (pad : Z) : list Z :=
  take 64 (bytes_of_string (filename f) ++ replicate 64 0)
  ++ le16 (address f) ++ le16 (size f) ++ [checksum f; pad].

Definition file_index_of_bytes (bs : list Z) : file_index_t :=
  {| filename := c_string (take 64 bs);
     address := of_le16 (take 2 (drop 64 bs));
     size := of_le16 (take 2 (drop 66 bs));
     checksum := default 0 (bs !! 68%nat) |}.

Fixpoint calculate_checksum (data : list Z) (checksum : Z) : Z :=
  match data with
  | [] => checksum
  | b :: data' => calculate_checksum data' (u8 (Z.lxor checksum b))
  end.

(** ** The writer ([camera_data_write.c]) *)

(** An entry of the input directory as [readdir] and [stat] show it, with
    the bytes [fread] delivers. *)
Record dirent := Dirent {
  d_name : string;
  is_regular : bool;
  contents : list Z
}.

(** How [write_file_to_eeprom] ends: [Stored] is its [return 0], with the
    index entry it filled in; every other case is one of its
    [return -1]. *)
Inductive store_status :=
| Stored (info : file_index_t)
| OpenFailed
| TooLarge
| StoreNoMemory
| ShortRead
| StoreFailed (e : at24c256_err_t).

Definition store_code (s : store_status) : Z :=
  match s with Stored _ => 0 | _ => -1 end.

Definition base_name (path : string) : string :=
  match strrchr path "/" with
  | Some (String _ rest) => rest
  | _ => path
  end.

Definition write_file_to_eeprom (handle : at24c256_handle_t)
    (path : string) (file : dirent) (address : Z) : M store_status :=
  opened <- sys_fopen ;;
  if negb opened then ret OpenFailed
  else
    let file_size := len (contents file) in
    if file_size >? MAX_FILE_SIZE then ret TooLarge
    else
      got <- sys_malloc file_size ;;
      if negb got then ret StoreNoMemory
      else
        complete <- sys_fread_fwrite ;;
        if negb complete then ret ShortRead
        else
          r <- at24c256_write handle address (Some (contents file)) (u16 file_size) ;;
          if negb (err_eqb r AT24C256_OK) then ret (StoreFailed r)
          else
            usleep 1000000 ;;;
            ret (Stored {| filename := substring 0 63 (base_name path);
                           address := address;
                           size := u16 file_size;
                           checksum := calculate_checksum (contents file) 0 |}).

Definition is_dat (name : string) : bool :=
  match strrchr name "." with
  | Some extension => String.eqb extension ".dat"
  | None => false
  end.

(** The [readdir] loop of [process_camera_parameters]: [files] is the
    array filled so far, its length is [*file_count]. *)
Fixpoint process_loop (handle : at24c256_handle_t) (input_dir : string)
    (entries : list dirent) (current_address : Z) (files : list file_index_t)
    : M (list file_index_t) :=
  match entries with
  | [] => ret files
  | entry :: entries' =>
      if String.eqb (d_name entry) "." || String.eqb (d_name entry) ".."
      then process_loop handle input_dir entries' current_address files
      else if negb (is_dat (d_name entry))
      then process_loop handle input_dir entries' current_address files
      else if negb (is_regular entry)
      then process_loop handle input_dir entries' current_address files
      else
        s <- write_file_to_eeprom handle (join_path input_dir (d_name entry))
               entry current_address ;;
        match s with
        | Stored info =>
            if len files >=? MAX_FILES then undefined
            else process_loop handle input_dir entries'
                   (u16 (current_address + size info)) (files ++ [info])
        | _ => process_loop handle input_dir entries' current_address files
        end
  end.

(** [input] is what [opendir] finds: [None] when the directory cannot be
    opened. The result is the return value and the array. *)
Definition process_camera_parameters (handle : at24c256_handle_t)
    (input_dir : string) (input : option (list dirent))
    : M (Z * list file_index_t) :=
  match input with
  | None => ret (-1, [])
  | Some entries =>
      let current_address :=
        u16 (EEPROM_START_ADDRESS + sizeof_index_header_t
             + MAX_FILES * sizeof_file_index_t) in
      files <- process_loop handle input_dir entries current_address [] ;;
      ret (len files, files)
  end.

(** The loop of [write_file_index] over the entries. The table of
    [main] is not initialized and [write_file_to_eeprom] sets the
    members only, so the padding byte of an entry goes out with the
    value the stack happened to hold. *)
Fixpoint write_entries (handle : at24c256_handle_t) (files : list file_index_t)
    (index_address : Z) : M Z :=
  match files with
  | [] => ret 0
  | f :: files' =>
      pad <- never_set ;;
      r <- at24c256_write handle index_address (Some (file_index_bytes f pad))
             sizeof_file_index_t ;;
      if negb (err_eqb r AT24C256_OK) then ret (-1)
      else write_entries handle files' (u16 (index_address + sizeof_file_index_t))
  end.

Definition write_file_index (handle : at24c256_handle_t)
    (files : list file_index_t) (file_count : Z) : M Z :=
  let header :=
    {| magic := CAM_MAGIC;
       version := 1;
       file_count := u8 file_count;
       hdr_total_size :=
         fold_left (λ acc f, u16 (acc + size f))
                   (take (Z.to_nat file_count) files) 0;
       reserved := replicate 8 0 |} in
  r <- at24c256_write handle EEPROM_START_ADDRESS (Some (header_bytes header))
         sizeof_index_header_t ;;
  if negb (err_eqb r AT24C256_OK) then ret (-1)
  else write_entries handle (take (Z.to_nat file_count) files)
         (u16 (EEPROM_START_ADDRESS + sizeof_index_header_t)).

Fixpoint should_erase_eeprom (args : list string) : bool :=
  match args with
  | [] => false
  | a :: args' => if String.eqb a "--erase" then true else should_erase_eeprom args'
  end.

Fixpoint erase_loop (fuel : nat) (handle : at24c256_handle_t)
    (erase_buffer : list Z) (address remaining : Z) : M at24c256_err_t :=
  if remaining >? 0 then
    match fuel with
    | O => spin
    | S fuel' =>
        let chunk_size := if remaining >? 4096 then 4096 else remaining in
        r <- at24c256_write handle address (Some erase_buffer) chunk_size ;;
        if negb (err_eqb r AT24C256_OK) then ret r
        else erase_loop fuel' handle erase_buffer
               (u16 (address + chunk_size)) (u16 (remaining - chunk_size))
    end
  else ret AT24C256_OK.

Definition erase_entire_eeprom (handle : at24c256_handle_t) : M at24c256_err_t :=
  got <- sys_malloc 4096 ;;
  if negb got then ret AT24C256_ERROR_MEMORY
  else erase_loop 8 handle (replicate 4096 255) 0 32768.

Module camera_data_write.

(** The part of [main] between the optional erase and the exit: the
    payloads, then the directory when at least one payload was
    stored, then [at24c256_deinit]. The result is the exit status. *)
Definition write_files (handle : at24c256_handle_t)
    (input : option (list dirent)) : M Z :=
  p <- process_camera_parameters handle "camera_parameters" input ;;
  let '(processed_count, files) := p in
  if processed_count >? 0 then
    x <- write_file_index handle files (len files) ;;
    if negb (x =? 0)
    then at24c256_deinit handle ;;; ret EXIT_FAILURE
    else at24c256_deinit handle ;;; ret EXIT_SUCCESS
  else
    at24c256_deinit handle ;;; ret EXIT_FAILURE.

(** [args] is [argv] without the program's name; [input] is the content
    of the directory [camera_parameters]. *)
Definition main (args : list string) (input : option (list dirent)) : M Z :=
  let erase_before_write := should_erase_eeprom args in
  i <- at24c256_init (Some AT24C256_DEFAULT_CONFIG) ;;
  let '(r, handle) := i in
  if negb (err_eqb r AT24C256_OK) then ret EXIT_FAILURE
  else
    e <- (if erase_before_write then erase_entire_eeprom handle
          else ret AT24C256_OK) ;;
    if negb (err_eqb e AT24C256_OK)
    then at24c256_deinit handle ;;; ret EXIT_FAILURE
    else write_files handle input.

End camera_data_write.

(** ** The reader ([camera_data_read.c]) *)

Definition create_directory (path : string) : M Z := λ w,
  let '(exists_, rest) := pop (fs w) in
  if exists_ then Ret 0 (set_fs rest w)
  else let '(made, rest') := pop rest in
       Ret (if made then 0 else -1) (set_fs rest' w).

Fixpoint read_entries (handle : at24c256_handle_t) (n : nat) (index_address : Z)
    (files : list file_index_t) : M (Z * list file_index_t) :=
  match n with
  | O => ret (0, files)
  | S n' =>
      r <- at24c256_read handle index_address
             (Some (replicate (Z.to_nat sizeof_file_index_t) 0))
             sizeof_file_index_t ;;
      if negb (err_eqb (fst r) AT24C256_OK) then ret (-1, files)
      else read_entries handle n' (u16 (index_address + sizeof_file_index_t))
             (files ++ [file_index_of_bytes (default [] (snd r))])
  end.

(** The result is the return value and, when it is 0, the entries read
    ([*file_count] is their number). *)
Definition read_file_index (handle : at24c256_handle_t)
    : M (Z * list file_index_t) :=
  r <- at24c256_read handle EEPROM_START_ADDRESS
         (Some (replicate (Z.to_nat sizeof_index_header_t) 0))
         sizeof_index_header_t ;;
  if negb (err_eqb (fst r) AT24C256_OK) then ret (-1, [])
  else
    let header := header_of_bytes (default [] (snd r)) in
    if negb (bool_decide (magic header = CAM_MAGIC)) then ret (-1, [])
    else if file_count header >? MAX_FILES then ret (-1, [])
    else
      read_entries handle (Z.to_nat (file_count header))
        (u16 (EEPROM_START_ADDRESS + sizeof_index_header_t)) [].

(** How [read_file_from_eeprom] ends: [Restored] is its [return 0]; every
    other case is one of its [return -1], named after the check that
    failed. *)
Inductive restore_status :=
| Restored
| RestoreNoMemory
| RestoreFailed (e : at24c256_err_t)
| ChecksumError (expected actual : Z)
| CreateFailed
| ShortWrite.

Definition restore_code (s : restore_status) : Z :=
  match s with Restored => 0 | _ => -1 end.

(** [file_info] is an entry whose name ends within the [filename]
    member, as [%s] needs it; what [main] does with an entry that has
    no NUL there is said with [camera_data_read.main]. *)
Definition read_file_from_eeprom (handle : at24c256_handle_t)
    (file_info : file_index_t) (output_dir : string) : M restore_status :=
  let output_path := join_path output_dir (filename file_info) in
  got <- sys_malloc (size file_info) ;;
  if negb got then ret RestoreNoMemory
  else
    r <- at24c256_read handle (address file_info)
           (Some (replicate (Z.to_nat (size file_info)) 0)) (size file_info) ;;
    if negb (err_eqb (fst r) AT24C256_OK) then ret (RestoreFailed (fst r))
    else
      let buffer := default [] (snd r) in
      let computed := calculate_checksum buffer 0 in
      if negb (computed =? checksum file_info)
      then ret (ChecksumError (checksum file_info) computed)
      else
        opened <- sys_fopen ;;
        if negb opened then ret CreateFailed
        else
          complete <- sys_fread_fwrite ;;
          if negb complete then ret ShortWrite
          else (λ w, Ret Restored (emit (FileSaved output_path buffer) w)).

(** The loop of [main] over the entries: the status of every file, in
    order, and [success_count]. *)
Fixpoint restore_loop (handle : at24c256_handle_t) (files : list file_index_t)
    (output_dir : string) (success_count : Z)
    : M (list restore_status * Z) :=
  match files with
  | [] => ret ([], success_count)
  | f :: files' =>
      s <- read_file_from_eeprom handle f output_dir ;;
      r <- restore_loop handle files' output_dir
             (if restore_code s =? 0 then success_count + 1 else success_count) ;;
      ret (s :: fst r, snd r)
  end.

(** Whether the [filename] member of an entry holds a NUL, so that a
    [%s] stops inside it: [file_index_of_bytes] gives an entry read
    without one a name of 64 characters. *)
Definition terminated (f : file_index_t) : bool :=
  (String.length (filename f) <? 64)%nat.

Module camera_data_read.

(** The part of [main] after the index was read: every file in turn,
    then [at24c256_deinit]. The result is the exit status. *)
Definition read_files (handle : at24c256_handle_t)
    (files : list file_index_t) : M Z :=
  l <- restore_loop handle files "out" 0 ;;
  at24c256_deinit handle ;;;
  if snd l >? 0 then ret EXIT_SUCCESS else ret EXIT_FAILURE.

(** The table of [main] comes from the array as it is, and [main] hands
    every entry of it to [read_file_from_eeprom], which prints
    [filename] with [%s]. For an entry without a NUL in that member the
    [%s] reads past it, into the members that follow and, for the last
    element, past the table: the run then has no defined behaviour.
    The loop has no way out before its last entry, so this is the case
    as soon as the table holds such an entry. *)
Definition main : M Z :=
  d <- create_directory "out" ;;
  if negb (d =? 0) then ret EXIT_FAILURE
  else
    i <- at24c256_init (Some AT24C256_DEFAULT_CONFIG) ;;
    let '(r, handle) := i in
    if negb (err_eqb r AT24C256_OK) then ret EXIT_FAILURE
    else
      x <- read_file_index handle ;;
      let '(rc, files) := x in
      if negb (rc =? 0) then at24c256_deinit handle ;;; ret EXIT_FAILURE
      else if negb (forallb terminated files) then undefined
      else read_files handle files.

End camera_data_read.

(** ** The example program ([examples/main.c]) *)

(** [memcmp(a, b, n) == 0] *)
Definition memcmp_eq (a b : list Z) (n : Z) : bool :=
  bool_decide (take (Z.to_nat n) a = take (Z.to_nat n) b).

Definition test_string : string := "Hello, AT24C256 Driver! RK3588 Test.".

(** The test patterns: ['A' + (i % 26)] and [i % 256], for [i] below
    [n]. *)
Definition alphabet (n : nat) : list Z :=
  map (λ i, u8 (65 + Z.of_nat i mod 26)) (seq 0 n).
Definition ramp (n : nat) : list Z :=
  map (λ i, u8 (Z.of_nat i mod 256)) (seq 0 n).

Module example.

Definition basic_read_write_test (handle : at24c256_handle_t) : M Z :=
  let test_address := 4096 in
  let data := bytes_of_string test_string ++ [0] in
  let data_length := u16 (len (bytes_of_string test_string) + 1) in
  r <- at24c256_write handle test_address (Some data) data_length ;;
  if negb (err_eqb r AT24C256_OK) then ret (-1)
  else
    usleep 10000 ;;;
    x <- at24c256_read handle test_address (Some (replicate 64 0)) data_length ;;
    if negb (err_eqb (fst x) AT24C256_OK) then ret (-1)
    else if memcmp_eq data (default [] (snd x)) data_length then ret 0
    else ret (-1).

Definition cross_page_write_test (handle : at24c256_handle_t) : M Z :=
  let page_boundary := 8128 in
  let test_length := 128 in
  let write_data := alphabet (Z.to_nat test_length) in
  r <- at24c256_write handle page_boundary (Some write_data) test_length ;;
  if negb (err_eqb r AT24C256_OK) then ret (-1)
  else
    usleep 20000 ;;;
    x <- at24c256_read handle page_boundary
           (Some (replicate (Z.to_nat test_length) 0)) test_length ;;
    if negb (err_eqb (fst x) AT24C256_OK) then ret (-1)
    else if memcmp_eq write_data (default [] (snd x)) test_length then ret 0
    else ret (-1).

Definition erase_test (handle : at24c256_handle_t) : M Z :=
  let erase_address := 8192 in
  let erase_length := 32 in
  r <- at24c256_erase handle erase_address erase_length ;;
  if negb (err_eqb r AT24C256_OK) then ret (-1)
  else
    usleep 10000 ;;;
    x <- at24c256_read handle erase_address
           (Some (replicate (Z.to_nat erase_length) 0)) erase_length ;;
    if negb (err_eqb (fst x) AT24C256_OK) then ret (-1)
    else if forallb (λ b, b =? 255) (take (Z.to_nat erase_length) (default [] (snd x)))
    then ret 0
    else ret (-1).

Definition performance_test (handle : at24c256_handle_t) : M Z :=
  let test_address := 12288 in
  let test_size := 256 in
  let test_data := ramp (Z.to_nat test_size) in
  clock_gettime ;;;
  r <- at24c256_write handle test_address (Some test_data) test_size ;;
  if negb (err_eqb r AT24C256_OK) then ret (-1)
  else
    clock_gettime ;;;
    usleep 50000 ;;;
    clock_gettime ;;;
    x <- at24c256_read handle test_address
           (Some (replicate (Z.to_nat test_size) 0)) test_size ;;
    if negb (err_eqb (fst x) AT24C256_OK) then ret (-1)
    else
      clock_gettime ;;;
      if memcmp_eq test_data (default [] (snd x)) test_size then ret 0 else ret (-1).

(** The result is the exit status. *)
Definition main : M Z :=
  i <- at24c256_init (Some AT24C256_DEFAULT_CONFIG) ;;
  let '(r, handle) := i in
  if negb (err_eqb r AT24C256_OK) then ret EXIT_FAILURE
  else
    t1 <- basic_read_write_test handle ;;
    t2 <- cross_page_write_test handle ;;
    t3 <- erase_test handle ;;
    t4 <- performance_test handle ;;
    at24c256_deinit handle ;;;
    let success_count :=
      (if t1 =? 0 then 1 else 0) + (if t2 =? 0 then 1 else 0)
      + (if t3 =? 0 then 1 else 0) + (if t4 =? 0 then 1 else 0) in
    if success_count =? 4 then ret EXIT_SUCCESS else ret EXIT_FAILURE.

End example.

(** ** The programs without the directory (the earlier
    [camera_data_write.c] and [camera_data_read.c]) *)

(** The earlier writer stores the blobs one after the other from
    address 0 and keeps no directory; the earlier reader takes the names
    and the sizes from the files of the input directory and reads the
    payloads back in the same order. *)

(** How the earlier [write_file_to_eeprom] ends: [Written] is its
    [return 0], with [*file_size]; [NotWritten] is any of its
    [return -1]. *)
Inductive flat_status :=
| Written (file_size : Z)
| NotWritten.

Module flat_write.

(** [sleep(1)] is a pause of 1000000 microseconds. *)
Definition write_file_to_eeprom (handle : at24c256_handle_t)
    (path : string) (file : dirent) (address : Z) : M flat_status :=
  opened <- sys_fopen ;;
  if negb opened then ret NotWritten
  else
    let file_size := len (contents file) in
    if file_size >? MAX_FILE_SIZE then ret NotWritten
    else
      got <- sys_malloc file_size ;;
      if negb got then ret NotWritten
      else
        complete <- sys_fread_fwrite ;;
        if negb complete then ret NotWritten
        else
          r <- at24c256_write handle address (Some (contents file)) (u16 file_size) ;;
          if negb (err_eqb r AT24C256_OK) then ret NotWritten
          else usleep 1000000 ;;; ret (Written file_size).

(** The [readdir] loop of [process_camera_parameters]. *)
Fixpoint process_loop (handle : at24c256_handle_t) (input_dir : string)
    (entries : list dirent) (current_address file_count : Z) : M Z :=
  match entries with
  | [] => ret file_count
  | entry :: entries' =>
      if String.eqb (d_name entry) "." || String.eqb (d_name entry) ".."
      then process_loop handle input_dir entries' current_address file_count
      else if negb (is_dat (d_name entry))
      then process_loop handle input_dir entries' current_address file_count
      else if negb (is_regular entry)
      then process_loop handle input_dir entries' current_address file_count
      else
        s <- write_file_to_eeprom handle (join_path input_dir (d_name entry))
               entry current_address ;;
        match s with
        | Written file_size =>
            process_loop handle input_dir entries'
              (u16 (current_address + file_size)) (file_count + 1)
        | NotWritten =>
            process_loop handle input_dir entries' current_address file_count
        end
  end.

Definition process_camera_parameters (handle : at24c256_handle_t)
    (input_dir : string) (input : option (list dirent)) : M Z :=
  match input with
  | None => ret (-1)
  | Some entries => process_loop handle input_dir entries EEPROM_START_ADDRESS 0
  end.

Definition main (args : list string) (input : option (list dirent)) : M Z :=
  let erase_before_write := should_erase_eeprom args in
  i <- at24c256_init (Some AT24C256_DEFAULT_CONFIG) ;;
  let '(r, handle) := i in
  if negb (err_eqb r AT24C256_OK) then ret EXIT_FAILURE
  else
    e <- (if erase_before_write then erase_entire_eeprom handle
          else ret AT24C256_OK) ;;
    if negb (err_eqb e AT24C256_OK)
    then at24c256_deinit handle ;;; ret EXIT_FAILURE
    else
      file_count <- process_camera_parameters handle "camera_parameters" input ;;
      at24c256_deinit handle ;;;
      if file_count >? 0 then ret EXIT_SUCCESS else ret EXIT_FAILURE.

End flat_write.

(** The loop of [verify_files] over blocks of 1024 bytes; [f1] and [f2]
    are what is left of the two files, [fuel] bounds the iterations. *)
Fixpoint verify_loop (fuel : nat) (f1 f2 : list Z) : option Z :=
  match fuel with
  | O => None
  | S fuel' =>
      let buf1 := take 1024 f1 in
      let buf2 := take 1024 f2 in
      let bytes1 := len buf1 in
      let bytes2 := len buf2 in
      if negb (bytes1 =? bytes2) || negb (memcmp_eq buf1 buf2 bytes1) then Some (-1)
      else if bytes1 >? 0 then verify_loop fuel' (drop 1024 f1) (drop 1024 f2)
      else Some 0
  end.

(** [file1] and [file2] are the contents of the two files, [None] for a
    file that cannot be opened; the result is [None] when the bound on
    the iterations is too small. *)
Definition verify_files (file1 file2 : option (list Z)) : option Z :=
  match file1, file2 with
  | Some f1, Some f2 => verify_loop (S (length f1)) f1 f2
  | _, _ => Some (-1)
  end.

Module flat_read.

Definition read_file_from_eeprom (handle : at24c256_handle_t)
    (output_filename : string) (address file_size : Z) : M restore_status :=
  got <- sys_malloc file_size ;;
  if negb got then ret RestoreNoMemory
  else
    r <- at24c256_read handle address
           (Some (replicate (Z.to_nat file_size) 0)) (u16 file_size) ;;
    if negb (err_eqb (fst r) AT24C256_OK) then ret (RestoreFailed (fst r))
    else
      let buffer := default [] (snd r) in
      opened <- sys_fopen ;;
      if negb opened then ret CreateFailed
      else
        complete <- sys_fread_fwrite ;;
        if negb complete then ret ShortWrite
        else (λ w, Ret Restored (emit (FileSaved output_filename buffer) w)).

(** The [readdir] loop of [process_camera_parameters]. After a file is
    saved the loop calls [verify_files], which opens the input file and
    the saved one ([f1], [f2]); its outcome is only printed. *)
Fixpoint process_loop (handle : at24c256_handle_t) (input_dir output_dir : string)
    (entries : list dirent) (current_address file_count : Z) : M Z :=
  match entries with
  | [] => ret file_count
  | entry :: entries' =>
      if String.eqb (d_name entry) "." || String.eqb (d_name entry) ".."
      then process_loop handle input_dir output_dir entries' current_address file_count
      else if negb (is_dat (d_name entry))
      then process_loop handle input_dir output_dir entries' current_address file_count
      else if negb (is_regular entry)
      then process_loop handle input_dir output_dir entries' current_address file_count
      else
        opened <- sys_fopen ;;
        if negb opened
        then process_loop handle input_dir output_dir entries' current_address file_count
        else
          let file_size := len (contents entry) in
          s <- read_file_from_eeprom handle (join_path output_dir (d_name entry))
                 current_address file_size ;;
          if restore_code s =? 0
          then
            f1 <- sys_fopen ;;
            f2 <- sys_fopen ;;
            process_loop handle input_dir output_dir entries'
              (u16 (current_address + file_size)) (file_count + 1)
          else process_loop handle input_dir output_dir entries'
                 current_address file_count
  end.

Definition process_camera_parameters (handle : at24c256_handle_t)
    (input_dir output_dir : string) (input : option (list dirent)) : M Z :=
  match input with
  | None => ret (-1)
  | Some entries =>
      process_loop handle input_dir output_dir entries EEPROM_START_ADDRESS 0
  end.

Definition main (input : option (list dirent)) : M Z :=
  d <- create_directory "out" ;;
  if negb (d =? 0) then ret EXIT_FAILURE
  else
    i <- at24c256_init (Some AT24C256_DEFAULT_CONFIG) ;;
    let '(r, handle) := i in
    if negb (err_eqb r AT24C256_OK) then ret EXIT_FAILURE
    else
      file_count <- process_camera_parameters handle "camera_parameters" "out" input ;;
      at24c256_deinit handle ;;;
      if file_count >? 0 then ret EXIT_SUCCESS else ret EXIT_FAILURE.

End flat_read.

(** ** Vocabulary of the statements *)

(** The two address bytes that open every transaction. *)
Definition addr_bytes (a : Z) : list Z :=
  [Z.land (Z.shiftr a 8) 255; Z.land a 255].

(** [cs] with the bytes [d] laid over it from position [a] on. *)
Definition splice (a : Z) (d cs : list Z) : list Z :=
  take (Z.to_nat a) cs ++ d ++ drop (Z.to_nat a + length d) cs.

(** The bytes of [cs] in the range [a, a + n). *)
Definition slice (a n : Z) (cs : list Z) : list Z :=
  take (Z.to_nat n) (drop (Z.to_nat a) cs).

(** An initialized handle whose configuration describes the device in the
    world: the configured page is a positive 16-bit number that divides
    the page of the device, and the configured capacity lies within the
    array of the device, which two address bytes can reach. *)
Definition attached (dev : at24c256_dev_s) (w : world) : Prop :=
  initialized dev = true
  ∧ 0 < page_size (config dev) < 65536
  ∧ 0 < dev_page w
  ∧ (page_size (config dev) | dev_page w)
  ∧ total_size (config dev) ≤ len (cells w)
  ∧ len (cells w) ≤ 65536.

(** An address range of the device behind [dev], in the types of the
    driver's parameters. *)
Definition valid_range (dev : at24c256_dev_s) (address length : Z) : Prop :=
  is_u16 address ∧ is_u16 length
  ∧ 0 < length
  ∧ address + length ≤ total_size (config dev).

(** The world [w'] comes after [w]: the device has the same geometry,
    the scripts of the outcomes to come were consumed from the front, and
    the log grew at its end. *)
Definition later (w w' : world) : Prop :=
  dev_page w' = dev_page w
  ∧ length (cells w') = length (cells w)
  ∧ (∃ m, link w' = drop m (link w))
  ∧ (∃ m, heap w' = drop m (heap w))
  ∧ (∃ m, fs w' = drop m (fs w))
  ∧ (∃ l, log w' = log w ++ l).

(** No transfer on the link fails from now on. *)
Definition reliable (w : world) : Prop := Forall (λ ok, ok = true) (link w).

(** No allocation and no host file operation fails from now on. *)
Definition provided (w : world) : Prop :=
  Forall (λ ok, ok = true) (heap w) ∧ Forall (λ ok, ok = true) (fs w).

(** The chunks of a write of [d] at [a] as the specification words
    them: while bytes remain, the next chunk starts where the last one
    ended and its size is [min(remaining, page - (address mod page))]. *)
Inductive chunking (page : Z) : Z → list Z → list (Z * list Z) → Prop :=
| chunking_done a : chunking page a [] []
| chunking_next a d n cs :
    0 < len d →
    n = Z.min (len d) (page - a mod page) →
    chunking page (a + n) (drop (Z.to_nat n) d) cs →
    chunking page a d ((a, take (Z.to_nat n) d) :: cs).

(** Every chunk starts where the one before it ends; the first starts at
    [a]. *)
Fixpoint contiguous (a : Z) (cs : list (Z * list Z)) : Prop :=
  match cs with
  | [] => True
  | c :: cs' => fst c = a ∧ contiguous (a + len (snd c)) cs'
  end.

(** What sending the chunks looks like in the log: each one transaction,
    address first, then the settle delay. *)
Definition chunk_events (delay_ms : Z) (cs : list (Z * list Z)) : list event :=
  flat_map (λ c, [I2cWrite (addr_bytes (fst c) ++ snd c) true;
                  Usleep (delay_ms * 1000)]) cs.

(** The chunks sent one after the other, as the loop of [at24c256_write]
    does once their sizes are known. *)
Fixpoint send_chunks (dev : at24c256_dev_s) (cs : list (Z * list Z))
    : M at24c256_err_t :=
  match cs with
  | [] => ret AT24C256_OK
  | c :: cs' =>
      bytes_written <- sys_write (fd dev) (addr_bytes (fst c) ++ snd c) ;;
      if negb (bytes_written =? len (snd c) + 2) then ret AT24C256_ERROR_WRITE
      else usleep (write_delay_ms (config dev) * 1000) ;;; send_chunks dev cs'
  end.

(** The same data issued as separate calls of [at24c256_write], one per
    piece, each where the previous one ended; the first error ends the
    sequence. *)
Fixpoint write_pieces (handle : at24c256_handle_t) (address : Z)
    (pieces : list (list Z)) : M at24c256_err_t :=
  match pieces with
  | [] => ret AT24C256_OK
  | p :: pieces' =>
      r <- at24c256_write handle address (Some p) (len p) ;;
      if negb (err_eqb r AT24C256_OK) then ret r
      else write_pieces handle (address + len p) pieces'
  end.

(** The entry [f] describes a payload held by the array [cs]: its range
    is a valid one and the bytes there have the checksum it records. *)
Definition holds (dev : at24c256_dev_s) (cs : list Z) (f : file_index_t) : Prop :=
  valid_range dev (address f) (size f)
  ∧ checksum f = calculate_checksum (slice (address f) (size f) cs) 0.



(** What checking the entry [f] against the array [cs] gives. *)
Definition verdict (cs : list Z) (f : file_index_t) : restore_status :=
  let computed := calculate_checksum (slice (address f) (size f) cs) 0 in
  if computed =? checksum f then Restored
  else ChecksumError (checksum f) computed.

(** The value a computation returns, if it returns. *)
Definition value {A} (o : outcome A) : option A :=
  match o with
  | Ret a _ => Some a
  | _ => None
  end.

(** The directory entries the writer takes up: regular files named
    [*.dat]. *)
Definition eligible (e : dirent) : bool :=
  negb (String.eqb (d_name e) "." || String.eqb (d_name e) "..")
  && is_dat (d_name e) && is_regular e.

(** The start of the payload area: the header and the room for
    [MAX_FILES] entries come first. *)
Definition PAYLOAD_START : Z :=
  EEPROM_START_ADDRESS + sizeof_index_header_t + MAX_FILES * sizeof_file_index_t.

(** The payloads of [files] lie one after the other from [a] to [b],
    none of them empty. *)
Fixpoint packed (a : Z) (files : list file_index_t) (b : Z) : Prop :=
  match files with
  | [] => a = b
  | f :: files' => address f = a ∧ 0 < size f ∧ packed (a + size f) files' b
  end.

(** The entry [f] is the record of the blob [e] in the array [cs]: its
    size, its checksum, its name, and its bytes where it says. *)
Definition records (cs : list Z) (e : dirent) (f : file_index_t) : Prop :=
  size f = len (contents e)
  ∧ 0 < size f ≤ MAX_FILE_SIZE
  ∧ checksum f = calculate_checksum (contents e) 0
  ∧ slice (address f) (size f) cs = contents e.

(** The entries [files] as they lie in the array, one after the other,
    with [pads] in their padding bytes. *)
Definition entry_images (files : list file_index_t) (pads : list Z) : list Z :=
  concat (zip_with file_index_bytes files pads).

(** The header [write_file_index] builds for [files]. *)
Definition header_for (files : list file_index_t) : index_header_t :=
  {| magic := CAM_MAGIC;
     version := 1;
     file_count := u8 (len files);
     hdr_total_size := fold_left (λ acc f, u16 (acc + size f)) files 0;
     reserved := replicate 8 0 |}.

(** The world a computation leaves, [w] when it leaves none. *)
Definition after {A} (o : outcome A) (w : world) : world :=
  match o with
  | Ret _ w' => w'
  | _ => w
  end.

(** A small part for the examples, four pages of 64 bytes, erased, and
    the AT24C256 itself, 512 pages of 64 bytes, erased; on both every
    external call succeeds. *)
Definition bench_config : at24c256_config_t :=
  {| i2c_bus := "/dev/i2c-5"; device_addr := 80; page_size := 64;
     total_size := 256; write_delay_ms := 5 |}.
Definition bench_dev : at24c256_dev_s :=
  {| fd := 3; config := bench_config; initialized := true |}.
Definition bench_world : world :=
  {| cells := replicate 256 255; dev_page := 64; cursor := 0;
     link := []; heap := []; fs := []; junk := []; log := [] |}.

(** Two files for the examples, as the writer lays them out on the small
    part: the blob 1, 2, 3 and the blob 4, 5, one after the other. *)
Definition bench_files : list file_index_t :=
  [ {| filename := "a.dat"; address := 100; size := 3; checksum := 0 |};
    {| filename := "b.dat"; address := 103; size := 2; checksum := 1 |} ].
Definition bench_stored : world :=
  after (at24c256_write (Some bench_dev) 100 (Some [1; 2; 3; 4; 5]) 5 bench_world)
        bench_world.

Definition at24c256_dev : at24c256_dev_s :=
  {| fd := 3; config := AT24C256_DEFAULT_CONFIG; initialized := true |}.
Definition at24c256_blank : world :=
  {| cells := replicate (Z.to_nat 32768) 255; dev_page := 64; cursor := 0;
     link := []; heap := []; fs := []; junk := []; log := [] |}.

Definition small_then_small : list dirent :=
  [ {| d_name := "a.dat"; is_regular := true; contents := [1; 2; 3] |};
    {| d_name := "b.dat"; is_regular := true; contents := [4; 5] |} ].



(** The AT24C256 with a directory of one entry whose [filename] member
    holds 64 letters N and no NUL; the entry describes the one byte at
    address 1136. *)
Definition at24c256_overrun : world :=
  {| cells := [67; 65; 77; 0; 1; 1; 1; 0] ++ replicate 8 0
              ++ replicate 64 78 ++ [112; 4; 1; 0; 255; 0]
              ++ replicate (Z.to_nat 32768 - 86) 255;
     dev_page := 64; cursor := 0;
     link := []; heap := []; fs := []; junk := []; log := [] |}.

(** A configuration whose capacity is beyond what the 16-bit address of
    the driver reaches, a device opened with it and an array that large. *)
Definition wide_config : at24c256_config_t :=
  {| i2c_bus := i2c_bus AT24C256_DEFAULT_CONFIG;
     device_addr := device_addr AT24C256_DEFAULT_CONFIG;
     page_size := 64; total_size := 65600; write_delay_ms := 5 |}.
Definition wide_dev : at24c256_dev_s :=
  {| fd := 3; config := wide_config; initialized := true |}.
Definition wide_world : world :=
  {| cells := replicate (Z.to_nat 65600) 255; dev_page := 64; cursor := 0;
     link := []; heap := []; fs := []; junk := []; log := [] |}.

(** A write of ten bytes that starts six bytes below address 65536. *)
Definition wide_write : M at24c256_err_t :=
  at24c256_write (Some wide_dev) 65530 (Some [1; 2; 3; 4; 5; 6; 7; 8; 9; 10]) 10.

(** The small part on a link whose second transfer fails. *)
Definition bench_glitch : world :=
  {| cells := replicate 256 255; dev_page := 64; cursor := 0;
     link := [true; false]; heap := []; fs := []; junk := []; log := [] |}.

(** The small part behind a device that is busy for two polls and
    answers the third, and behind one that does not answer. *)
Definition bench_late : world :=
  {| cells := replicate 256 255; dev_page := 64; cursor := 0;
     link := [false; false; true]; heap := []; fs := []; junk := []; log := [] |}.
Definition bench_mute : world :=
  {| cells := replicate 256 255; dev_page := 64; cursor := 0;
     link := replicate 8 false; heap := []; fs := []; junk := []; log := [] |}.

(** The number of transfers that fail before the first one the device
    answers (an exhausted script answers). *)
Fixpoint silent (s : list bool) : nat :=
  match s with
  | false :: s' => S (silent s')
  | _ => O
  end.

(** What polling looks like in the log: [n] one-byte reads without an
    answer, each followed by the sleep of a millisecond, then the last
    read. *)
Definition poll_events (n : nat) (last : bool) : list event :=
  concat (replicate n [I2cRead 1 false; Usleep 1000]) ++ [I2cRead 1 last].

(** The chunks as the driver addresses them: its address variable is a
    [uint16_t]. *)
Definition sent_as (cs : list (Z * list Z)) : list (Z * list Z) :=
  map (λ c, (u16 (fst c), snd c)) cs.

(** A name that the [filename] member holds as a C string: shorter than
    the array and without a NUL character. *)
Definition c_name (s : string) : Prop :=
  (String.length s < 64)%nat
  ∧ Forall (λ c, c ≠ Ascii.zero) (list_ascii_of_string s).

(** An entry whose members hold their values: the name is a [c_name],
    the address and the size are 16-bit numbers. *)
Definition well_formed (f : file_index_t) : Prop :=
  c_name (filename f) ∧ is_u16 (address f) ∧ is_u16 (size f).

(** The first [n] entries of the directory as the array [cs] holds
    them, after the header. *)
Definition index_entries (cs : list Z) (n : nat) : list file_index_t :=
  map (λ i, file_index_of_bytes
              (slice (sizeof_index_header_t + sizeof_file_index_t * Z.of_nat i)
                     sizeof_file_index_t cs))
      (seq 0 n).

(** The header as the array [cs] holds it. *)
Definition index_header (cs : list Z) : index_header_t :=
  header_of_bytes (slice EEPROM_START_ADDRESS sizeof_index_header_t cs).

(** The entries the writer takes up, in the order of the directory. *)
Definition chosen (entries : list dirent) : list dirent :=
  filter (λ e, eligible e = true) entries.

(** The name the writer records for an entry of the directory [dir]. *)
Definition stored_name (dir : string) (e : dirent) : string :=
  substring 0 63 (base_name (join_path dir (d_name e))).

(** The number of write transactions in a log. *)
Fixpoint page_writes (l : list event) : Z :=
  match l with
  | [] => 0
  | I2cWrite _ _ :: l' => 1 + page_writes l'
  | _ :: l' => page_writes l'
  end.

(** The number of pages of size [page] that the range [a, a + n)
    touches, for [n] positive. *)
Definition pages_touched (page a n : Z) : Z := (a mod page + n + page - 1) / page.

(** A directory of seventeen blobs of one byte each. *)
Definition seventeen_blobs : list dirent :=
  replicate 17 {| d_name := "a.dat"; is_regular := true; contents := [7] |}.

(** A name as [readdir] gives it and as the [filename] member holds it
    whole: at most 63 characters, none of them a slash or a NUL. *)
Definition plain_name (s : string) : Prop :=
  (String.length s ≤ 63)%nat
  ∧ Forall (λ c, c ≠ "/"%char ∧ c ≠ Ascii.zero) (list_ascii_of_string s).

(** The AT24C256 as the writer leaves it after storing the two small
    blobs. *)
Definition at24c256_written : world :=
  after (camera_data_write.main [] (Some small_then_small) at24c256_blank)
        at24c256_blank.

(** The host files a log shows as saved, in order. *)
Fixpoint saved (l : list event) : list (string * list Z) :=
  match l with
  | [] => []
  | FileSaved path bytes :: l' => (path, bytes) :: saved l'
  | _ :: l' => saved l'
  end.

(** What the earlier reader saves for the entries [es] when it reads the
    array [cs] from [cur] on: for each entry, under its name in [out],
    as many bytes of the array as the input file has. *)
Fixpoint flat_saved (out : string) (cur : Z) (es : list dirent) (cs : list Z)
    : list (string * list Z) :=
  match es with
  | [] => []
  | e :: es' =>
      (join_path out (d_name e), slice cur (len (contents e)) cs)
      :: flat_saved out (cur + len (contents e)) es' cs
  end.

(** * Properties *)

(** ** Parameter checks *)

Lemma check_address_length_rejected handle address length :
  (handle = None ∨ ∃ dev, handle = Some dev ∧ initialized dev = false) →
  check_address_length handle address length = AT24C256_ERROR_INIT.
Proof.
  intros [-> | (dev & -> & Hflag)]; [done |].
  unfold check_address_length. by rewrite Hflag.
Qed.

Lemma check_address_length_range dev address length :
  initialized dev = true →
  address + length > total_size (config dev) ∨ length = 0 →
  check_address_length (Some dev) address length = AT24C256_ERROR_PARAM.
Proof.
  intros Hflag Hbad. unfold check_address_length. rewrite Hflag. simpl.
  destruct (Z.gtb_spec (address + length) (total_size (config dev))); [done |].
  destruct Hbad as [? | ->]; [lia | done].
Qed.

Lemma check_address_length_ok dev address length :
  initialized dev = true →
  0 < length →
  address + length ≤ total_size (config dev) →
  check_address_length (Some dev) address length = AT24C256_OK.
Proof.
  intros Hflag Hlen Hfit. unfold check_address_length. rewrite Hflag. simpl.
  destruct (Z.gtb_spec (address + length) (total_size (config dev))); [lia |].
  destruct (Z.eqb_spec length 0); [lia | done].
Qed.




(** C6 (amended): every data operation (read, write, erase, wait_ready)
    invoked on a handle that was never initialized, a null handle or one
    whose [initialized] flag is clear, fails with
    [AT24C256_ERROR_INIT], not with the parameter error, and leaves the
    world (device, link, log) as it was. *)
Theorem uninitialized_handle_is_init_error
    (handle : at24c256_handle_t) (address length timeout_ms : Z)
    (data : option (list Z)) (w : world) :
  (handle = None ∨ ∃ dev, handle = Some dev ∧ initialized dev = false) →
  at24c256_read handle address data length w = Ret (AT24C256_ERROR_INIT, data) w
  ∧ at24c256_write handle address data length w = Ret AT24C256_ERROR_INIT w
  ∧ at24c256_erase handle address length w = Ret AT24C256_ERROR_INIT w
  ∧ at24c256_wait_ready handle timeout_ms w = Ret AT24C256_ERROR_INIT w.
Proof.
  intros Hbad.
  pose proof (check_address_length_rejected handle address length Hbad) as Hchk.
  unfold at24c256_read, at24c256_write, at24c256_erase, at24c256_wait_ready.
  rewrite Hchk. simpl.
  repeat split; try reflexivity.
  destruct Hbad as [-> | (dev & -> & Hflag)]; [done |]. by rewrite Hflag.
Qed.

Lemma uninitialized_handle_is_init_error_witness :
  at24c256_read None 0 (Some [0]) 1 (World [255; 255] 2 0 [] [] [] [])
    = Ret (AT24C256_ERROR_INIT, Some [0]) (World [255; 255] 2 0 [] [] [] [])
  ∧ at24c256_write None 0 (Some [0]) 1 (World [255; 255] 2 0 [] [] [] [])
    = Ret AT24C256_ERROR_INIT (World [255; 255] 2 0 [] [] [] [])
  ∧ at24c256_erase None 0 1 (World [255; 255] 2 0 [] [] [] [])
    = Ret AT24C256_ERROR_INIT (World [255; 255] 2 0 [] [] [] [])
  ∧ at24c256_wait_ready None 10 (World [255; 255] 2 0 [] [] [] [])
    = Ret AT24C256_ERROR_INIT (World [255; 255] 2 0 [] [] [] []).
Proof.
  apply (uninitialized_handle_is_init_error None 0 1 10 (Some [0])).
  left. reflexivity.
Defined.

(** C6 as stated fails: on a null handle, and on a structure whose flag is
    clear, [at24c256_read] and [at24c256_wait_ready] return
    [AT24C256_ERROR_INIT] (-1), which is not [AT24C256_ERROR_PARAM] (-4). *)
Lemma uninitialized_handle_not_param_error :
  at24c256_read None 0 (Some [0]) 1 (World [255; 255] 2 0 [] [] [] [])
    = Ret (AT24C256_ERROR_INIT, Some [0]) (World [255; 255] 2 0 [] [] [] [])
  ∧ at24c256_wait_ready
      (Some (Dev 3 AT24C256_DEFAULT_CONFIG false)) 10
      (World [255; 255] 2 0 [] [] [] [])
    = Ret AT24C256_ERROR_INIT (World [255; 255] 2 0 [] [] [] [])
  ∧ err_code AT24C256_ERROR_INIT = -1
  ∧ err_code AT24C256_ERROR_PARAM = -4
  ∧ AT24C256_ERROR_INIT ≠ AT24C256_ERROR_PARAM.
Proof. repeat split; discriminate. Qed.

(** C7: on an initialized handle, a call to read, write or erase with
    [address + length > total_size] or [length = 0] returns
    [AT24C256_ERROR_PARAM] and performs no transport I/O: the world it
    leaves is the world it found, so no byte went over the link, the log
    has no new transfer and the device is unchanged (and so is the
    caller's read buffer). *)
Theorem out_of_range_is_param_error_without_io
    (dev : at24c256_dev_s) (address length : Z)
    (data : option (list Z)) (w : world) :
  initialized dev = true →
  address + length > total_size (config dev) ∨ length = 0 →
  at24c256_read (Some dev) address data length w
    = Ret (AT24C256_ERROR_PARAM, data) w
  ∧ at24c256_write (Some dev) address data length w = Ret AT24C256_ERROR_PARAM w
  ∧ at24c256_erase (Some dev) address length w = Ret AT24C256_ERROR_PARAM w.
Proof.
  intros Hflag Hbad.
  pose proof (check_address_length_range dev address length Hflag Hbad) as Hchk.
  unfold at24c256_read, at24c256_write, at24c256_erase.
  rewrite Hchk. done.
Qed.

Lemma out_of_range_is_param_error_without_io_witness :
  at24c256_read (Some (Dev 3 AT24C256_DEFAULT_CONFIG true)) 32760 (Some [0; 0]) 9
      (World [255; 255] 2 0 [] [] [] [])
    = Ret (AT24C256_ERROR_PARAM, Some [0; 0]) (World [255; 255] 2 0 [] [] [] [])
  ∧ at24c256_write (Some (Dev 3 AT24C256_DEFAULT_CONFIG true)) 32760 (Some [0; 0]) 9
      (World [255; 255] 2 0 [] [] [] [])
    = Ret AT24C256_ERROR_PARAM (World [255; 255] 2 0 [] [] [] [])
  ∧ at24c256_erase (Some (Dev 3 AT24C256_DEFAULT_CONFIG true)) 32760 9
      (World [255; 255] 2 0 [] [] [] [])
    = Ret AT24C256_ERROR_PARAM (World [255; 255] 2 0 [] [] [] []).
Proof.
  apply (out_of_range_is_param_error_without_io
           (Dev 3 AT24C256_DEFAULT_CONFIG true) 32760 9).
  - reflexivity.
  - left. simpl. lia.
Defined.

(** ** Machine arithmetic *)

Lemma u16_small x : 0 ≤ x < 65536 → u16 x = x.
Proof. intros. unfold u16. by apply Z.mod_small. Qed.

Lemma u8_small x : 0 ≤ x < 256 → u8 x = x.
Proof. intros. unfold u8. by apply Z.mod_small. Qed.


Lemma addr_bytes_value a :
  0 ≤ a < 65536 →
  Z.land (Z.shiftr a 8) 255 * 256 + Z.land a 255 = a.
Proof.
  intros Ha. change 255 with (Z.ones 8).
  rewrite !Z.land_ones, Z.shiftr_div_pow2 by lia.
  change (2 ^ 8) with 256.
  rewrite (Z.mod_small (a / 256) 256).
  - pose proof (Z.div_mod a 256). lia.
  - split; [apply Z.div_pos; lia | apply Z.div_lt_upper_bound; lia].
Qed.

Lemma len_nil {A} : len (@nil A) = 0.
Proof. done. Qed.

Lemma len_cons {A} (x : A) l : len (x :: l) = len l + 1.
Proof. unfold len. simpl. lia. Qed.

Lemma len_app {A} (l k : list A) : len (l ++ k) = len l + len k.
Proof. unfold len. rewrite length_app. lia. Qed.

Lemma len_nonneg {A} (l : list A) : 0 ≤ len l.
Proof. unfold len. lia. Qed.

Lemma len_take {A} (l : list A) n :
  0 ≤ n ≤ len l → len (take (Z.to_nat n) l) = n.
Proof. unfold len. intros. rewrite length_take. lia. Qed.

Lemma len_drop {A} (l : list A) n :
  0 ≤ n ≤ len l → len (drop (Z.to_nat n) l) = len l - n.
Proof. unfold len. intros. rewrite length_drop. lia. Qed.

Lemma len_replicate {A} (x : A) n : 0 ≤ n → len (replicate (Z.to_nat n) x) = n.
Proof. unfold len. intros. rewrite length_replicate. lia. Qed.

(** A chunk that fits the configured page fits the page of the device
    when the first divides the second. *)
Lemma fits_device_page ps page a n :
  0 < ps → 0 < page → (ps | page) → 0 ≤ n →
  a mod ps + n ≤ ps →
  a mod page + n ≤ page.
Proof.
  intros Hps Hpage [c ->] Hn Hfit.
  assert (0 < c) by nia.
  rewrite (Z.mul_comm c ps), Z.rem_mul_r by lia.
  pose proof (Z.mod_pos_bound (a / ps) c). nia.
Qed.

(** ** The chunks of a write *)

Section chunks.
Variable page : Z.
Hypothesis page_pos : 0 < page.

Lemma chunk_size_bounds a (d : list Z) :
  0 < len d →
  0 < Z.min (len d) (page - a mod page) ≤ len d
  ∧ a mod page + Z.min (len d) (page - a mod page) ≤ page.
Proof. intros. pose proof (Z.mod_pos_bound a page). lia. Qed.

(** The chunks exist and are determined by the address and the data. *)
Lemma chunking_exists (d : list Z) : ∀ a, ∃ cs, chunking page a d cs.
Proof.
  remember (length d) as m eqn:Hm.
  revert d Hm. induction (lt_wf m) as [m _ IH]. intros d -> a.
  destruct d as [| b d'] eqn:Hd; [eexists; constructor |].
  rewrite <- Hd.
  assert (0 < len d) as Hlen by (subst d; rewrite len_cons; pose proof (len_nonneg d'); lia).
  destruct (chunk_size_bounds a d Hlen) as [Hn _].
  set (n := Z.min (len d) (page - a mod page)) in *.
  destruct (IH (length (drop (Z.to_nat n) d))) with
    (d := drop (Z.to_nat n) d) (a := a + n) as [cs Hcs].
  - rewrite length_drop. unfold len in *. subst d. simpl in *. lia.
  - done.
  - exists ((a, take (Z.to_nat n) d) :: cs). by constructor.
Qed.

Lemma chunking_unique a d cs1 cs2 :
  chunking page a d cs1 → chunking page a d cs2 → cs1 = cs2.
Proof.
  intros H1. revert cs2.
  induction H1 as [a | a d n cs Hlen Hn _ IH]; intros cs2 H2.
  - inversion H2; subst; [done | unfold len in *; simpl in *; lia].
  - inversion H2; subst; [unfold len in *; simpl in *; lia |].
    f_equal. by apply IH.
Qed.

(** Put back together, the chunks are the data. *)
Lemma chunking_concat a d cs :
  chunking page a d cs → concat (map snd cs) = d.
Proof.
  induction 1 as [| a d n cs _ _ _ IH]; [done |].
  simpl. rewrite IH. apply take_drop.
Qed.

(** No chunk is empty, none is longer than what remains, none crosses
    the end of the page its start lies in. *)
Lemma chunking_sizes a d cs :
  chunking page a d cs →
  Forall (λ c, 0 < len (snd c) ∧ fst c mod page + len (snd c) ≤ page) cs.
Proof.
  induction 1 as [| a d n cs Hlen Hn _ IH]; constructor; [| done].
  destruct (chunk_size_bounds a d Hlen). simpl.
  rewrite len_take by lia. lia.
Qed.

Lemma chunking_contiguous a d cs : chunking page a d cs → contiguous a cs.
Proof.
  induction 1 as [| a d n cs Hlen Hn _ IH]; [done |].
  destruct (chunk_size_bounds a d Hlen). simpl.
  rewrite len_take by lia. done.
Qed.

(** The start addresses increase strictly. *)
Lemma chunking_lower_bound a d cs :
  chunking page a d cs → Forall (λ c, a ≤ fst c) cs.
Proof.
  induction 1 as [| a d n cs Hlen Hn _ IH]; constructor; [simpl; lia |].
  destruct (chunk_size_bounds a d Hlen).
  eapply Forall_impl; [exact IH |]. simpl. intros. lia.
Qed.

Lemma chunking_increasing a d cs :
  chunking page a d cs → StronglySorted Z.lt (map fst cs).
Proof.
  induction 1 as [| a d n cs Hlen Hn Hrest IH]; simpl; constructor; [done |].
  destruct (chunk_size_bounds a d Hlen).
  apply Forall_fmap. eapply Forall_impl; [exact (chunking_lower_bound _ _ _ Hrest) |].
  simpl. intros. lia.
Qed.

End chunks.

(** ** The loop of [at24c256_write] sends the chunks *)

Lemma write_loop_unfold fuel dev a d rem :
  write_loop fuel dev a d rem =
  if rem >? 0 then
    match fuel with
    | O => spin
    | S fuel' =>
        if page_size (config dev) =? 0 then undefined
        else
          let page_offset := u16 (a mod page_size (config dev)) in
          let bytes_in_page := u16 (page_size (config dev) - page_offset) in
          let bytes_in_page :=
            if bytes_in_page >? rem then rem else bytes_in_page in
          if len d <? bytes_in_page then undefined
          else
            bind (sys_write (fd dev) (addr_bytes a ++ take (Z.to_nat bytes_in_page) d))
             (λ bytes_written,
            if negb (bytes_written =? bytes_in_page + 2)
            then ret AT24C256_ERROR_WRITE
            else
              bind (usleep (write_delay_ms (config dev) * 1000)) (λ _,
              write_loop fuel' dev
                (u16 (a + bytes_in_page))
                (drop (Z.to_nat bytes_in_page) d)
                (u16 (rem - bytes_in_page))))
    end
  else ret AT24C256_OK.
Proof. destruct fuel; reflexivity. Qed.

Lemma chunking_nil_inv page a cs : chunking page a [] cs → cs = [].
Proof. inversion 1; subst; [done | unfold len in *; simpl in *; lia]. Qed.

Lemma write_loop_sends dev a d cs :
  chunking (page_size (config dev)) a d cs →
  0 < page_size (config dev) < 65536 → 0 ≤ a → a + len d ≤ 65536 →
  ∀ fuel w, (length d ≤ fuel)%nat →
  write_loop fuel dev a d (len d) w = send_chunks dev cs w.
Proof.
  intros Hcs Hps. induction Hcs as [a | a d n cs Hlen Hn Hrest IH]; intros Ha Hend fuel w Hfuel.
  - rewrite write_loop_unfold. done.
  - rewrite write_loop_unfold.
    destruct (chunk_size_bounds _ (proj1 Hps) a d Hlen) as [Hn1 Hn2]. rewrite <- Hn in Hn1, Hn2.
    pose proof (Z.mod_pos_bound a (page_size (config dev)) (proj1 Hps)) as Hoff.
    destruct (Z.gtb_spec (len d) 0); [| lia].
    destruct fuel as [| fuel]; [unfold len in *; lia |].
    destruct (Z.eqb_spec (page_size (config dev)) 0); [lia |].
    cbv zeta.
    rewrite (u16_small (a mod _)) by lia.
    rewrite (u16_small (_ - _)) by lia.
    assert ((if page_size (config dev) - a mod page_size (config dev) >? len d
             then len d else page_size (config dev) - a mod page_size (config dev)) = n) as ->.
    { destruct (Z.gtb_spec (page_size (config dev) - a mod page_size (config dev)) (len d)); lia. }
    destruct (Z.ltb_spec (len d) n); [lia |].
    simpl send_chunks. unfold bind at 1. unfold bind at 2. simpl fst. simpl snd.
    rewrite len_take by lia.
    destruct (sys_write _ _ w) as [bw w1 | |]; [| done | done].
    destruct (negb (bw =? n + 2)); [done |].
    unfold bind. simpl usleep.
    rewrite (u16_small (len d - n)) by lia.
    destruct (decide (n = len d)) as [Hall | Hmore].
    + (* the last chunk *)
      assert (drop (Z.to_nat n) d = []) as Hnil.
      { apply drop_ge. unfold len in *. lia. }
      rewrite Hnil in Hrest. apply chunking_nil_inv in Hrest as ->.
      rewrite Hall, Z.sub_diag, write_loop_unfold. done.
    + rewrite u16_small by lia.
      rewrite <- (len_drop d n) by lia.
      apply IH; [lia | rewrite len_drop by lia; lia |].
      rewrite length_drop. unfold len in *. lia.
Qed.

(** ** The EEPROM array *)

Lemma splice_over (pre old post d : list Z) a :
  a = len pre → length old = length d →
  splice a d (pre ++ old ++ post) = pre ++ d ++ post.
Proof.
  intros -> Hlen. unfold splice, len. rewrite Nat2Z.id.
  rewrite take_app_length. f_equal. f_equal.
  rewrite drop_app_add, <- Hlen. by rewrite drop_app_length.
Qed.

Lemma range_split (cs : list Z) (a n : nat) :
  (a + n ≤ length cs)%nat →
  cs = take a cs ++ take n (drop a cs) ++ drop (a + n) cs
  ∧ length (take a cs) = a ∧ length (take n (drop a cs)) = n.
Proof.
  intros Hfit. split; [| split].
  - rewrite <- drop_drop, take_drop. by rewrite take_drop.
  - rewrite length_take. lia.
  - rewrite length_take, length_drop. lia.
Qed.

Lemma length_splice a d cs :
  0 ≤ a → a + len d ≤ len cs → length (splice a d cs) = length cs.
Proof.
  unfold splice, len. intros. rewrite !length_app, length_take, length_drop. lia.
Qed.

Lemma splice_nil a cs : splice a [] cs = cs.
Proof. unfold splice. simpl. rewrite Nat.add_0_r. apply take_drop. Qed.

Lemma splice_splice a d1 d2 cs :
  0 ≤ a → a + len d1 + len d2 ≤ len cs →
  splice (a + len d1) d2 (splice a d1 cs) = splice a (d1 ++ d2) cs.
Proof.
  unfold len. intros Ha Hfit.
  destruct (range_split cs (Z.to_nat a) (length d1 + length d2)) as (Hcs & Hpre & Hold);
    [lia |].
  set (pre := take (Z.to_nat a) cs) in *.
  set (old := take (length d1 + length d2) (drop (Z.to_nat a) cs)) in *.
  set (post := drop (Z.to_nat a + (length d1 + length d2)) cs) in *.
  rewrite Hcs.
  rewrite (splice_over pre old post (d1 ++ d2)).
  2:{ unfold len. lia. }
  2:{ by rewrite length_app. }
  rewrite <- (take_drop (length d1) old), <- (assoc app (take _ old)).
  rewrite (splice_over pre (take (length d1) old) (drop (length d1) old ++ post) d1);
    [| unfold len; lia | rewrite length_take; lia].
  rewrite (assoc app pre d1), <- (assoc app d1 d2).
  rewrite (splice_over (pre ++ d1) (drop (length d1) old) post d2); [by rewrite <- !(assoc app) | |].
  - unfold len. rewrite length_app. lia.
  - rewrite length_drop. lia.
Qed.

Lemma slice_splice a d cs :
  0 ≤ a → a + len d ≤ len cs → slice a (len d) (splice a d cs) = d.
Proof.
  unfold len. intros Ha Hfit. unfold slice, splice.
  rewrite drop_app_length'; [| rewrite length_take; lia].
  rewrite Nat2Z.id. apply take_app_length.
Qed.

Lemma take_splice_below a d cs n :
  0 ≤ n ≤ a → a + len d ≤ len cs →
  take (Z.to_nat n) (splice a d cs) = take (Z.to_nat n) cs.
Proof.
  unfold len. intros Hn Hfit. unfold splice.
  rewrite take_app_le; [| rewrite length_take; lia].
  rewrite take_take. f_equal. lia.
Qed.

Lemma program_over page : ∀ bytes pre old post p,
  0 < page → p = len pre → length old = length bytes →
  p mod page + len bytes ≤ page →
  (program page p bytes (pre ++ old ++ post)).1 = pre ++ bytes ++ post.
Proof.
  induction bytes as [| b bs IH]; intros pre old post p Hpage -> Hlen Hfit.
  - destruct old; [done | discriminate].
  - destruct old as [| o os]; [discriminate |]. simpl in Hlen.
    simpl program.
    replace (Z.to_nat (len pre)) with (length pre + 0)%nat by (unfold len; lia).
    rewrite insert_app_r. simpl.
    destruct bs as [| b' bs'].
    + destruct os; [| discriminate]. done.
    + assert (next_in_page page (len pre) = len (pre ++ [b])) as ->.
      { unfold next_in_page. rewrite len_app, !len_cons, len_nil in *.
        pose proof (len_nonneg bs'). pose proof (Z.mod_pos_bound (len pre) page Hpage).
        rewrite (Z.mod_small (_ + 1)) by lia. lia. }
      change (pre ++ b :: os ++ post) with (pre ++ [b] ++ os ++ post).
      rewrite (assoc app pre [b]).
      rewrite (IH (pre ++ [b]) os post); [by rewrite <- (assoc app) | done | done | lia |].
      rewrite len_app, !len_cons, len_nil in *.
      pose proof (len_nonneg bs'). pose proof (Z.mod_pos_bound (len pre) page Hpage).
      rewrite <- Z.add_mod_idemp_l by lia.
      rewrite (Z.mod_small (_ + 1)) by lia. lia.
Qed.

Lemma length_program page : ∀ bytes p cs,
  length (program page p bytes cs).1 = length cs.
Proof.
  induction bytes as [| b bs IH]; intros p cs; [done |].
  simpl. by rewrite IH, length_insert.
Qed.

Lemma fetch_over (cs : list Z) : ∀ mid pre post p,
  cs = pre ++ mid ++ post → p = len pre →
  (fetch cs p (length mid)).1 = mid.
Proof.
  induction mid as [| m ms IH]; intros pre post p Hcs ->; [done |].
  simpl.
  destruct (fetch cs ((len pre + 1) mod len cs) (length ms)) as [bs q] eqn:Hrest.
  simpl. f_equal.
  - unfold peek, len. rewrite Nat2Z.id, Hcs.
    by rewrite lookup_app_r, Nat.sub_diag by lia.
  - destruct ms as [| m' ms']; [simpl in Hrest; by inversion Hrest |].
    specialize (IH (pre ++ [m]) post ((len pre + 1) mod len cs)).
    rewrite Hrest in IH. apply IH.
    + by rewrite <- (assoc app).
    + rewrite Hcs, !len_app, !len_cons, len_nil.
      pose proof (len_nonneg pre). pose proof (len_nonneg ms'). pose proof (len_nonneg post).
      rewrite Z.mod_small; lia.
Qed.

(** ** Worlds in sequence *)

Lemma later_refl w : later w w.
Proof.
  repeat split; try (by exists 0%nat); try done. exists []. by rewrite app_nil_r.
Qed.

Lemma later_trans w1 w2 w3 : later w1 w2 → later w2 w3 → later w1 w3.
Proof.
  intros (Hp & Hc & [m1 Hl] & [m2 Hh] & [m3 Hf] & [l Hlog])
         (Hp' & Hc' & [m1' Hl'] & [m2' Hh'] & [m3' Hf'] & [l' Hlog']).
  repeat split.
  - congruence.
  - congruence.
  - exists (m1 + m1')%nat. by rewrite Hl', Hl, drop_drop.
  - exists (m2 + m2')%nat. by rewrite Hh', Hh, drop_drop.
  - exists (m3 + m3')%nat. by rewrite Hf', Hf, drop_drop.
  - exists (l ++ l'). by rewrite Hlog', Hlog, (assoc app).
Qed.

Lemma Forall_true_drop (s : list bool) m :
  Forall (λ ok, ok = true) s → Forall (λ ok, ok = true) (drop m s).
Proof. apply Forall_drop. Qed.

Lemma later_reliable w w' : later w w' → reliable w → reliable w'.
Proof.
  intros (_ & _ & [m Hl] & _) Hrel. unfold reliable.
  rewrite Hl. by apply Forall_true_drop.
Qed.

Lemma later_provided w w' : later w w' → provided w → provided w'.
Proof.
  intros (_ & _ & _ & [m Hh] & [m' Hf] & _) [Hheap Hfs]. unfold provided.
  rewrite Hh, Hf. split; by apply Forall_true_drop.
Qed.

Lemma later_attached dev w w' : later w w' → attached dev w → attached dev w'.
Proof.
  intros (Hp & Hc & _) (Hi & Hps & Hpage & Hdiv & Htot & Hcap).
  unfold attached, len in *. rewrite Hp, Hc. done.
Qed.

Lemma pop_spec (s : list bool) ok rest :
  pop s = (ok, rest) →
  rest = drop 1 s ∧ (Forall (λ ok, ok = true) s → ok = true).
Proof.
  destruct s as [| b s']; simpl; intros [= <- <-]; split; try done.
  by inversion 1.
Qed.

Lemma later_emit e w : later w (emit e w).
Proof.
  repeat split; try (by exists 0%nat). by exists [e].
Qed.

Lemma later_set_link w rest ok : pop (link w) = (ok, rest) → later w (set_link rest w).
Proof.
  intros [-> _]%pop_spec.
  repeat split; try (by exists 0%nat); try (by exists 1%nat).
  exists []. simpl. by rewrite app_nil_r.
Qed.

Lemma later_set_heap w rest ok : pop (heap w) = (ok, rest) → later w (set_heap rest w).
Proof.
  intros [-> _]%pop_spec.
  repeat split; try (by exists 0%nat); try (by exists 1%nat).
  exists []. simpl. by rewrite app_nil_r.
Qed.

Lemma later_set_fs w rest ok : pop (fs w) = (ok, rest) → later w (set_fs rest w).
Proof.
  intros [-> _]%pop_spec.
  repeat split; try (by exists 0%nat); try (by exists 1%nat).
  exists []. simpl. by rewrite app_nil_r.
Qed.

Lemma later_set_junk w j : later w (set_junk j w).
Proof.
  repeat split; try (by exists 0%nat).
  exists []. simpl. by rewrite app_nil_r.
Qed.

Lemma never_set_run w :
  ∃ pad w1,
    never_set w = Ret pad w1
    ∧ later w w1 ∧ cells w1 = cells w ∧ log w1 = log w
    ∧ link w1 = link w ∧ heap w1 = heap w ∧ fs w1 = fs w
    ∧ is_u8 pad.
Proof.
  unfold never_set. destruct (junk w) as [| b rest].
  - exists 0, w. split_and!; try done; try apply later_refl.
  - exists (u8 b), (set_junk rest w).
    split_and!; try done; try apply later_set_junk.
    unfold u8. apply Z.mod_pos_bound. lia.
Qed.

Lemma later_chip_write buf w : later w (chip_write buf w).
Proof.
  unfold chip_write. destruct buf as [| hi [| lo data]]; try apply later_refl.
  destruct (program _ _ _ _) as [cs q] eqn:Hprog.
  repeat split; try (by exists 0%nat).
  - simpl. change cs with (cs, q).1. rewrite <- Hprog. apply length_program.
  - exists []. simpl. by rewrite app_nil_r.
Qed.

(** ** One transaction *)

Lemma chip_write_cells a chunk w :
  0 ≤ a → 0 < len chunk →
  a + len chunk ≤ len (cells w) → len (cells w) ≤ 65536 →
  0 < dev_page w → a mod dev_page w + len chunk ≤ dev_page w →
  cells (chip_write (addr_bytes a ++ chunk) w) = splice a chunk (cells w).
Proof.
  intros Ha Hchunk Hfit Hcap Hpage Hin. unfold chip_write, addr_bytes. simpl.
  rewrite addr_bytes_value by lia.
  rewrite Z.mod_small by lia.
  destruct (program _ _ _ _) as [cs q] eqn:Hprog. simpl.
  change cs with (cs, q).1. rewrite <- Hprog.
  destruct (range_split (cells w) (Z.to_nat a) (length chunk)) as (Hcs & Hpre & Hold);
    [unfold len in *; lia |].
  set (pre := take (Z.to_nat a) (cells w)) in *.
  set (old := take (length chunk) (drop (Z.to_nat a) (cells w))) in *.
  set (post := drop (Z.to_nat a + length chunk) (cells w)) in *.
  rewrite Hcs.
  rewrite program_over, splice_over; try done; unfold len in *; try lia.

Qed.

Lemma chip_write_address a w :
  0 ≤ a < len (cells w) →  len (cells w) ≤ 65536 →
  cells (chip_write (addr_bytes a) w) = cells w
  ∧ cursor (chip_write (addr_bytes a) w) = a.
Proof.
  intros Ha Hcap. unfold chip_write, addr_bytes. simpl.
  rewrite addr_bytes_value by lia. by rewrite Z.mod_small by lia.
Qed.

Lemma fetch_slice (cs : list Z) a n :
  0 ≤ a → 0 ≤ n → a + n ≤ len cs →
  (fetch cs a (Z.to_nat n)).1 = slice a n cs.
Proof.
  intros Ha Hn Hfit. unfold slice.
  destruct (range_split cs (Z.to_nat a) (Z.to_nat n)) as (Hcs & Hpre & Hmid);
    [unfold len in *; lia |].
  rewrite <- Hmid at 1.
  apply (fetch_over cs _ (take (Z.to_nat a) cs) (drop (Z.to_nat a + Z.to_nat n) cs)); [done |].
  unfold len. lia.
Qed.

(** ** Sending the chunks *)

Lemma chip_write_frame buf w :
  dev_page (chip_write buf w) = dev_page w
  ∧ link (chip_write buf w) = link w
  ∧ heap (chip_write buf w) = heap w
  ∧ fs (chip_write buf w) = fs w
  ∧ log (chip_write buf w) = log w.
Proof.
  unfold chip_write. destruct buf as [| hi [| lo data]]; try done.
  by destruct (program _ _ _ _).
Qed.

Lemma log_emit e w : log (emit e w) = log w ++ [e].
Proof. done. Qed.

Lemma log_set_link l w : log (set_link l w) = log w.
Proof. done. Qed.

Lemma cells_emit e w : cells (emit e w) = cells w.
Proof. done. Qed.

Lemma cells_set_link l w : cells (set_link l w) = cells w.
Proof. done. Qed.

Lemma sys_write_cases fd buf w :
  (∃ rest, pop (link w) = (true, rest)
     ∧ sys_write fd buf w
       = Ret (len buf) (emit (I2cWrite buf true) (set_link rest (chip_write buf w))))
  ∨ (∃ rest, pop (link w) = (false, rest)
     ∧ ¬ reliable w
     ∧ sys_write fd buf w = Ret (-1) (emit (I2cWrite buf false) (set_link rest w))).
Proof.
  unfold sys_write. destruct (pop (link w)) as [[] rest] eqn:Hpop.
  - left. by exists rest.
  - right. exists rest. split; [done |]. split; [| done].
    intros Hrel. apply pop_spec in Hpop as [_ Hok]. by specialize (Hok Hrel).
Qed.

Lemma later_sys_write_acked buf w rest :
  pop (link w) = (true, rest) →
  later w (emit (I2cWrite buf true) (set_link rest (chip_write buf w))).
Proof.
  intros Hpop.
  eapply later_trans; [apply (later_chip_write buf) |].
  eapply later_trans; [| apply later_emit].
  apply (later_set_link _ rest true).
  by rewrite (proj1 (proj2 (chip_write_frame buf w))).
Qed.

Lemma later_sys_write_failed buf w rest :
  pop (link w) = (false, rest) →
  later w (emit (I2cWrite buf false) (set_link rest w)).
Proof.
  intros Hpop. eapply later_trans; [| apply later_emit].
  by apply (later_set_link _ rest false).
Qed.

Lemma send_chunks_cons dev a d cs w :
  send_chunks dev ((a, d) :: cs) w =
  match sys_write (fd dev) (addr_bytes a ++ d) w with
  | Ret bytes_written w1 =>
      if negb (bytes_written =? len d + 2) then Ret AT24C256_ERROR_WRITE w1
      else send_chunks dev cs (emit (Usleep (write_delay_ms (config dev) * 1000)) w1)
  | Undefined => Undefined
  | Spin => Spin
  end.
Proof.
  simpl. unfold bind. destruct (sys_write _ _ w); try done.
  by destruct (negb _).
Qed.

Lemma send_chunks_run dev : ∀ cs w, ∃ r w',
  send_chunks dev cs w = Ret r w'
  ∧ (r = AT24C256_OK ∨ r = AT24C256_ERROR_WRITE)
  ∧ later w w'
  ∧ heap w' = heap w ∧ fs w' = fs w
  ∧ (reliable w → r = AT24C256_OK)
  ∧ (r = AT24C256_OK →
     log w' = log w ++ chunk_events (write_delay_ms (config dev)) cs)
  ∧ (r = AT24C256_ERROR_WRITE →
     ∃ j c, cs !! j = Some c
            ∧ log w' = log w
                       ++ chunk_events (write_delay_ms (config dev)) (take j cs)
                       ++ [I2cWrite (addr_bytes (fst c) ++ snd c) false]).
Proof.
  induction cs as [| [a d] cs IH]; intros w.
  - exists AT24C256_OK, w. simpl. rewrite app_nil_r.
    split_and!; auto using later_refl. done.
  - rewrite send_chunks_cons.
    destruct (sys_write_cases (fd dev) (addr_bytes a ++ d) w)
      as [(rest & Hpop & ->) | (rest & Hpop & Hbad & ->)].
    + assert ((len (addr_bytes a ++ d) =? len d + 2) = true) as ->.
      { apply Z.eqb_eq. rewrite len_app. unfold addr_bytes, len. simpl. lia. }
      simpl negb. cbv iota.
      set (w1 := emit (Usleep _) _).
      destruct (IH w1) as (r & w' & -> & Hr & Hlater & Hheap & Hfs & Hrel & Hlog & Hcut).
      exists r, w'. split; [done |]. split; [done |].
      assert (later w w1) as Hw1.
      { eapply later_trans; [by apply later_sys_write_acked | apply later_emit]. }
      split; [by eapply later_trans |].
      destruct (chip_write_frame (addr_bytes a ++ d) w) as (_ & _ & Fh & Ff & Flog).
      split; [by rewrite Hheap |].
      split; [by rewrite Hfs |].
      split; [intros Hw; apply Hrel; by eapply later_reliable |].
      split.
      { intros Hok. rewrite (Hlog Hok). subst w1.
        rewrite !log_emit, log_set_link, Flog. simpl.
        by rewrite <- !(assoc app). }
      intros Hko. destruct (Hcut Hko) as (j & c & Hc & Hlog').
      exists (S j), c. split; [done |]. rewrite Hlog'. subst w1.
      rewrite !log_emit, log_set_link, Flog. simpl.
      by rewrite <- !(assoc app).
    + exists AT24C256_ERROR_WRITE. eexists. 
      assert ((-1 =? len d + 2) = false) as ->.
      { apply Z.eqb_neq. pose proof (len_nonneg d). lia. }
      simpl. split; [done |]. split; [by right |].
      split; [by apply later_sys_write_failed |].
      split_and!; try done.
      intros _. exists 0%nat, (a, d). split; [done |].
      by rewrite log_emit, log_set_link.
Qed.

Lemma send_chunks_cells dev a d cs :
  chunking (page_size (config dev)) a d cs →
  ∀ w r w',
    0 < page_size (config dev) → 0 < dev_page w →
    (page_size (config dev) | dev_page w) →
    len (cells w) ≤ 65536 →
    0 ≤ a → a + len d ≤ len (cells w) →
    send_chunks dev cs w = Ret r w' →
    ∃ k, 0 ≤ k ≤ len d
         ∧ cells w' = splice a (take (Z.to_nat k) d) (cells w)
         ∧ (r = AT24C256_OK → k = len d).
Proof.
  induction 1 as [a | a d n cs Hlen Hn Hrest IH];
    intros w r w' Hps Hpage Hdiv Hcap Ha Hfit Hrun.
  - exists 0. simpl in Hrun. inversion Hrun; subst.
    by rewrite splice_nil.
  - destruct (chunk_size_bounds _ Hps a d Hlen) as [Hn1 Hn2]. rewrite <- Hn in Hn1, Hn2.
    rewrite send_chunks_cons in Hrun.
    destruct (sys_write_cases (fd dev) (addr_bytes a ++ take (Z.to_nat n) d) w)
      as [(rest & Hpop & Hw) | (rest & Hpop & Hbad & Hw)]; rewrite Hw in Hrun; clear Hw.
    + assert ((len (addr_bytes a ++ take (Z.to_nat n) d)
               =? len (take (Z.to_nat n) d) + 2) = true) as Hacc.
      { apply Z.eqb_eq. rewrite len_app. unfold addr_bytes, len. simpl. lia. }
      rewrite Hacc in Hrun. simpl negb in Hrun. cbv iota in Hrun.
      set (w1 := emit (Usleep _) _) in Hrun.
      assert (cells w1 = splice a (take (Z.to_nat n) d) (cells w)) as Hcells.
      { subst w1. rewrite !cells_emit, cells_set_link.
        apply chip_write_cells; rewrite ?len_take by lia; try lia.
        apply (fits_device_page (page_size (config dev))); try done; lia. }
      assert (later w w1) as Hw1.
      { eapply later_trans; [by apply later_sys_write_acked | apply later_emit]. }
      destruct Hw1 as (Hp1 & Hc1 & _).
      destruct (IH w1 r w') as (k & Hk & Hcells' & Hok); try done.
      * by rewrite Hp1.
      * by rewrite Hp1.
      * unfold len in *. rewrite Hc1. lia.
      * lia.
      * unfold len in Hfit |- *. rewrite Hc1. rewrite length_drop. unfold len in *. lia.
      * rewrite len_drop in Hk by lia.
        exists (n + k). split; [lia |]. split.
        -- rewrite Hcells', Hcells.
           rewrite <- (len_take d n) at 1 by lia.
           rewrite splice_splice.
           ++ rewrite take_take_drop. f_equal. f_equal. lia.
           ++ done.
           ++ rewrite len_take by lia. rewrite len_take.
              ** rewrite len_drop in * by lia. lia.
              ** rewrite len_drop by lia. lia.
        -- intros Hr. specialize (Hok Hr). rewrite len_drop in Hok by lia. lia.
    + assert ((-1 =? len (take (Z.to_nat n) d) + 2) = false) as Hrej.
      { apply Z.eqb_neq. pose proof (len_nonneg (take (Z.to_nat n) d)). lia. }
      rewrite Hrej in Hrun. simpl in Hrun. inversion Hrun; subst.
      exists 0. rewrite splice_nil. simpl. split_and!; try done; lia.
Qed.

(** ** [at24c256_write] and [at24c256_read] on an attached device *)

Lemma write_accepted dev a data w :
  initialized dev = true →
  0 < page_size (config dev) < 65536 →
  total_size (config dev) ≤ 65536 →
  valid_range dev a (len data) →
  ∃ cs, chunking (page_size (config dev)) a data cs
        ∧ at24c256_write (Some dev) a (Some data) (len data) w = send_chunks dev cs w.
Proof.
  intros Hflag Hps Htot (Ha & Hn & Hpos & Hfit).
  destruct (chunking_exists (page_size (config dev)) (proj1 Hps) data a) as [cs Hcs].
  exists cs. split; [done |].
  unfold at24c256_write.
  rewrite check_address_length_ok by done. simpl.
  apply write_loop_sends; try done; unfold is_u16, len in *; lia.
Qed.

(** What a write does on an attached device: it returns, with success or
    with the write error; the bytes it committed are a prefix of the
    data, laid over the array from the address on, all of it on success;
    nothing else in the array changes. *)
Lemma write_run dev a data w :
  attached dev w →
  valid_range dev a (len data) →
  ∃ r w' k,
    at24c256_write (Some dev) a (Some data) (len data) w = Ret r w'
    ∧ (r = AT24C256_OK ∨ r = AT24C256_ERROR_WRITE)
    ∧ later w w'
    ∧ heap w' = heap w ∧ fs w' = fs w
    ∧ 0 ≤ k ≤ len data
    ∧ cells w' = splice a (take (Z.to_nat k) data) (cells w)
    ∧ (r = AT24C256_OK → k = len data)
    ∧ (reliable w → r = AT24C256_OK).
Proof.
  intros (Hflag & Hps & Hpage & Hdiv & Htot & Hcap) Hrange.
  destruct (write_accepted dev a data w) as (cs & Hcs & ->); try done; [lia |].
  destruct Hrange as (Ha & Hn & Hpos & Hfit).
  destruct (send_chunks_run dev cs w) as (r & w' & Hrun & Hr & Hlater & Hheap & Hfs & Hrel & _).
  destruct (send_chunks_cells dev a data cs Hcs w r w') as (k & Hk & Hcells & Hok);
    try done; unfold is_u16 in *; try lia.
  exists r, w', k. done.
Qed.

Lemma sys_read_cases fd n w :
  (∃ rest bs q, pop (link w) = (true, rest)
     ∧ fetch (cells w) (cursor w) (Z.to_nat n) = (bs, q)
     ∧ sys_read fd n w
       = Ret (n, bs) (emit (I2cRead n true) (set_link rest (set_chip (cells w) q w))))
  ∨ (∃ rest, pop (link w) = (false, rest)
     ∧ ¬ reliable w
     ∧ sys_read fd n w = Ret (-1, []) (emit (I2cRead n false) (set_link rest w))).
Proof.
  unfold sys_read. destruct (pop (link w)) as [[] rest] eqn:Hpop.
  - left. destruct (fetch _ _ _) as [bs q]. by exists rest, bs, q.
  - right. exists rest. split; [done |]. split; [| done].
    intros Hrel. apply pop_spec in Hpop as [_ Hok]. by specialize (Hok Hrel).
Qed.

Lemma cursor_emit e w : cursor (emit e w) = cursor w.
Proof. done. Qed.

Lemma cursor_set_link l w : cursor (set_link l w) = cursor w.
Proof. done. Qed.

Lemma later_set_chip_cursor q w : later w (set_chip (cells w) q w).
Proof.
  split_and!; try done; try (by exists 0%nat). exists []. simpl. by rewrite app_nil_r.
Qed.

Lemma read_unfold dev a buf n w :
  check_address_length (Some dev) a n = AT24C256_OK →
  at24c256_read (Some dev) a (Some buf) n w =
  match sys_write (fd dev) (addr_bytes a) w with
  | Ret m w1 =>
      if negb (m =? 2) then Ret (AT24C256_ERROR_READ, Some buf) w1
      else
        match sys_read (fd dev) n w1 with
        | Ret got w2 =>
            if negb (fst got =? n) then Ret (AT24C256_ERROR_READ, Some buf) w2
            else if len buf <? n then Undefined
            else Ret (AT24C256_OK, Some (snd got ++ drop (Z.to_nat n) buf)) w2
        | Undefined => Undefined
        | Spin => Spin
        end
  | Undefined => Undefined
  | Spin => Spin
  end.
Proof.
  intros Hchk. unfold at24c256_read. rewrite Hchk.
  change (negb (err_eqb AT24C256_OK AT24C256_OK)) with false. cbv iota.
  unfold bind, addr_bytes. cbv beta.
  destruct (sys_write _ _ w) as [m w1 | |]; try reflexivity.
  destruct (negb (m =? 2)); [reflexivity |].
  destruct (sys_read _ _ w1) as [got w2 | |]; try reflexivity.
  destruct (negb (fst got =? n)); [reflexivity |].
  destruct (len buf <? n); reflexivity.
Qed.

(** What a read does on an attached device: it returns, with success or
    with the read error; on success the buffer begins with the bytes of
    the range; the array does not change. *)
Lemma read_run dev a n buf w :
  attached dev w →
  valid_range dev a n →
  n ≤ len buf →
  ∃ r b w',
    at24c256_read (Some dev) a (Some buf) n w = Ret (r, b) w'
    ∧ later w w'
    ∧ heap w' = heap w ∧ fs w' = fs w
    ∧ cells w' = cells w
    ∧ (r = AT24C256_OK ∧ b = Some (slice a n (cells w) ++ drop (Z.to_nat n) buf)
       ∨ r = AT24C256_ERROR_READ ∧ b = Some buf)
    ∧ (reliable w → r = AT24C256_OK).
Proof.
  intros (Hflag & Hps & Hpage & Hdiv & Htot & Hcap) (Ha & Hn & Hpos & Hfit) Hbuf.
  rewrite read_unfold by (by apply check_address_length_ok).
  destruct (sys_write_cases (fd dev) (addr_bytes a) w)
    as [(rest & Hpop & ->) | (rest & Hpop & Hbad & ->)].
  - change (len (addr_bytes a) =? 2) with true. simpl negb. cbv iota.
    set (w1 := emit _ _).
    assert (later w w1) as Hw1 by (by apply later_sys_write_acked).
    destruct (chip_write_address a w) as [Hcells Hcursor]; [unfold is_u16 in *; lia | done |].
    destruct (chip_write_frame (addr_bytes a) w) as (_ & _ & Fh & Ff & _).
    destruct (sys_read_cases (fd dev) n w1)
      as [(rest' & bs & q & Hpop' & Hfetch & ->) | (rest' & Hpop' & Hbad & ->)].
    + simpl fst. rewrite Z.eqb_refl. simpl negb. cbv iota.
      destruct (Z.ltb_spec (len buf) n); [lia |].
      eexists _, _, _. split; [reflexivity |].
      split.
      { eapply later_trans; [exact Hw1 |].
        eapply later_trans; [apply (later_set_chip_cursor q) |].
        eapply later_trans; [| apply later_emit].
        by apply (later_set_link _ rest' true). }
      split; [done |]. split; [done |]. split; [done |].
      split; [| done].
      left. split; [done |]. simpl snd. do 2 f_equal.
      change bs with (bs, q).1. rewrite <- Hfetch.
      subst w1. rewrite !cells_emit, !cells_set_link, cursor_emit, cursor_set_link.
      rewrite Hcells, Hcursor.
      apply fetch_slice; unfold is_u16 in *; lia.
    + simpl fst.
      assert ((-1 =? n) = false) as -> by (apply Z.eqb_neq; lia).
      eexists _, _, _. split; [reflexivity |].
      split.
      { eapply later_trans; [exact Hw1 |]. by apply later_sys_write_failed || 
          (eapply later_trans; [| apply later_emit]; by apply (later_set_link _ rest' false)). }
      split; [done |]. split; [done |]. split; [done |].
      split; [by right |].
      intros Hrel. exfalso. apply Hbad. by eapply later_reliable.
  - change (-1 =? 2) with false. simpl negb. cbv iota.
    eexists _, _, _. split; [reflexivity |].
    split; [by apply later_sys_write_failed |].
    split; [done |]. split; [done |]. split; [done |].
    split; [by right |]. done.
Qed.

(** ** Separate writes *)

Lemma write_pieces_run dev : ∀ pieces a w,
  attached dev w →
  Forall (λ p, p ≠ []) pieces →
  0 ≤ a → len (concat pieces) < 65536 →
  a + len (concat pieces) ≤ total_size (config dev) →
  ∃ r w',
    write_pieces (Some dev) a pieces w = Ret r w'
    ∧ later w w'
    ∧ (r = AT24C256_OK → cells w' = splice a (concat pieces) (cells w))
    ∧ (reliable w → r = AT24C256_OK).
Proof.
  induction pieces as [| p pieces IH]; intros a w Hdev Hne Ha Hn Hfit.
  - exists AT24C256_OK, w. simpl. rewrite splice_nil. split_and!; auto using later_refl.
  - apply Forall_cons in Hne as [Hp Hne].
    simpl concat in *. rewrite len_app in *.
    assert (0 < len p) as Hlenp.
    { destruct p; [done |]. rewrite len_cons. pose proof (len_nonneg p). lia. }
    pose proof (len_nonneg (concat pieces)) as Hrest.
    pose proof Hdev as (_ & _ & _ & _ & Htot & Hcap).
    destruct (write_run dev a p w Hdev)
      as (r & w1 & k & Hrun & Hr & Hlater & _ & _ & Hk & Hcells & Hall & Hrel).
    { unfold valid_range, is_u16. lia. }
    simpl write_pieces. unfold bind. rewrite Hrun.
    destruct Hr as [-> | ->].
    + change (negb (err_eqb AT24C256_OK AT24C256_OK)) with false. cbv iota.
      pose proof (later_attached dev w w1 Hlater Hdev) as Hdev1.
      destruct (IH (a + len p) w1 Hdev1 Hne) as (r' & w' & -> & Hlater' & Hcells' & Hrel');
        try lia.
      exists r', w'. split; [done |].
      split; [by eapply later_trans |].
      split.
      * intros Hok. rewrite (Hcells' Hok), Hcells, (Hall eq_refl).
        rewrite take_ge by (unfold len; lia).
        apply splice_splice; lia.
      * intros Hw. apply Hrel'. by eapply later_reliable.
    + change (negb (err_eqb AT24C256_ERROR_WRITE AT24C256_OK)) with true. cbv iota.
      exists AT24C256_ERROR_WRITE, w1. split; [done |]. split; [done |].
      split; [done |]. done.
Qed.

(** Reading back what a successful write left. *)
Lemma read_back
    (dev : at24c256_dev_s) (address : Z) (data buf : list Z) (w w1 : world) :
  attached dev w →
  valid_range dev address (len data) →
  len data ≤ len buf →
  at24c256_write (Some dev) address (Some data) (len data) w
    = Ret AT24C256_OK w1 →
  ∃ r b w2,
    at24c256_read (Some dev) address (Some buf) (len data) w1 = Ret (r, b) w2
    ∧ (r = AT24C256_OK ∧ b = Some (data ++ drop (length data) buf)
       ∨ r = AT24C256_ERROR_READ ∧ b = Some buf)
    ∧ (reliable w1 → r = AT24C256_OK).
Proof.
  intros Hdev Hrange Hbuf Hwrite.
  destruct (write_run dev address data w Hdev Hrange)
    as (r0 & w1' & k & Hrun & _ & Hlater & _ & _ & Hk & Hcells & Hall & _).
  rewrite Hwrite in Hrun. inversion Hrun; subst r0 w1'. clear Hrun.
  rewrite (Hall eq_refl) in Hcells.
  rewrite take_ge in Hcells by (unfold len; lia).
  pose proof (later_attached dev w w1 Hlater Hdev) as Hdev1.
  destruct (read_run dev address (len data) buf w1 Hdev1 Hrange Hbuf)
    as (r & b & w2 & Hread & _ & _ & _ & _ & Hres & Hrel).
  exists r, b, w2. split; [done |]. split; [| done].
  destruct Hres as [[-> ->] | [-> ->]]; [left | by right].
  split; [done |]. do 2 f_equal.
  - rewrite Hcells. apply slice_splice.
    + destruct Hrange as ([? ?] & _). done.
    + destruct Hdev as (_ & _ & _ & _ & Htot & _).
      destruct Hrange as (_ & _ & _ & Hfit). lia.
  - unfold len. by rewrite Nat2Z.id.
Qed.


(** ** The driver's contract *)

(** C1: for every initialized handle (attached to the device its
    configuration describes) and every valid range, [address + length <=
    total_size] with [length > 0], a successful [at24c256_write] of a
    byte sequence followed by [at24c256_read] over the same range
    returns exactly the bytes that were written: the read returns, and
    when it succeeds the buffer holds the written bytes (followed by
    what the buffer held beyond [length]); it can only fail with the
    read error of a failed transfer, and does not when the link is
    reliable. *)
Theorem write_then_read_returns_written
    (dev : at24c256_dev_s) (address : Z) (data buf : list Z) (w w1 : world) :
  attached dev w →
  valid_range dev address (len data) →
  len data ≤ len buf →
  at24c256_write (Some dev) address (Some data) (len data) w
    = Ret AT24C256_OK w1 →
  ∃ r b w2,
    at24c256_read (Some dev) address (Some buf) (len data) w1 = Ret (r, b) w2
    ∧ (r = AT24C256_OK ∧ b = Some (data ++ drop (length data) buf)
       ∨ r = AT24C256_ERROR_READ ∧ b = Some buf)
    ∧ (reliable w1 → r = AT24C256_OK).
Proof. apply read_back. Qed.

Lemma bench_attached : attached bench_dev bench_world.
Proof.
  unfold attached. simpl. split_and!; try reflexivity; try lia.
  vm_compute. discriminate.
Defined.

Lemma write_then_read_returns_written_witness :
  ∃ r b w2,
    at24c256_read (Some bench_dev) 60 (Some (replicate 16 0))
      (len [1; 2; 3; 4; 5; 6; 7; 8; 9; 10; 11; 12; 13; 14; 15; 16])
      (after (at24c256_write (Some bench_dev) 60
                (Some [1; 2; 3; 4; 5; 6; 7; 8; 9; 10; 11; 12; 13; 14; 15; 16]) 16
                bench_world) bench_world)
    = Ret (r, b) w2
    ∧ (r = AT24C256_OK
       ∧ b = Some ([1; 2; 3; 4; 5; 6; 7; 8; 9; 10; 11; 12; 13; 14; 15; 16]
                   ++ drop (length [1; 2; 3; 4; 5; 6; 7; 8; 9; 10; 11; 12; 13; 14; 15; 16])
                        (replicate 16 0))
       ∨ r = AT24C256_ERROR_READ ∧ b = Some (replicate 16 0))
    ∧ (reliable
         (after (at24c256_write (Some bench_dev) 60
                   (Some [1; 2; 3; 4; 5; 6; 7; 8; 9; 10; 11; 12; 13; 14; 15; 16]) 16
                   bench_world) bench_world)
       → r = AT24C256_OK).
Proof.
  apply (write_then_read_returns_written bench_dev 60
           [1; 2; 3; 4; 5; 6; 7; 8; 9; 10; 11; 12; 13; 14; 15; 16]
           (replicate 16 0) bench_world).
  - exact bench_attached.
  - unfold valid_range, is_u16. vm_compute. split_and!; try reflexivity; discriminate.
  - vm_compute. discriminate.
  - vm_compute. reflexivity.
Defined.

(** C2: for every initialized handle, every data buffer and every valid
    range, whether or not it spans page boundaries, a single
    [at24c256_write] leaves the device bytes identical to those left by
    the same data issued as a sequence of separate writes, one piece
    after the other, in particular as pieces that each stay within one
    page: whenever both ways succeed the arrays are equal, and on a
    reliable link both succeed. *)
Theorem split_writes_leave_same_bytes
    (dev : at24c256_dev_s) (address : Z) (pieces : list (list Z)) (w : world) :
  attached dev w →
  Forall (λ p, p ≠ []) pieces →
  valid_range dev address (len (concat pieces)) →
  (∀ w1 w2,
     at24c256_write (Some dev) address (Some (concat pieces))
       (len (concat pieces)) w = Ret AT24C256_OK w1 →
     write_pieces (Some dev) address pieces w = Ret AT24C256_OK w2 →
     cells w1 = cells w2)
  ∧ (reliable w →
     ∃ w1 w2,
       at24c256_write (Some dev) address (Some (concat pieces))
         (len (concat pieces)) w = Ret AT24C256_OK w1
       ∧ write_pieces (Some dev) address pieces w = Ret AT24C256_OK w2
       ∧ cells w1 = cells w2).
Proof.
  intros Hdev Hne Hrange.
  destruct (write_run dev address (concat pieces) w Hdev Hrange)
    as (r1 & w1 & k & Hrun1 & _ & _ & _ & _ & Hk & Hcells1 & Hall1 & Hrel1).
  destruct Hrange as ([Ha _] & [_ Hn] & Hpos & Hfit).
  destruct (write_pieces_run dev pieces address w) as (r2 & w2 & Hrun2 & _ & Hcells2 & Hrel2);
    try done.
  assert (r1 = AT24C256_OK → r2 = AT24C256_OK → cells w1 = cells w2) as Heq.
  { intros H1 H2. rewrite Hcells1, (Hcells2 H2), (Hall1 H1).
    by rewrite take_ge by (unfold len; lia). }
  split.
  - intros w1' w2' H1 H2. rewrite Hrun1 in H1. rewrite Hrun2 in H2.
    inversion H1; inversion H2; subst. by apply Heq.
  - intros Hrel. exists w1, w2.
    rewrite Hrun1, Hrun2, (Hrel1 Hrel), (Hrel2 Hrel). split_and!; try done.
    apply Heq; auto.
Qed.
(** Every chunk lies within the range of the write. *)
Lemma chunking_extent page a d cs :
  0 < page →
  chunking page a d cs →
  Forall (λ c, 0 < len (snd c)
               ∧ fst c mod page + len (snd c) ≤ page
               ∧ a ≤ fst c
               ∧ fst c + len (snd c) ≤ a + len d) cs.
Proof.
  intros Hpage. induction 1 as [| a d n cs Hlen Hn Hrest IH]; constructor.
  - destruct (chunk_size_bounds page Hpage a d Hlen). simpl.
    rewrite len_take by lia. lia.
  - destruct (chunk_size_bounds page Hpage a d Hlen).
    eapply Forall_impl; [exact IH |]. simpl.
    rewrite len_drop by lia. intros. lia.
Qed.


Lemma split_writes_leave_same_bytes_witness :
  (∀ w1 w2,
     at24c256_write (Some bench_dev) 60
       (Some (concat [[1; 2; 3; 4]; [5; 6; 7; 8; 9; 10; 11; 12; 13; 14; 15; 16]]))
       (len (concat [[1; 2; 3; 4]; [5; 6; 7; 8; 9; 10; 11; 12; 13; 14; 15; 16]]))
       bench_world = Ret AT24C256_OK w1 →
     write_pieces (Some bench_dev) 60
       [[1; 2; 3; 4]; [5; 6; 7; 8; 9; 10; 11; 12; 13; 14; 15; 16]] bench_world
     = Ret AT24C256_OK w2 →
     cells w1 = cells w2)
  ∧ (reliable bench_world →
     ∃ w1 w2,
       at24c256_write (Some bench_dev) 60
         (Some (concat [[1; 2; 3; 4]; [5; 6; 7; 8; 9; 10; 11; 12; 13; 14; 15; 16]]))
         (len (concat [[1; 2; 3; 4]; [5; 6; 7; 8; 9; 10; 11; 12; 13; 14; 15; 16]]))
         bench_world = Ret AT24C256_OK w1
       ∧ write_pieces (Some bench_dev) 60
           [[1; 2; 3; 4]; [5; 6; 7; 8; 9; 10; 11; 12; 13; 14; 15; 16]] bench_world
         = Ret AT24C256_OK w2
       ∧ cells w1 = cells w2).
Proof.
  apply (split_writes_leave_same_bytes bench_dev 60
           [[1; 2; 3; 4]; [5; 6; 7; 8; 9; 10; 11; 12; 13; 14; 15; 16]] bench_world).
  - exact bench_attached.
  - repeat constructor; discriminate.
  - unfold valid_range, is_u16. vm_compute. split_and!; try reflexivity; discriminate.
Defined.

(** C3: for every call to [at24c256_write] with a valid range (on a
    handle whose page size is positive and whose capacity lies in the
    16-bit address space), the sequence of chunks it transmits is
    determined by the rule that each chunk's size is
    [min(remaining, page_size - (current_address mod page_size))]: the
    log grows by exactly these chunks, each a transaction followed by
    its settle delay and so complete before the next begins, up to the
    first transfer that fails, all of them on a reliable link. No chunk
    is empty, none extends past the end of the page containing its start
    address, none is longer than the remaining bytes; every chunk starts
    where the previous one ended, so the start addresses increase
    strictly and the chunks cover the range without gap or overlap, and
    put together they are the data. *)
Theorem write_sends_page_bounded_chunks
    (dev : at24c256_dev_s) (address : Z) (data : list Z) (w : world) :
  initialized dev = true →
  0 < page_size (config dev) < 65536 →
  total_size (config dev) ≤ 65536 →
  valid_range dev address (len data) →
  ∃ cs r w',
    at24c256_write (Some dev) address (Some data) (len data) w = Ret r w'
    ∧ chunking (page_size (config dev)) address data cs
    ∧ (∀ cs', chunking (page_size (config dev)) address data cs' → cs' = cs)
    ∧ (r = AT24C256_OK
         ∧ log w' = log w ++ chunk_events (write_delay_ms (config dev)) cs
       ∨ r = AT24C256_ERROR_WRITE
         ∧ ∃ j c, cs !! j = Some c
             ∧ log w' = log w
                 ++ chunk_events (write_delay_ms (config dev)) (take j cs)
                 ++ [I2cWrite (addr_bytes (fst c) ++ snd c) false])
    ∧ (reliable w → r = AT24C256_OK)
    ∧ Forall (λ c, 0 < len (snd c)
                   ∧ fst c mod page_size (config dev) + len (snd c)
                     ≤ page_size (config dev)
                   ∧ address ≤ fst c
                   ∧ fst c + len (snd c) ≤ address + len data) cs
    ∧ contiguous address cs
    ∧ StronglySorted Z.lt (map fst cs)
    ∧ concat (map snd cs) = data.
Proof.
  intros Hflag Hps Htot Hrange.
  destruct (write_accepted dev address data w) as (cs & Hcs & Hsend); try done.
  destruct (send_chunks_run dev cs w)
    as (r & w' & Hrun & Hr & _ & _ & _ & Hrel & Hlog & Hcut).
  exists cs, r, w'. rewrite Hsend.
  split; [done |]. split; [done |].
  split; [intros cs' Hcs'; by eapply chunking_unique |].
  split; [destruct Hr as [-> | ->]; [left | right]; auto |].
  split; [done |].
  split; [by apply chunking_extent; [apply Hps |] |].
  split; [eapply chunking_contiguous; [apply Hps | exact Hcs] |].
  split; [eapply chunking_increasing; [apply Hps | exact Hcs] |].
  eapply chunking_concat. exact Hcs.
Qed.

Lemma write_sends_page_bounded_chunks_witness :
  ∃ cs r w',
    at24c256_write (Some bench_dev) 60
      (Some [1; 2; 3; 4; 5; 6; 7; 8; 9; 10; 11; 12; 13; 14; 15; 16])
      (len [1; 2; 3; 4; 5; 6; 7; 8; 9; 10; 11; 12; 13; 14; 15; 16]) bench_world
    = Ret r w'
    ∧ chunking (page_size (config bench_dev)) 60
        [1; 2; 3; 4; 5; 6; 7; 8; 9; 10; 11; 12; 13; 14; 15; 16] cs
    ∧ (∀ cs', chunking (page_size (config bench_dev)) 60
                [1; 2; 3; 4; 5; 6; 7; 8; 9; 10; 11; 12; 13; 14; 15; 16] cs' →
              cs' = cs)
    ∧ (r = AT24C256_OK
         ∧ log w' = log bench_world
                    ++ chunk_events (write_delay_ms (config bench_dev)) cs
       ∨ r = AT24C256_ERROR_WRITE
         ∧ ∃ j c, cs !! j = Some c
             ∧ log w' = log bench_world
                 ++ chunk_events (write_delay_ms (config bench_dev)) (take j cs)
                 ++ [I2cWrite (addr_bytes (fst c) ++ snd c) false])
    ∧ (reliable bench_world → r = AT24C256_OK)
    ∧ Forall (λ c, 0 < len (snd c)
                   ∧ fst c mod page_size (config bench_dev) + len (snd c)
                     ≤ page_size (config bench_dev)
                   ∧ 60 ≤ fst c
                   ∧ fst c + len (snd c)
                     ≤ 60 + len [1; 2; 3; 4; 5; 6; 7; 8; 9; 10; 11; 12; 13; 14; 15; 16]) cs
    ∧ contiguous 60 cs
    ∧ StronglySorted Z.lt (map fst cs)
    ∧ concat (map snd cs) = [1; 2; 3; 4; 5; 6; 7; 8; 9; 10; 11; 12; 13; 14; 15; 16].
Proof.
  apply (write_sends_page_bounded_chunks bench_dev 60
           [1; 2; 3; 4; 5; 6; 7; 8; 9; 10; 11; 12; 13; 14; 15; 16] bench_world).
  - reflexivity.
  - simpl. lia.
  - simpl. lia.
  - unfold valid_range, is_u16. vm_compute. split_and!; try reflexivity; discriminate.
Defined.

Lemma erase_unfold dev a n w :
  check_address_length (Some dev) a n = AT24C256_OK →
  at24c256_erase (Some dev) a n w =
  match pop (heap w) with
  | (true, rest) =>
      at24c256_write (Some dev) a (Some (replicate (Z.to_nat n) 255)) n
        (set_heap rest w)
  | (false, rest) => Ret AT24C256_ERROR_MEMORY (set_heap rest w)
  end.
Proof.
  intros Hchk. unfold at24c256_erase. rewrite Hchk.
  change (negb (err_eqb AT24C256_OK AT24C256_OK)) with false. cbv iota.
  unfold bind, sys_malloc. by destruct (pop (heap w)) as [[] rest].
Qed.

(** C9: for every initialized handle and valid range,
    [at24c256_erase (handle, address, length)] is
    [at24c256_write (handle, address, buf, length)] with [buf] made of
    [length] bytes 0xFF, run once the buffer was allocated (and the
    memory error when it was not). On a reliable link, with the buffer
    granted, the erase succeeds and lays 0xFF over the range, whatever
    the range held, and a read over the same range then returns a
    buffer of all 0xFF bytes (followed by what the buffer held beyond
    [length]). Whatever the link, an erase that reports success has set
    the range to 0xFF, and the read after it returns all 0xFF bytes
    unless it fails with the read error. *)
Theorem erase_is_write_of_all_ones
    (dev : at24c256_dev_s) (address length : Z) (buf : list Z) (w : world) :
  attached dev w →
  valid_range dev address length →
  length ≤ len buf →
  (∀ rest, pop (heap w) = (true, rest) →
     at24c256_erase (Some dev) address length w
     = at24c256_write (Some dev) address
         (Some (replicate (Z.to_nat length) 255)) length (set_heap rest w))
  ∧ (∀ rest, pop (heap w) = (false, rest) →
     at24c256_erase (Some dev) address length w
     = Ret AT24C256_ERROR_MEMORY (set_heap rest w))
  ∧ (reliable w → (pop (heap w)).1 = true →
     ∃ w1 w2,
       at24c256_erase (Some dev) address length w = Ret AT24C256_OK w1
       ∧ cells w1 = splice address (replicate (Z.to_nat length) 255) (cells w)
       ∧ at24c256_read (Some dev) address (Some buf) length w1
         = Ret (AT24C256_OK,
                Some (replicate (Z.to_nat length) 255 ++ drop (Z.to_nat length) buf))
               w2)
  ∧ (∀ w1,
     at24c256_erase (Some dev) address length w = Ret AT24C256_OK w1 →
     cells w1 = splice address (replicate (Z.to_nat length) 255) (cells w)
     ∧ ∃ r b w2,
         at24c256_read (Some dev) address (Some buf) length w1 = Ret (r, b) w2
         ∧ (r = AT24C256_OK
              ∧ b = Some (replicate (Z.to_nat length) 255
                          ++ drop (Z.to_nat length) buf)
            ∨ r = AT24C256_ERROR_READ)
         ∧ (reliable w1 → r = AT24C256_OK)).
Proof.
  intros Hdev Hrange Hbuf.
  pose proof Hdev as (Hflag & _).
  pose proof Hrange as (Ha & Hn & Hpos & Hfit).
  assert (check_address_length (Some dev) address length = AT24C256_OK) as Hchk
    by (by apply check_address_length_ok).
  set (ones := replicate (Z.to_nat length) 255) in *.
  assert (len ones = length) as Hones by (apply len_replicate; lia).
  assert (∀ w1,
     at24c256_erase (Some dev) address length w = Ret AT24C256_OK w1 →
     cells w1 = splice address ones (cells w)
     ∧ ∃ r b w2,
         at24c256_read (Some dev) address (Some buf) length w1 = Ret (r, b) w2
         ∧ (r = AT24C256_OK ∧ b = Some (ones ++ drop (Z.to_nat length) buf)
            ∨ r = AT24C256_ERROR_READ)
         ∧ (reliable w1 → r = AT24C256_OK)) as Hdone.
  { intros w1 Herase. rewrite erase_unfold in Herase by done.
    destruct (pop (heap w)) as [[] rest] eqn:Hpop; [| discriminate].
    fold ones in Herase. rewrite <- Hones in Herase.
    assert (attached dev (set_heap rest w)) as Hdev'.
    { eapply later_attached; [| exact Hdev]. by eapply later_set_heap. }
    split.
    - destruct (write_run dev address ones (set_heap rest w) Hdev')
        as (r0 & w1' & k & Hrun & _ & _ & _ & _ & Hk & Hcells & Hall & _);
        [by rewrite Hones |].
      rewrite Herase in Hrun. inversion Hrun; subst r0 w1'.
      rewrite (Hall eq_refl) in Hcells.
      rewrite take_ge in Hcells by (unfold len; lia). exact Hcells.
    - destruct (read_back dev address ones buf (set_heap rest w) w1)
        as (r & b & w2 & Hread & Hres & Hrel); try done; try (rewrite Hones; done).
      rewrite Hones in Hread.
      exists r, b, w2. split; [done |]. split; [| done].
      destruct Hres as [[-> ->] | [-> _]]; [left | by right].
      split; [done |]. do 3 f_equal. unfold len in Hones. lia. }
  split; [intros rest Hpop; by rewrite erase_unfold, Hpop |].
  split; [intros rest Hpop; by rewrite erase_unfold, Hpop |].
  split; [| exact Hdone].
  intros Hrel Hgot.
  destruct (pop (heap w)) as [ok rest] eqn:Hpop. simpl in Hgot. subst ok.
  assert (later w (set_heap rest w)) as L0 by (by eapply later_set_heap).
  destruct (write_run dev address ones (set_heap rest w))
    as (r0 & w1 & k & Hrun & _ & L1 & _ & _ & _ & _ & _ & Hok);
    [by eapply later_attached | by rewrite Hones |].
  rewrite (Hok (later_reliable _ _ L0 Hrel)) in Hrun. rewrite Hones in Hrun.
  assert (at24c256_erase (Some dev) address length w = Ret AT24C256_OK w1) as Herase.
  { rewrite erase_unfold by done. rewrite Hpop. exact Hrun. }
  destruct (Hdone w1 Herase) as (Hcells & r & b & w2 & Hread & Hres & Hsure).
  assert (reliable w1) as Hrel1.
  { eapply later_reliable; [exact (later_trans _ _ _ L0 L1) | done]. }
  specialize (Hsure Hrel1). subst r.
  destruct Hres as [[_ ->] | ?]; [| done].
  by exists w1, w2.
Qed.

(** The range 100 to 139 of the small part holds the bytes 1 to 5 and
    spans a page boundary; the erase clears it, and without memory it
    does nothing. *)
Lemma erase_is_write_of_all_ones_witness :
  slice 100 5 (cells bench_stored) = [1; 2; 3; 4; 5]
  ∧ (∃ w1 w2,
       at24c256_erase (Some bench_dev) 100 40 bench_stored = Ret AT24C256_OK w1
       ∧ cells w1 = splice 100 (replicate (Z.to_nat 40) 255) (cells bench_stored)
       ∧ at24c256_read (Some bench_dev) 100 (Some (replicate 40 0)) 40 w1
         = Ret (AT24C256_OK,
                Some (replicate (Z.to_nat 40) 255
                      ++ drop (Z.to_nat 40) (replicate 40 0)))
               w2)
  ∧ at24c256_erase (Some bench_dev) 100 40 (set_heap [false] bench_stored)
    = Ret AT24C256_ERROR_MEMORY (set_heap [] (set_heap [false] bench_stored)).
Proof.
  assert (valid_range bench_dev 100 40) as Hrange.
  { unfold valid_range, is_u16. vm_compute. split_and!; try reflexivity; discriminate. }
  split; [vm_compute; reflexivity |]. split.
  - destruct (erase_is_write_of_all_ones bench_dev 100 40 (replicate 40 0) bench_stored)
      as (_ & _ & Hclean & _).
    + unfold attached. simpl. split_and!; try reflexivity; try lia.
      vm_compute. discriminate.
    + exact Hrange.
    + vm_compute. discriminate.
    + apply Hclean; [apply Forall_nil_2 | reflexivity].
  - destruct (erase_is_write_of_all_ones bench_dev 100 40 (replicate 40 0)
                (set_heap [false] bench_stored)) as (_ & Hnone & _).
    + unfold attached. simpl. split_and!; try reflexivity; try lia.
      vm_compute. discriminate.
    + exact Hrange.
    + vm_compute. discriminate.
    + apply Hnone. reflexivity.
Defined.

(** ** The checksum *)









(** ** Slices of the array *)



(** ** Running computations *)

Lemma bind_run {A B} (m : M A) (k : A → M B) w a w1 :
  m w = Ret a w1 → bind m k w = k a w1.
Proof. intros H. unfold bind. by rewrite H. Qed.

Lemma sys_malloc_run n w :
  ∃ ok w1, sys_malloc n w = Ret ok w1
           ∧ later w w1 ∧ cells w1 = cells w ∧ log w1 = log w
           ∧ link w1 = link w
           ∧ (provided w → ok = true).
Proof.
  unfold sys_malloc. destruct (pop (heap w)) as [ok rest] eqn:Hpop.
  exists ok, (set_heap rest w).
  split_and!; try done; [by eapply later_set_heap |].
  intros [Hheap _]. by apply (pop_spec _ _ _ Hpop).
Qed.

Lemma sys_fopen_run w :
  ∃ ok w1, sys_fopen w = Ret ok w1
           ∧ later w w1 ∧ cells w1 = cells w ∧ log w1 = log w
           ∧ link w1 = link w
           ∧ (provided w → ok = true).
Proof.
  unfold sys_fopen. destruct (pop (fs w)) as [ok rest] eqn:Hpop.
  exists ok, (set_fs rest w).
  split_and!; try done; [by eapply later_set_fs |].
  intros [_ Hfs]. by apply (pop_spec _ _ _ Hpop).
Qed.

Lemma sys_fread_fwrite_run w :
  ∃ ok w1, sys_fread_fwrite w = Ret ok w1
           ∧ later w w1 ∧ cells w1 = cells w ∧ log w1 = log w
           ∧ link w1 = link w
           ∧ (provided w → ok = true).
Proof. apply sys_fopen_run. Qed.

(** ** Restoring the files *)

Lemma restore_one dev g (out : string) w :
  attached dev w → reliable w → provided w →
  valid_range dev (address g) (size g) →
  ∃ w',
    read_file_from_eeprom (Some dev) g out w = Ret (verdict (cells w) g) w'
    ∧ later w w'
    ∧ cells w' = cells w
    ∧ (verdict (cells w) g = Restored →
       FileSaved (join_path out (filename g))
         (slice (address g) (size g) (cells w)) ∈ log w').
Proof.
  intros Hdev Hrel Hprov Hrange.
  pose proof Hrange as (_ & [Hn0 _] & _).
  unfold read_file_from_eeprom.
  destruct (sys_malloc_run (size g) w) as (ok & w1 & Hm & L1 & C1 & _ & K1 & Hok).
  rewrite (bind_run _ _ _ _ _ Hm), (Hok Hprov). cbn [negb].
  assert (attached dev w1) as Hdev1 by (by eapply later_attached).
  assert (reliable w1) as Hrel1 by (by eapply later_reliable).
  assert (provided w1) as Hprov1 by (by eapply later_provided).
  destruct (read_run dev (address g) (size g) (replicate (Z.to_nat (size g)) 0) w1)
    as (r & b & w2 & Hread & L2 & _ & _ & C2 & Hres & Hrok); try done.
  { rewrite len_replicate by lia. lia. }
  rewrite (bind_run _ _ _ _ _ Hread). cbn [fst snd].
  specialize (Hrok Hrel1). subst r.
  destruct Hres as [[_ ->] | [? _]]; [| done].
  change (negb (err_eqb AT24C256_OK AT24C256_OK)) with false. cbv iota.
  rewrite drop_replicate, Nat.sub_diag, app_nil_r. simpl default.
  rewrite C1. unfold verdict.
  destruct (calculate_checksum _ 0 =? checksum g) eqn:Hsum; cbn [negb].
  - assert (provided w2) as Hprov2 by (by eapply later_provided).
    destruct (sys_fopen_run w2) as (ok1 & w3 & Ho & L3 & C3 & G3 & _ & Hok1).
    rewrite (bind_run _ _ _ _ _ Ho), (Hok1 Hprov2). cbn [negb].
    assert (provided w3) as Hprov3 by (by eapply later_provided).
    destruct (sys_fread_fwrite_run w3) as (ok2 & w4 & Hw & L4 & C4 & G4 & _ & Hok2).
    rewrite (bind_run _ _ _ _ _ Hw), (Hok2 Hprov3). cbn [negb].
    eexists. split; [reflexivity |].
    split.
    { do 4 (eapply later_trans; [eassumption |]). apply later_emit. }
    split; [rewrite cells_emit; congruence |].
    intros _. rewrite log_emit. apply elem_of_app. right. by apply list_elem_of_singleton.
  - eexists. split; [reflexivity |].
    split; [by eapply later_trans |].
    split; [congruence |]. done.
Qed.

Lemma restore_loop_run dev (out : string) : ∀ files n w,
  attached dev w → reliable w → provided w →
  Forall (λ g, valid_range dev (address g) (size g)) files →
  ∃ w',
    restore_loop (Some dev) files out n w
    = Ret (map (verdict (cells w)) files,
           n + len (filter (λ s, restore_code s = 0) (map (verdict (cells w)) files)))
          w'
    ∧ later w w'
    ∧ cells w' = cells w
    ∧ Forall (λ g, verdict (cells w) g = Restored →
                   FileSaved (join_path out (filename g))
                     (slice (address g) (size g) (cells w)) ∈ log w') files.
Proof.
  induction files as [| g files IH]; intros n w Hdev Hrel Hprov Hranges.
  - exists w. simpl. unfold ret. change (len (filter _ [])) with 0. rewrite Z.add_0_r.
    split_and!; auto using later_refl.
  - apply Forall_cons in Hranges as [Hg Hranges].
    destruct (restore_one dev g out w Hdev Hrel Hprov Hg) as (w1 & Hone & L1 & C1 & Hsaved).
    simpl restore_loop. rewrite (bind_run _ _ _ _ _ Hone).
    destruct (IH (if restore_code (verdict (cells w) g) =? 0 then n + 1 else n) w1)
      as (w' & Hrest & L2 & C2 & Hall); try done.
    { by eapply later_attached. } { by eapply later_reliable. } { by eapply later_provided. }
    rewrite (bind_run _ _ _ _ _ Hrest). cbn [fst snd]. unfold ret.
    exists w'. rewrite C1 in *.
    split.
    { f_equal. f_equal. simpl map. rewrite filter_cons.
      destruct (Z.eqb_spec (restore_code (verdict (cells w) g)) 0) as [H0 | H0].
      - rewrite decide_True by done. rewrite len_cons. lia.
      - rewrite decide_False by done. done. }
    split; [by eapply later_trans |].
    split; [congruence |].
    constructor; [| done].
    intros Hv. destruct L2 as (_ & _ & _ & _ & _ & [l ->]).
    apply elem_of_app. left. by apply Hsaved.
Qed.

Lemma filter_all_restored (l : list restore_status) :
  Forall (λ s, restore_code s = 0) l → filter (λ s, restore_code s = 0) l = l.
Proof.
  induction 1 as [| x l Hx _ IH]; [done |].
  by rewrite filter_cons_True, IH.
Qed.



(** ** The reader's contract *)



(** ** The programs: opening the device *)

Lemma sys_open_run path w :
  ∃ (ok : bool) w1, sys_open path w = Ret (if ok then 3 else (-1)) w1
           ∧ later w w1 ∧ cells w1 = cells w ∧ log w1 = log w
           ∧ link w1 = link w
           ∧ (provided w → ok = true).
Proof.
  unfold sys_open. destruct (pop (fs w)) as [ok rest] eqn:Hpop.
  exists ok, (set_fs rest w).
  split_and!; try done; [by eapply later_set_fs |].
  intros [_ Hfs]. by apply (pop_spec _ _ _ Hpop).
Qed.

Lemma sys_ioctl_slave_run f addr w :
  ∃ (ok : bool) w1, sys_ioctl_slave f addr w = Ret (if ok then 0 else (-1)) w1
           ∧ later w w1 ∧ cells w1 = cells w ∧ log w1 = log w
           ∧ (reliable w → ok = true).
Proof.
  unfold sys_ioctl_slave. destruct (pop (link w)) as [ok rest] eqn:Hpop.
  exists ok, (set_link rest w).
  split_and!; try done; [by eapply later_set_link |].
  intros Hrel. by apply (pop_spec _ _ _ Hpop).
Qed.

(** [at24c256_init] returns; on success the handle is initialized and
    holds the configuration; nothing is sent to the device. *)
Lemma init_run cfg w :
  ∃ r h w1,
    at24c256_init (Some cfg) w = Ret (r, h) w1
    ∧ later w w1 ∧ cells w1 = cells w ∧ log w1 = log w
    ∧ (r = AT24C256_OK ∧ h = Some {| fd := 3; config := cfg; initialized := true |}
       ∨ r ≠ AT24C256_OK ∧ h = None)
    ∧ (reliable w → provided w → r = AT24C256_OK).
Proof.
  unfold at24c256_init.
  destruct (sys_malloc_run 1 w) as (got & w1 & Hm & L1 & C1 & G1 & K1 & Hgot).
  rewrite (bind_run _ _ _ _ _ Hm).
  destruct got; cbn [negb].
  2:{ eexists _, _, _. split; [reflexivity |]. split_and!; try done.
      - by right.
      - intros _ Hprov. by specialize (Hgot Hprov). }
  destruct (sys_open_run (i2c_bus cfg) w1) as (ok & w2 & Ho & L2 & C2 & G2 & K2 & Hok).
  rewrite (bind_run _ _ _ _ _ Ho).
  destruct ok; [change (3 <? 0) with false | change (-1 <? 0) with true]; cbv iota.
  2:{ eexists _, _, _. split; [reflexivity |].
      split_and!; try congruence; [by eapply later_trans | by right |].
      intros _ Hprov. assert (provided w1) as Hp1 by (by eapply later_provided).
      by specialize (Hok Hp1). }
  destruct (sys_ioctl_slave_run 3 (device_addr cfg) w2) as (ok & w3 & Hi & L3 & C3 & G3 & Hok3).
  rewrite (bind_run _ _ _ _ _ Hi).
  destruct ok; [change (0 <? 0) with false | change (-1 <? 0) with true]; cbv iota.
  - eexists _, _, _. split; [reflexivity |].
    split_and!; try congruence; [do 2 (eapply later_trans; [eassumption |]); done | by left].
  - eexists _, _, _. split; [reflexivity |].
    split_and!; try congruence; [do 2 (eapply later_trans; [eassumption |]); done | by right |].
    intros Hrel _. assert (reliable w2) as Hr2.
    { eapply later_reliable; [| exact Hrel]. by eapply later_trans. }
    by specialize (Hok3 Hr2).
Qed.

(** A write returns whatever the device, whenever the configuration is
    one the types of the driver can hold. *)
Lemma write_returns dev a data w :
  initialized dev = true →
  0 < page_size (config dev) < 65536 →
  total_size (config dev) ≤ 65536 →
  0 ≤ a → len data < 65536 →
  ∃ r w',
    at24c256_write (Some dev) a (Some data) (len data) w = Ret r w'
    ∧ later w w'
    ∧ heap w' = heap w ∧ fs w' = fs w
    ∧ (r = AT24C256_OK → valid_range dev a (len data))
    ∧ (valid_range dev a (len data) → reliable w → r = AT24C256_OK)
    ∧ (¬ valid_range dev a (len data) → w' = w).
Proof.
  intros Hflag Hps Htot Ha Hn.
  destruct (decide (0 < len data ∧ a + len data ≤ total_size (config dev)))
    as [[Hpos Hfit] | Hbad].
  - assert (valid_range dev a (len data)) as Hrange.
    { unfold valid_range, is_u16. pose proof (len_nonneg data). lia. }
    destruct (write_accepted dev a data w) as (cs & Hcs & ->); try done.
    destruct (send_chunks_run dev cs w)
      as (r & w' & Hrun & Hr & Hlater & Hheap & Hfs & Hrel & _).
    exists r, w'. split_and!; try done.
  - assert (check_address_length (Some dev) a (len data) = AT24C256_ERROR_PARAM) as Hchk.
    { apply check_address_length_range; [done |].
      pose proof (len_nonneg data). lia. }
    exists AT24C256_ERROR_PARAM, w. unfold at24c256_write. rewrite Hchk.
    split; [done |]. split_and!; try done; auto using later_refl.
    intros (_ & _ & ? & ?). lia.
Qed.

Lemma erase_loop_returns dev buf :
  initialized dev = true →
  0 < page_size (config dev) < 65536 →
  total_size (config dev) ≤ 65536 →
  len buf = 4096 →
  ∀ fuel k a w,
    (k ≤ fuel)%nat → (k ≤ 15)%nat → 0 ≤ a →
    ∃ r w', erase_loop fuel (Some dev) buf a (4096 * Z.of_nat k) w = Ret r w'
            ∧ later w w'.
Proof.
  intros Hflag Hps Htot Hbuf.
  induction fuel as [| fuel IH]; intros k a w Hk Hk15 Ha.
  - assert (k = 0%nat) as -> by lia. exists AT24C256_OK, w. split; [done | apply later_refl].
  - destruct k as [| k].
    { exists AT24C256_OK, w. split; [done | apply later_refl]. }
    cbn [erase_loop].
    destruct (Z.gtb_spec (4096 * Z.of_nat (S k)) 0); [| lia].
    assert ((if 4096 * Z.of_nat (S k) >? 4096 then 4096 else 4096 * Z.of_nat (S k)) = 4096)
      as ->.
    { destruct (Z.gtb_spec (4096 * Z.of_nat (S k)) 4096); lia. }
    replace (at24c256_write (Some dev) a (Some buf) 4096)
      with (at24c256_write (Some dev) a (Some buf) (len buf)) by (by rewrite Hbuf).
    destruct (write_returns dev a buf w) as (r & w1 & Hw & L1 & _); try done; [lia |].
    rewrite (bind_run _ _ _ _ _ Hw).
    destruct (negb (err_eqb r AT24C256_OK)).
    + by exists r, w1.
    + replace (u16 (4096 * Z.of_nat (S k) - 4096)) with (4096 * Z.of_nat k)
        by (rewrite u16_small; lia).
      destruct (IH k (u16 (a + 4096)) w1) as (r' & w' & Hrest & L2); try lia.
      { unfold u16. apply Z.mod_pos_bound. lia. }
      exists r', w'. split; [done | by eapply later_trans].
Qed.

Lemma erase_entire_eeprom_returns w :
  ∃ r w', erase_entire_eeprom (Some at24c256_dev) w = Ret r w' ∧ later w w'.
Proof.
  unfold erase_entire_eeprom.
  destruct (sys_malloc_run 4096 w) as (got & w1 & Hm & L1 & _).
  rewrite (bind_run _ _ _ _ _ Hm).
  destruct got; cbn [negb]; [| by exists AT24C256_ERROR_MEMORY, w1].
  destruct (erase_loop_returns at24c256_dev (replicate 4096 255)) with
    (fuel := 8%nat) (k := 8%nat) (a := 0) (w := w1) as (r & w' & Hrun & L2);
    try done; try (simpl; lia).
  exists r, w'. split; [exact Hrun | by eapply later_trans].
Qed.

(** ** The writer's contract *)

(** C5 (amended): [write_files] applied to an empty input list fails and
    produces no directory. The program ends with the failure status,
    whatever its arguments; [write_file_index] is not run, and unless an
    erase was asked for nothing at all is sent to the device: its
    bytes and the log of transfers are as they were, so a later
    [read_index] finds what the device held before, not a fresh header
    with count 0. *)
Theorem empty_input_fails_without_directory (args : list string) (w : world) :
  ∃ w',
    camera_data_write.main args (Some []) w = Ret EXIT_FAILURE w'
    ∧ (if should_erase_eeprom args then True
       else cells w' = cells w ∧ log w' = log w)
    ∧ ∀ handle w0,
        camera_data_write.write_files handle (Some []) w0 = Ret EXIT_FAILURE w0.
Proof.
  assert (∀ handle w0,
    camera_data_write.write_files handle (Some []) w0 = Ret EXIT_FAILURE w0) as Hwf.
  { intros handle w0. unfold camera_data_write.write_files, process_camera_parameters.
    by destruct handle. }
  unfold camera_data_write.main.
  destruct (init_run AT24C256_DEFAULT_CONFIG w)
    as (r & h & w1 & Hinit & L1 & C1 & G1 & Hres & _).
  rewrite (bind_run _ _ _ _ _ Hinit). cbv beta iota.
  destruct Hres as [[-> ->] | [Hr ->]].
  - change (negb (err_eqb AT24C256_OK AT24C256_OK)) with false. cbv iota.
    destruct (should_erase_eeprom args).
    + destruct (erase_entire_eeprom_returns w1) as (e & w2 & Herase & L2).
      change {| fd := 3; config := AT24C256_DEFAULT_CONFIG; initialized := true |}
        with at24c256_dev.
      rewrite (bind_run _ _ _ _ _ Herase).
      destruct (negb (err_eqb e AT24C256_OK)).
      * by exists w2.
      * rewrite Hwf. by exists w2.
    + unfold bind at 1. unfold ret at 1.
      change (negb (err_eqb AT24C256_OK AT24C256_OK)) with false. cbv iota.
      rewrite Hwf. by exists w1.
  - assert (negb (err_eqb r AT24C256_OK) = true) as ->.
    { by destruct r. }
    exists w1. split; [done |]. split; [| done].
    by destruct (should_erase_eeprom args).
Qed.

(** ** Storing the blobs *)

Lemma err_eqb_ok r :
  if err_eqb r AT24C256_OK then r = AT24C256_OK else r ≠ AT24C256_OK.
Proof. by destruct r. Qed.

Lemma slice_take_eq (cs cs' : list Z) a n :
  0 ≤ a → 0 ≤ n →
  take (Z.to_nat (a + n)) cs' = take (Z.to_nat (a + n)) cs →
  slice a n cs' = slice a n cs.
Proof.
  intros Ha Hn Heq. unfold slice.
  rewrite !take_drop_commute.
  replace (Z.to_nat a + Z.to_nat n)%nat with (Z.to_nat (a + n)) by lia.
  by rewrite Heq.
Qed.

(** A write on an attached device, whatever the range: it returns, it
    leaves the array below its address as it was, and it succeeds only
    on a valid range, with the data laid over the array. *)
Lemma write_any dev a data w :
  attached dev w → 0 ≤ a → len data < 65536 →
  ∃ r w',
    at24c256_write (Some dev) a (Some data) (len data) w = Ret r w'
    ∧ later w w'
    ∧ (∀ n, 0 ≤ n ≤ a → take (Z.to_nat n) (cells w') = take (Z.to_nat n) (cells w))
    ∧ (r = AT24C256_OK →
       valid_range dev a (len data) ∧ cells w' = splice a data (cells w))
    ∧ (valid_range dev a (len data) → reliable w → r = AT24C256_OK)
    ∧ (¬ valid_range dev a (len data) → w' = w).
Proof.
  intros Hdev Ha Hn.
  pose proof Hdev as (Hflag & Hps & Hpage & Hdiv & Htot & Hcap).
  destruct (decide (0 < len data ∧ a + len data ≤ total_size (config dev)))
    as [[Hpos Hfit] | Hbad].
  - assert (valid_range dev a (len data)) as Hrange.
    { unfold valid_range, is_u16. lia. }
    destruct (write_run dev a data w Hdev Hrange)
      as (r & w' & k & Hrun & _ & Hlater & _ & _ & Hk & Hcells & Hall & Hrel).
    exists r, w'. split_and!; try done.
    + intros n Hna. rewrite Hcells. apply take_splice_below; [done |].
      rewrite len_take by lia. lia.
    + intros Hr. split; [done |]. rewrite Hcells, (Hall Hr).
      by rewrite take_ge by (unfold len; lia).
  - assert (check_address_length (Some dev) a (len data) = AT24C256_ERROR_PARAM) as Hchk.
    { apply check_address_length_range; [done |].
      pose proof (len_nonneg data). lia. }
    exists AT24C256_ERROR_PARAM, w. unfold at24c256_write. rewrite Hchk.
    split; [done |]. split_and!; try done; auto using later_refl.
    intros (_ & _ & ? & ?). lia.
Qed.

Lemma later_log w w' : later w w' → ∃ l, log w' = log w ++ l.
Proof. by intros (_ & _ & _ & _ & _ & ?). Qed.

(** What [write_file_to_eeprom] does with one blob at the next free
    address [cur] of the payload area. *)
Lemma store_one dev path e cur w :
  attached dev w →
  config dev = AT24C256_DEFAULT_CONFIG →
  PAYLOAD_START ≤ cur ≤ 32768 →
  ∃ s w',
    write_file_to_eeprom (Some dev) path e cur w = Ret s w'
    ∧ later w w'
    ∧ (∀ n, 0 ≤ n ≤ cur → take (Z.to_nat n) (cells w') = take (Z.to_nat n) (cells w))
    ∧ (len (contents e) > MAX_FILE_SIZE →
       store_code s = -1 ∧ cells w' = cells w ∧ log w' = log w)
    ∧ (∀ info, s = Stored info →
       address info = cur
       ∧ cur + size info ≤ 32768
       ∧ filename info = substring 0 63 (base_name path)
       ∧ records (cells w') e info)
    ∧ (reliable w → provided w →
       0 < len (contents e) → cur + len (contents e) ≤ 32768 →
       ∃ info, s = Stored info).
Proof.
  intros Hdev Hcfg Hcur.
  assert (PAYLOAD_START = 1136) as Hstart by done. rewrite Hstart in Hcur.
  assert (total_size (config dev) = 32768) as Htotal by (by rewrite Hcfg).
  unfold write_file_to_eeprom, records, MAX_FILE_SIZE.
  destruct (sys_fopen_run w) as (ok1 & w1 & H1 & L1 & C1 & G1 & _ & Hok1).
  rewrite (bind_run _ _ _ _ _ H1).
  destruct ok1; cbn [negb].
  2:{ exists OpenFailed, w1. split; [done |]. split; [done |].
      split; [intros; by rewrite C1 |]. split; [done |]. split; [done |].
      intros _ Hprov. by specialize (Hok1 Hprov). }
  destruct (Z.gtb_spec (len (contents e)) (32 * 1024)) as [Hbig | Hsmall].
  { exists TooLarge, w1. split; [done |]. split; [done |].
    split; [intros; by rewrite C1 |]. split; [done |]. split; [done |].
    intros _ _ _ ?. exfalso. lia. }
  destruct (sys_malloc_run (len (contents e)) w1) as (ok2 & w2 & H2 & L2 & C2 & G2 & _ & Hok2).
  rewrite (bind_run _ _ _ _ _ H2).
  destruct ok2; cbn [negb].
  2:{ exists StoreNoMemory, w2. split; [done |]. split; [by eapply later_trans |].
      split; [intros; by rewrite C2, C1 |]. split; [intros; exfalso; lia |]. split; [done |].
      intros _ Hprov. assert (provided w1) as Hp by (by eapply later_provided).
      by specialize (Hok2 Hp). }
  destruct (sys_fread_fwrite_run w2) as (ok3 & w3 & H3 & L3 & C3 & G3 & _ & Hok3).
  rewrite (bind_run _ _ _ _ _ H3).
  destruct ok3; cbn [negb].
  2:{ exists ShortRead, w3. split; [done |].
      split; [do 2 (eapply later_trans; [eassumption |]); done |].
      split; [intros; by rewrite C3, C2, C1 |]. split; [intros; exfalso; lia |]. split; [done |].
      intros _ Hprov. assert (provided w2) as Hp.
      { eapply later_provided; [| exact Hprov]. by eapply later_trans. }
      by specialize (Hok3 Hp). }
  assert (later w w3) as L03 by (do 2 (eapply later_trans; [eassumption |]); done).
  assert (cells w3 = cells w) as C03 by congruence.
  pose proof (len_nonneg (contents e)) as Hlen0.
  rewrite u16_small by lia.
  destruct (write_any dev cur (contents e) w3) as (r & w4 & H4 & L4 & F4 & Hok4 & Hrel4 & _);
    [by eapply later_attached | lia | lia |].
  rewrite (bind_run _ _ _ _ _ H4).
  pose proof (err_eqb_ok r) as Hr.
  destruct (err_eqb r AT24C256_OK); cbn [negb]; [subst r |].
  - destruct (Hok4 eq_refl) as [(_ & _ & Hpos & Hfit) Hcells4].
    unfold bind, usleep, ret.
    eexists _, _. split; [reflexivity |].
    split; [eapply later_trans; [exact L03 |]; eapply later_trans; [exact L4 |];
            apply later_emit |].
    split; [intros n Hn; rewrite cells_emit, F4 by done; by rewrite C03 |].
    split; [intros; exfalso; lia |].
    split.
    { intros info [= <-]. cbn [address size filename checksum].
      rewrite Htotal in Hfit.
      split; [done |]. split; [lia |]. split; [done |].
      rewrite cells_emit, Hcells4.
      split_and!; try done; try lia.
      apply slice_splice; [lia |].
      pose proof (later_attached dev w w3 L03 Hdev) as (_ & _ & _ & _ & Htot3 & _).
      lia. }
    intros _ _ _ _. by eexists.
  - exists (StoreFailed r), w4. split; [done |].
    split; [by eapply later_trans |].
    split; [intros n Hn; rewrite F4 by done; by rewrite C03 |].
    split; [intros; exfalso; lia |]. split; [done |].
    intros Hrel Hprov Hpos Hfit. exfalso. apply Hr, Hrel4.
    + unfold valid_range, is_u16. rewrite Htotal. lia.
    + by eapply later_reliable.
Qed.

Lemma process_loop_cons handle dir e rest cur files :
  process_loop handle dir (e :: rest) cur files =
  if eligible e then
    s <- write_file_to_eeprom handle (join_path dir (d_name e)) e cur ;;
    match s with
    | Stored info =>
        if len files >=? MAX_FILES then undefined
        else process_loop handle dir rest (u16 (cur + size info)) (files ++ [info])
    | _ => process_loop handle dir rest cur files
    end
  else process_loop handle dir rest cur files.
Proof.
  unfold eligible. cbn [process_loop].
  destruct (String.eqb (d_name e) "." || String.eqb (d_name e) ".."); [done |].
  destruct (is_dat (d_name e)); [| done].
  by destruct (is_regular e).
Qed.



(** ** Writing the directory *)

Lemma len_header_bytes files : len (header_bytes (header_for files)) = 16.
Proof. done. Qed.

Lemma len_file_index_bytes f pad : len (file_index_bytes f pad) = 70.
Proof.
  unfold file_index_bytes, len. rewrite !length_app, length_take, length_app.
  rewrite length_replicate. cbn [length le16]. lia.
Qed.

Lemma len_entry_images : ∀ files pads,
  length pads = length files → len (entry_images files pads) = 70 * len files.
Proof.
  unfold entry_images.
  induction files as [| g files IH]; intros [| pad pads] Hlen; try done.
  simpl. rewrite len_app, len_cons, len_file_index_bytes, IH; [lia |].
  simpl in Hlen. lia.
Qed.

(** A write that stays below [b] leaves the array from [b] on as it
    was. *)
Lemma drop_splice_above a d cs b :
  0 ≤ a → a + len d ≤ b → b ≤ len cs →
  drop (Z.to_nat b) (splice a d cs) = drop (Z.to_nat b) cs.
Proof.
  unfold len. intros Ha Hb Hfit. unfold splice.
  rewrite drop_app_ge by (rewrite length_take; lia).
  rewrite length_take.
  rewrite drop_app_ge by lia.
  rewrite drop_drop. f_equal. lia.
Qed.

Lemma write_entries_run dev : ∀ files a w,
  attached dev w →
  total_size (config dev) ≤ 32768 →
  0 ≤ a → a + 70 * len files ≤ total_size (config dev) →
  ∃ r w',
    write_entries (Some dev) files a w = Ret r w'
    ∧ later w w'
    ∧ (r = 0 ∨ r = -1)
    ∧ (∀ b, a + 70 * len files ≤ b → b ≤ len (cells w) →
         drop (Z.to_nat b) (cells w') = drop (Z.to_nat b) (cells w))
    ∧ (r = 0 →
       ∃ pads, length pads = length files ∧ Forall is_u8 pads
               ∧ cells w' = splice a (entry_images files pads) (cells w))
    ∧ (reliable w → r = 0).
Proof.
  induction files as [| f files IH]; intros a w Hdev Hsmall Ha Hfit.
  - exists 0, w. simpl. unfold ret.
    split_and!; auto using later_refl.
    intros _. exists []. unfold entry_images. simpl. by rewrite splice_nil.
  - rewrite len_cons in Hfit |- *. pose proof (len_nonneg files) as Hn.
    pose proof Hdev as (_ & _ & _ & _ & Htot & Hcap).
    cbn [write_entries]. unfold sizeof_file_index_t.
    destruct (never_set_run w) as (pad & w0 & Hpad & L0 & C0 & _ & K0 & _ & _ & Hu8).
    rewrite (bind_run _ _ _ _ _ Hpad).
    assert (attached dev w0) as Hdev0 by (by eapply later_attached).
    replace (at24c256_write (Some dev) a (Some (file_index_bytes f pad)) 70)
      with (at24c256_write (Some dev) a (Some (file_index_bytes f pad))
              (len (file_index_bytes f pad)))
      by (by rewrite len_file_index_bytes).
    destruct (write_run dev a (file_index_bytes f pad) w0 Hdev0)
      as (r & w1 & k & Hrun & Hr & L1 & _ & _ & Hk & Hcells & Hall & Hrel).
    { unfold valid_range, is_u16. rewrite len_file_index_bytes. lia. }
    rewrite (bind_run _ _ _ _ _ Hrun).
    rewrite len_file_index_bytes in Hk.
    assert (len (cells w1) = len (cells w)) as Hsame.
    { destruct (later_trans _ _ _ L0 L1) as (_ & Hl & _). unfold len. by rewrite Hl. }
    assert (∀ b, a + 70 ≤ b → b ≤ len (cells w) →
              drop (Z.to_nat b) (cells w1) = drop (Z.to_nat b) (cells w)) as Hfar.
    { intros b Hb Hin. rewrite Hcells, C0.
      apply drop_splice_above; [lia | | done].
      unfold len. rewrite length_take. unfold len in Hk. lia. }
    pose proof (err_eqb_ok r) as Hcase.
    destruct (err_eqb r AT24C256_OK); cbn [negb].
    + subst r. rewrite u16_small by lia.
      destruct (IH (a + 70) w1)
        as (r' & w' & Hrest & L2 & Hr' & Hfar' & Hcells' & Hrel');
        [by eapply later_attached | done | lia | lia |].
      exists r', w'. split; [done |].
      split; [exact (later_trans _ _ _ L0 (later_trans _ _ _ L1 L2)) |].
      split; [done |].
      split; [intros b Hb Hin; rewrite Hfar' by lia; apply Hfar; lia |].
      split.
      * intros Hok. destruct (Hcells' Hok) as (pads & Hlen & Hpads & Hc).
        exists (pad :: pads). split; [simpl; lia |].
        split; [by constructor |].
        rewrite Hc, Hcells, (Hall eq_refl), C0.
        rewrite take_ge by (unfold len; lia).
        replace (a + 70) with (a + len (file_index_bytes f pad))
          by (by rewrite len_file_index_bytes).
        unfold entry_images at 2. simpl concat. fold (entry_images files pads).
        apply splice_splice; [lia |].
        rewrite len_file_index_bytes, len_entry_images by done. lia.
      * intros Hw. apply Hrel'.
        eapply later_reliable; [exact (later_trans _ _ _ L0 L1) | done].
    + exists (-1), w1. unfold ret. split; [done |].
      split; [exact (later_trans _ _ _ L0 L1) |].
      split; [by right |].
      split; [intros b Hb Hin; apply Hfar; lia |].
      split; [intros; lia |].
      intros Hw. exfalso. apply Hcase, Hrel. unfold reliable. by rewrite K0.
Qed.

Lemma write_file_index_run dev files w :
  attached dev w →
  config dev = AT24C256_DEFAULT_CONFIG →
  len files ≤ 16 →
  ∃ r w',
    write_file_index (Some dev) files (len files) w = Ret r w'
    ∧ later w w'
    ∧ (r = 0 ∨ r = -1)
    ∧ drop (Z.to_nat PAYLOAD_START) (cells w') = drop (Z.to_nat PAYLOAD_START) (cells w)
    ∧ (r = 0 →
       ∃ pads, length pads = length files ∧ Forall is_u8 pads
               ∧ cells w' = splice 0 (header_bytes (header_for files)
                                      ++ entry_images files pads) (cells w))
    ∧ (reliable w → r = 0).
Proof.
  intros Hdev Hcfg Hcount.
  assert (total_size (config dev) = 32768) as Htotal by (by rewrite Hcfg).
  assert (PAYLOAD_START = 1136) as Hstart by done.
  pose proof (len_nonneg files) as Hn.
  pose proof Hdev as (_ & _ & _ & _ & Htot & _).
  unfold write_file_index.
  replace (Z.to_nat (len files)) with (length files) by (unfold len; lia).
  rewrite take_ge by done.
  change {| magic := CAM_MAGIC; version := 1; file_count := u8 (len files);
            hdr_total_size := fold_left (λ acc f, u16 (acc + size f)) files 0;
            reserved := replicate 8 0 |} with (header_for files).
  unfold sizeof_index_header_t, EEPROM_START_ADDRESS.
  replace (at24c256_write (Some dev) 0 (Some (header_bytes (header_for files))) 16)
    with (at24c256_write (Some dev) 0 (Some (header_bytes (header_for files)))
            (len (header_bytes (header_for files))))
    by (by rewrite len_header_bytes).
  destruct (write_run dev 0 (header_bytes (header_for files)) w Hdev)
    as (r & w1 & k & Hrun & Hr & L1 & _ & _ & Hk & Hcells & Hall & Hrel).
  { unfold valid_range, is_u16. rewrite len_header_bytes. lia. }
  rewrite (bind_run _ _ _ _ _ Hrun).
  rewrite len_header_bytes in Hk.
  assert (len (cells w1) = len (cells w)) as Hsame.
  { destruct L1 as (_ & Hl & _). unfold len. by rewrite Hl. }
  assert (drop (Z.to_nat PAYLOAD_START) (cells w1)
          = drop (Z.to_nat PAYLOAD_START) (cells w)) as Hfar.
  { rewrite Hcells. apply drop_splice_above; [lia | | lia].
    unfold len. rewrite length_take. unfold len in Hk. lia. }
  pose proof (err_eqb_ok r) as Hcase.
  destruct (err_eqb r AT24C256_OK); cbn [negb].
  - subst r. change (u16 (0 + 16)) with 16.
    destruct (write_entries_run dev files 16 w1)
      as (r' & w' & Hrest & L2 & Hr' & Hfar' & Hcells' & Hrel');
      [by eapply later_attached | lia | lia | lia |].
    exists r', w'. split; [done |].
    split; [by eapply later_trans |].
    split; [done |].
    split; [rewrite Hfar' by lia; exact Hfar |].
    split.
    + intros Hok. destruct (Hcells' Hok) as (pads & Hlen & Hpads & Hc).
      exists pads. split; [done |]. split; [done |].
      rewrite Hc, Hcells, (Hall eq_refl).
      rewrite take_ge by (unfold len; lia).
      replace (splice 16) with (splice (0 + len (header_bytes (header_for files))))
        by (by rewrite len_header_bytes).
      apply splice_splice; [lia |].
      rewrite len_header_bytes, len_entry_images by done. lia.
    + intros Hw. apply Hrel'. by eapply later_reliable.
  - exists (-1), w1. unfold ret. split; [done |]. split; [done |].
    split; [by right |].
    split; [exact Hfar |].
    split; [intros; lia |].
    intros Hw. by specialize (Hrel Hw).
Qed.




Lemma at24c256_attached : attached at24c256_dev at24c256_blank.
Proof.
  unfold attached. split; [reflexivity |].
  split; [split; reflexivity |]. split; [reflexivity |].
  split; [exists 1; reflexivity |].
  split; vm_compute; discriminate.
Defined.



(** C5 as stated fails: on an erased AT24C256 the program given an empty
    input ends with the failure status and sends nothing, and the
    reader's [read_file_index] then fails on the magic: there is no
    header with count 0. *)
Lemma empty_input_leaves_no_header :
  value (camera_data_write.main [] (Some []) at24c256_blank) = Some EXIT_FAILURE
  ∧ log (after (camera_data_write.main [] (Some []) at24c256_blank) at24c256_blank)
    = []
  ∧ value (read_file_index (Some at24c256_dev)
             (after (camera_data_write.main [] (Some []) at24c256_blank)
                at24c256_blank))
    = Some (-1, []).
Proof. split_and!; vm_compute; reflexivity. Qed.

(** ** From the writer to the reader *)

Lemma packed_bounds : ∀ files a b,
  packed a files b →
  a ≤ b ∧ Forall (λ f, a ≤ address f ∧ 0 < size f ∧ address f + size f ≤ b) files.
Proof.
  induction files as [| f files IH]; intros a b Hp; simpl in Hp.
  - subst. split; [lia | constructor].
  - destruct Hp as (Ha & Hpos & Hrest). destruct (IH _ _ Hrest) as [Hle Hall].
    split; [lia |]. constructor; [lia |].
    eapply Forall_impl; [exact Hall |]. simpl. intros. lia.
Qed.


Lemma slice_splice_above a n d cs :
  len d ≤ a → 0 ≤ n → len d ≤ len cs →
  slice a n (splice 0 d cs) = slice a n cs.
Proof.
  unfold len. intros Ha Hn Hfit. unfold slice, splice.
  change (Z.to_nat 0) with 0%nat. rewrite take_0, app_nil_l, Nat.add_0_l. f_equal.
  rewrite drop_app_ge by lia. rewrite drop_drop. f_equal. lia.
Qed.


Lemma verdict_holds dev cs f : holds dev cs f → verdict cs f = Restored.
Proof. intros [_ Hsum]. unfold verdict. rewrite <- Hsum. by rewrite Z.eqb_refl. Qed.



(** ** Beyond the 16-bit address space *)

(** On an array of 65600 cells a write of ten bytes at 65530 puts its
    last four bytes at the start of the array. *)
Example wide_write_lands_at_zero :
  check_address_length (Some wide_dev) 65530 10 = AT24C256_OK
  ∧ value (wide_write wide_world) = Some AT24C256_OK
  ∧ log (after (wide_write wide_world) wide_world)
    = [ I2cWrite [255; 250; 1; 2; 3; 4; 5; 6] true; Usleep 5000;
        I2cWrite [0; 0; 7; 8; 9; 10] true; Usleep 5000 ]
  ∧ take 4 (cells (after (wide_write wide_world) wide_world)) = [7; 8; 9; 10]
  ∧ slice 65530 10 (cells (after (wide_write wide_world) wide_world))
    = [1; 2; 3; 4; 5; 6; 255; 255; 255; 255].
Proof. split_and!; vm_compute; reflexivity. Qed.

Lemma u16_mod_page page a :
  0 < page → (page | 65536) → u16 a mod page = a mod page.
Proof. intros Hp Hdiv. unfold u16. by apply Z.mod_mod_divide. Qed.

Lemma u16_add_l a n : u16 (u16 a + n) = u16 (a + n).
Proof. unfold u16. by rewrite Zplus_mod_idemp_l. Qed.

(** The loop of [at24c256_write] keeps its address in a [uint16_t]:
    whatever the address of a chunk, its low 16 bits are sent. *)
Lemma write_loop_sends_wrapped dev a d cs :
  chunking (page_size (config dev)) a d cs →
  0 < page_size (config dev) < 65536 →
  (page_size (config dev) | 65536) →
  len d < 65536 →
  ∀ fuel w, (length d ≤ fuel)%nat →
  write_loop fuel dev (u16 a) d (len d) w
  = send_chunks dev (map (λ c, (u16 (fst c), snd c)) cs) w.
Proof.
  intros Hcs Hps Hdiv.
  induction Hcs as [a | a d n cs Hlen Hn Hrest IH]; intros Hend fuel w Hfuel.
  - rewrite write_loop_unfold. done.
  - rewrite write_loop_unfold.
    destruct (chunk_size_bounds _ (proj1 Hps) a d Hlen) as [Hn1 Hn2]. rewrite <- Hn in Hn1, Hn2.
    pose proof (Z.mod_pos_bound a (page_size (config dev)) (proj1 Hps)) as Hoff.
    destruct (Z.gtb_spec (len d) 0); [| lia].
    destruct fuel as [| fuel]; [unfold len in *; lia |].
    destruct (Z.eqb_spec (page_size (config dev)) 0); [lia |].
    cbv zeta.
    rewrite (u16_mod_page _ a) by (done || lia).
    rewrite (u16_small (a mod _)) by lia.
    rewrite (u16_small (_ - _)) by lia.
    assert ((if page_size (config dev) - a mod page_size (config dev) >? len d
             then len d else page_size (config dev) - a mod page_size (config dev)) = n) as ->.
    { destruct (Z.gtb_spec (page_size (config dev) - a mod page_size (config dev)) (len d)); lia. }
    destruct (Z.ltb_spec (len d) n); [lia |].
    simpl map. simpl send_chunks. unfold bind at 1. unfold bind at 2. simpl fst. simpl snd.
    rewrite len_take by lia.
    destruct (sys_write _ _ w) as [bw w1 | |]; [| done | done].
    destruct (negb (bw =? n + 2)); [done |].
    unfold bind. simpl usleep.
    rewrite (u16_small (len d - n)) by lia.
    rewrite u16_add_l.
    destruct (decide (n = len d)) as [Hall | Hmore].
    + assert (drop (Z.to_nat n) d = []) as Hnil.
      { apply drop_ge. unfold len in *. lia. }
      rewrite Hnil in Hrest. apply chunking_nil_inv in Hrest as ->.
      rewrite Hall, Z.sub_diag, write_loop_unfold. done.
    + rewrite <- (len_drop d n) by lia.
      apply IH; [rewrite len_drop by lia; lia |].
      rewrite length_drop. unfold len in *. lia.
Qed.

Lemma chunking_head page a d cs :
  0 < page → chunking page a d cs → 0 < len d →
  ∃ c cs', cs = c :: cs' ∧ fst c = a ∧ snd c ≠ [].
Proof.
  intros Hpage Hcs Hpos. destruct Hcs as [a | a d n cs Hlen Hn Hrest].
  - unfold len in Hpos. simpl in Hpos. lia.
  - eexists _, _. split; [reflexivity |]. split; [done |]. simpl.
    destruct (chunk_size_bounds _ Hpage a d Hlen) as [Hn1 _]. rewrite <- Hn in Hn1.
    intros Hnil.
    assert (len (take (Z.to_nat n) d) = 0) as Hz by (by rewrite Hnil).
    rewrite len_take in Hz by lia. lia.
Qed.

(** A page boundary strictly inside the range of a write is where one
    of its chunks starts. *)
Lemma chunking_starts_at_boundary page a d cs :
  0 < page →
  chunking page a d cs →
  ∀ b, (page | b) → a < b < a + len d →
  ∃ j c, cs !! j = Some c ∧ fst c = b ∧ snd c ≠ []
         ∧ concat (map snd (take j cs)) = take (Z.to_nat (b - a)) d.
Proof.
  intros Hpage. induction 1 as [a | a d n cs Hlen Hn Hrest IH]; intros b Hb Hin.
  - unfold len in Hin. simpl in Hin. lia.
  - destruct (chunk_size_bounds _ Hpage a d Hlen) as [Hn1 Hn2]. rewrite <- Hn in Hn1, Hn2.
    assert (a + n ≤ b) as Hnext.
    { destruct Hb as [m ->].
      pose proof (Z.div_mod a page ltac:(lia)) as Ha.
      pose proof (Z.mod_pos_bound a page Hpage) as Hoff.
      assert (a / page < m) by nia.
      nia. }
    destruct (decide (a + n = b)) as [Heq | Hlt].
    + destruct (chunking_head _ _ _ _ Hpage Hrest) as (c & cs' & -> & Hfst & Hne).
      { rewrite len_drop by lia. lia. }
      exists 1%nat, c. split; [done |]. split; [lia |]. split; [done |].
      simpl. rewrite app_nil_r. f_equal. lia.
    + destruct (IH b Hb) as (j & c & Hc & Hfst & Hne & Hcat).
      { rewrite len_drop by lia. lia. }
      exists (S j), c. split; [done |]. split; [done |]. split; [done |].
      simpl. rewrite Hcat.
      rewrite take_take_drop. f_equal. lia.
Qed.

Lemma chunk_events_elem delay cs j c :
  cs !! j = Some c →
  I2cWrite (addr_bytes (fst c) ++ snd c) true ∈ chunk_events delay cs.
Proof.
  revert j. induction cs as [| c' cs IH]; intros j Hc; [done |].
  change (chunk_events delay (c' :: cs))
    with ([I2cWrite (addr_bytes (fst c') ++ snd c') true; Usleep (delay * 1000)]
          ++ chunk_events delay cs).
  apply elem_of_app. destruct j as [| j]; simpl in Hc.
  - inversion Hc; subst. left. apply list_elem_of_here.
  - right. by apply (IH j).
Qed.

(** When the configured capacity exceeds 65536, the range check admits a
    write that runs past address 65536, and the driver then continues at
    address 0: the chunk that starts at 65536 is sent with the address
    bytes 0, 0, after the first [65536 - address] bytes went where they
    belong. *)
Theorem write_past_64k_continues_at_zero
    (dev : at24c256_dev_s) (address : Z) (data : list Z) (w : world) :
  initialized dev = true →
  0 < page_size (config dev) < 65536 →
  (page_size (config dev) | 65536) →
  is_u16 address → len data < 65536 →
  address + len data ≤ total_size (config dev) →
  65536 < address + len data →
  ∃ cs j tail r w',
    chunking (page_size (config dev)) address data cs
    ∧ at24c256_write (Some dev) address (Some data) (len data) w = Ret r w'
    ∧ (reliable w → r = AT24C256_OK)
    ∧ (r = AT24C256_OK →
       log w' = log w ++ chunk_events (write_delay_ms (config dev)) (sent_as cs)
       ∧ I2cWrite ([0; 0] ++ tail) true ∈ log w')
    ∧ cs !! j = Some (65536, tail)
    ∧ sent_as cs !! j = Some (0, tail)
    ∧ tail ≠ []
    ∧ concat (map snd (take j cs)) = take (Z.to_nat (65536 - address)) data.
Proof.
  intros Hflag Hps Hdiv [Ha0 Ha1] Hlen Hfit Hpast.
  destruct (chunking_exists (page_size (config dev)) (proj1 Hps) data address) as [cs Hcs].
  destruct (chunking_starts_at_boundary _ _ _ _ (proj1 Hps) Hcs 65536 Hdiv)
    as (j & [b tail] & Hj & Hb & Htail & Hcat); [lia |].
  simpl in Hb, Htail. subst b.
  assert (at24c256_write (Some dev) address (Some data) (len data) w
          = send_chunks dev (sent_as cs) w) as Hsend.
  { unfold at24c256_write.
    rewrite check_address_length_ok by (done || lia). simpl.
    rewrite <- (u16_small address) at 1 by lia.
    apply write_loop_sends_wrapped; try done. unfold len. lia. }
  destruct (send_chunks_run dev (sent_as cs) w)
    as (r & w' & Hrun & _ & _ & _ & _ & Hrel & Hlog & _).
  assert (sent_as cs !! j = Some (0, tail)) as Hsent.
  { unfold sent_as. rewrite list_lookup_fmap, Hj. done. }
  exists cs, j, tail, r, w'. split; [done |].
  split; [by rewrite Hsend |]. split; [done |].
  split; [| done].
  intros Hok. split; [by apply Hlog |].
  rewrite (Hlog Hok). apply elem_of_app. right.
  apply (chunk_events_elem _ _ j (0, tail) Hsent).
Qed.

Lemma write_past_64k_continues_at_zero_witness :
  ∃ cs j tail r w',
    chunking (page_size (config wide_dev)) 65530 [1; 2; 3; 4; 5; 6; 7; 8; 9; 10] cs
    ∧ at24c256_write (Some wide_dev) 65530 (Some [1; 2; 3; 4; 5; 6; 7; 8; 9; 10])
        (len [1; 2; 3; 4; 5; 6; 7; 8; 9; 10]) wide_world = Ret r w'
    ∧ (reliable wide_world → r = AT24C256_OK)
    ∧ (r = AT24C256_OK →
       log w' = log wide_world
                ++ chunk_events (write_delay_ms (config wide_dev)) (sent_as cs)
       ∧ I2cWrite ([0; 0] ++ tail) true ∈ log w')
    ∧ cs !! j = Some (65536, tail)
    ∧ sent_as cs !! j = Some (0, tail)
    ∧ tail ≠ []
    ∧ concat (map snd (take j cs))
      = take (Z.to_nat (65536 - 65530)) [1; 2; 3; 4; 5; 6; 7; 8; 9; 10].
Proof.
  apply (write_past_64k_continues_at_zero wide_dev 65530
           [1; 2; 3; 4; 5; 6; 7; 8; 9; 10] wide_world).
  - reflexivity.
  - simpl. lia.
  - by exists 1024.
  - unfold is_u16. lia.
  - unfold len. simpl. lia.
  - unfold len. simpl. lia.
  - unfold len. simpl. lia.
Defined.

Lemma bench_glitch_attached : attached bench_dev bench_glitch.
Proof.
  unfold attached. simpl. split_and!; try reflexivity; try lia.
  vm_compute. discriminate.
Defined.

(** ** What a read leaves behind *)

Lemma fetch_length (cs : list Z) : ∀ n p, length (fetch cs p n).1 = n.
Proof.
  induction n as [| n IH]; intros p; [done |].
  simpl. specialize (IH ((p + 1) mod len cs)).
  destruct (fetch cs ((p + 1) mod len cs) n) as [bs q]. simpl in *. by rewrite IH.
Qed.

(** A read returns, whatever the link does, and never changes the
    array; one that succeeds replaces the first [length] bytes of the
    caller's buffer and nothing else. *)
Theorem read_changes_neither_array_nor_tail
    (handle : at24c256_handle_t) (address length : Z)
    (data : option (list Z)) (w : world) :
  0 ≤ length →
  (∀ buf, data = Some buf → length ≤ len buf) →
  ∃ r b w',
    at24c256_read handle address data length w = Ret (r, b) w'
    ∧ later w w'
    ∧ cells w' = cells w
    ∧ (r = AT24C256_OK →
       ∃ buf got, data = Some buf ∧ len got = length
                  ∧ b = Some (got ++ drop (Z.to_nat length) buf)).
Proof.
  intros Hpos Hroom. unfold at24c256_read.
  pose proof (err_eqb_ok (check_address_length handle address length)) as Hchk.
  destruct (err_eqb (check_address_length handle address length) AT24C256_OK) eqn:Hc;
    cbn [negb].
  2:{ eexists _, _, _. split; [reflexivity |]. split_and!; auto using later_refl.
      done. }
  destruct handle as [dev |]; [| done].
  destruct data as [buf |].
  2:{ eexists _, _, _. split; [reflexivity |]. split_and!; auto using later_refl.
      done. }
  specialize (Hroom buf eq_refl).
  fold (addr_bytes address).
  destruct (sys_write_cases (fd dev) (addr_bytes address) w)
    as [(rest & Hpop & Hw) | (rest & Hpop & Hbad & Hw)];
    rewrite (bind_run _ _ _ _ _ Hw).
  - change (len (addr_bytes address) =? 2) with true. cbn [negb].
    set (w1 := emit _ _).
    assert (later w w1) as Hw1 by (by apply later_sys_write_acked).
    assert (cells w1 = cells w) as Hc1 by done.
    destruct (sys_read_cases (fd dev) length w1)
      as [(rest' & bs & q & Hpop' & Hfetch & Hr) | (rest' & Hpop' & Hbad & Hr)];
      rewrite (bind_run _ _ _ _ _ Hr); cbn [fst snd].
    + rewrite Z.eqb_refl. cbn [negb].
      destruct (Z.ltb_spec (len buf) length); [lia |].
      eexists _, _, _. split; [reflexivity |].
      split.
      { eapply later_trans; [exact Hw1 |].
        eapply later_trans; [apply (later_set_chip_cursor q) |].
        eapply later_trans; [| apply later_emit].
        by apply (later_set_link _ rest' true). }
      split; [done |].
      intros _. exists buf, bs. split; [done |]. split; [| done].
      change bs with (bs, q).1. rewrite <- Hfetch. unfold len.
      rewrite fetch_length. lia.
    + destruct (Z.eqb_spec (-1) length); [lia |]. cbn [negb].
      eexists _, _, _. split; [reflexivity |].
      split.
      { eapply later_trans; [exact Hw1 |].
        eapply later_trans; [| apply later_emit].
        by apply (later_set_link _ rest' false). }
      split; done.
  - change (-1 =? 2) with false. cbn [negb].
    eexists _, _, _. split; [reflexivity |].
    split; [by apply later_sys_write_failed |].
    split; done.
Qed.

(** Eight bytes read from address 98 of the small part, which holds the
    bytes 1 to 5 from address 100 on, into a buffer of twelve. *)
Lemma read_changes_neither_array_nor_tail_witness :
  ∃ w',
    at24c256_read (Some bench_dev) 98 (Some (replicate 12 7)) 8 bench_stored
    = Ret (AT24C256_OK, Some ([255; 255; 1; 2; 3; 4; 5; 255] ++ [7; 7; 7; 7])) w'
    ∧ cells w' = cells bench_stored.
Proof.
  destruct (read_changes_neither_array_nor_tail (Some bench_dev) 98 8
              (Some (replicate 12 7)) bench_stored)
    as (r & b & w' & Hrun & _ & Hcells & _).
  - lia.
  - intros buf [= <-]. unfold len. simpl. lia.
  - assert (Some (r, b)
            = Some (AT24C256_OK,
                    Some ([255; 255; 1; 2; 3; 4; 5; 255] ++ [7; 7; 7; 7]))) as Hvalue.
    { change (Some (r, b)) with (value (Ret (r, b) w')).
      rewrite <- Hrun. vm_compute. reflexivity. }
    injection Hvalue as -> ->.
    exists w'. split; [exact Hrun | exact Hcells].
Defined.

(** ** Opening the device *)

(** The side conditions of the cases of [at24c256_init]. *)
Ltac init_case :=
  try done;
  try (intros _; split; [done | first [by left | by right]]);
  try (intros _; eexists; split; [reflexivity | done]);
  try (simpl; intuition (first [congruence | discriminate])).

(** [at24c256_init] with a configuration returns, touches neither the
    array nor the link's data path (nothing is logged), and gives a
    handle exactly when it reports success: the handle is initialized,
    carries the configuration, and [at24c256_get_info] hands the same
    configuration back. It reports success exactly when the allocation,
    the [open] of the bus device and the [ioctl] that selects the slave
    all succeed. When the allocation fails the error is the memory one
    and neither the bus device nor the link is touched; when the
    allocation succeeds and the [open] or the [ioctl] fails the error
    is the initialization one, and after a failed [open] no [ioctl] is
    attempted. Without a configuration the call is a parameter error
    that does nothing. *)
Theorem init_gives_the_configured_handle (cfg : at24c256_config_t) (w : world) :
  at24c256_init None w = Ret (AT24C256_ERROR_PARAM, None) w
  ∧ ∃ r h w1,
      at24c256_init (Some cfg) w = Ret (r, h) w1
      ∧ later w w1 ∧ cells w1 = cells w ∧ log w1 = log w
      ∧ (r = AT24C256_OK →
         ∃ dev, h = Some dev ∧ initialized dev = true ∧ config dev = cfg
                ∧ 0 ≤ fd dev
                ∧ ∀ w2, at24c256_get_info h true w2 = Ret (AT24C256_OK, Some cfg) w2)
      ∧ (r ≠ AT24C256_OK →
         h = None ∧ (r = AT24C256_ERROR_MEMORY ∨ r = AT24C256_ERROR_INIT))
      ∧ (r = AT24C256_OK ↔
         (pop (heap w)).1 = true ∧ (pop (fs w)).1 = true ∧ (pop (link w)).1 = true)
      ∧ (r = AT24C256_ERROR_MEMORY ↔ (pop (heap w)).1 = false)
      ∧ (r = AT24C256_ERROR_INIT ↔
         (pop (heap w)).1 = true
         ∧ ((pop (fs w)).1 = false ∨ (pop (link w)).1 = false))
      ∧ (r = AT24C256_ERROR_MEMORY → fs w1 = fs w ∧ link w1 = link w)
      ∧ ((pop (fs w)).1 = false → link w1 = link w)
      ∧ (reliable w → provided w → r = AT24C256_OK).
Proof.
  split; [done |].
  unfold at24c256_init, sys_malloc, bind.
  destruct (pop (heap w)) as [[|] rest] eqn:Hheap; cbn [negb fst].
  2:{ eexists _, _, _. split; [reflexivity |].
      split; [by eapply later_set_heap |].
      split_and!; init_case.
      intros Hrel [Hh _]. destruct (pop_spec _ _ _ Hheap) as [_ Hp].
      by specialize (Hp Hh). }
  set (w1 := set_heap rest w).
  assert (later w w1) as L1 by (by eapply later_set_heap).
  unfold sys_open.
  change (fs w1) with (fs w).
  destruct (pop (fs w)) as [[|] rest'] eqn:Hfs;
    [change (3 <? 0) with false | change (-1 <? 0) with true]; cbv iota.
  2:{ eexists _, _, _. split; [reflexivity |].
      split; [eapply later_trans; [exact L1 |]; by eapply later_set_fs |].
      split_and!; init_case.
      intros _ [_ Hf]. destruct (pop_spec _ _ _ Hfs) as [_ Hp].
      by specialize (Hp Hf). }
  set (w2 := set_fs rest' w1).
  assert (later w w2) as L2.
  { eapply later_trans; [exact L1 |]. by eapply later_set_fs. }
  unfold sys_ioctl_slave.
  change (link w2) with (link w).
  destruct (pop (link w)) as [[|] rest''] eqn:Hlink;
    [change (0 <? 0) with false | change (-1 <? 0) with true]; cbv iota.
  - eexists _, _, _. split; [reflexivity |].
    split; [eapply later_trans; [exact L2 |]; by eapply (later_set_link _ _ true) |].
    split_and!; init_case.
  - eexists _, _, _. split; [reflexivity |].
    split; [eapply later_trans; [exact L2 |]; by eapply (later_set_link _ _ false) |].
    split_and!; init_case.
    intros Hrel _. destruct (pop_spec _ _ _ Hlink) as [_ Hp].
    by specialize (Hp Hrel).
Qed.

(** ** What a write leaves behind *)

Lemma peek_splice_outside a d cs p :
  0 ≤ a → a + len d ≤ len cs → 0 ≤ p →
  p < a ∨ a + len d ≤ p →
  peek (splice a d cs) p = peek cs p.
Proof.
  unfold len. intros Ha Hfit Hp Hout. unfold peek, splice. f_equal.
  destruct Hout as [Hlow | Hhigh].
  - rewrite lookup_app_l by (rewrite length_take; lia).
    apply lookup_take_lt. lia.
  - rewrite lookup_app_r by (rewrite length_take; lia).
    rewrite length_take, lookup_app_r by lia.
    rewrite lookup_drop. f_equal. lia.
Qed.

(** Where sending the chunks stops: the chunks before the one that was
    not acknowledged are in the array, whole; nothing of the others
    is. *)
Lemma send_chunks_stops dev a d cs :
  chunking (page_size (config dev)) a d cs →
  ∀ w r w',
    0 < page_size (config dev) → 0 < dev_page w →
    (page_size (config dev) | dev_page w) →
    len (cells w) ≤ 65536 →
    0 ≤ a → a + len d ≤ len (cells w) →
    send_chunks dev cs w = Ret r w' →
    ∃ j, (j ≤ length cs)%nat
         ∧ cells w' = splice a (concat (map snd (take j cs))) (cells w)
         ∧ (r = AT24C256_OK → j = length cs)
         ∧ (r ≠ AT24C256_OK →
            ∃ c, cs !! j = Some c
                 ∧ log w' = log w
                     ++ chunk_events (write_delay_ms (config dev)) (take j cs)
                     ++ [I2cWrite (addr_bytes (fst c) ++ snd c) false]).
Proof.
  induction 1 as [a | a d n cs Hlen Hn Hrest IH];
    intros w r w' Hps Hpage Hdiv Hcap Ha Hfit Hrun.
  - exists 0%nat. simpl in Hrun. inversion Hrun; subst.
    rewrite splice_nil. split_and!; done.
  - destruct (chunk_size_bounds _ Hps a d Hlen) as [Hn1 Hn2]. rewrite <- Hn in Hn1, Hn2.
    rewrite send_chunks_cons in Hrun.
    destruct (sys_write_cases (fd dev) (addr_bytes a ++ take (Z.to_nat n) d) w)
      as [(rest & Hpop & Hw) | (rest & Hpop & Hbad & Hw)]; rewrite Hw in Hrun; clear Hw.
    + assert ((len (addr_bytes a ++ take (Z.to_nat n) d)
               =? len (take (Z.to_nat n) d) + 2) = true) as Hacc.
      { apply Z.eqb_eq. rewrite len_app. unfold addr_bytes, len. simpl. lia. }
      rewrite Hacc in Hrun. simpl negb in Hrun. cbv iota in Hrun.
      set (w1 := emit (Usleep _) _) in Hrun.
      assert (cells w1 = splice a (take (Z.to_nat n) d) (cells w)) as Hcells.
      { subst w1. rewrite !cells_emit, cells_set_link.
        apply chip_write_cells; rewrite ?len_take by lia; try lia.
        apply (fits_device_page (page_size (config dev))); try done; lia. }
      assert (log w1 = log w ++ [I2cWrite (addr_bytes a ++ take (Z.to_nat n) d) true;
                                 Usleep (write_delay_ms (config dev) * 1000)]) as Hlog.
      { subst w1. rewrite !log_emit, log_set_link.
        destruct (chip_write_frame (addr_bytes a ++ take (Z.to_nat n) d) w)
          as (_ & _ & _ & _ & ->).
        by rewrite <- (assoc app). }
      assert (later w w1) as Hw1.
      { eapply later_trans; [by apply later_sys_write_acked | apply later_emit]. }
      destruct Hw1 as (Hp1 & Hc1 & _).
      destruct (IH w1 r w') as (j & Hj & Hcells' & Hok & Hko); try done.
      * by rewrite Hp1.
      * by rewrite Hp1.
      * unfold len in *. rewrite Hc1. lia.
      * lia.
      * unfold len in Hfit |- *. rewrite Hc1. rewrite length_drop. unfold len in *. lia.
      * exists (S j). split; [simpl; lia |]. split.
        -- rewrite Hcells', Hcells. simpl take. simpl map. simpl concat.
           rewrite <- (len_take d n) at 1 by lia.
           apply splice_splice; [done |].
           rewrite len_take by lia.
           assert (len (concat (map snd (take j cs))) ≤ len (drop (Z.to_nat n) d)).
           { pose proof (chunking_concat _ _ _ _ Hrest) as Hcat.
             assert (concat (map snd cs)
                     = concat (map snd (take j cs)) ++ concat (map snd (drop j cs))) as Hsplit.
             { by rewrite <- concat_app, <- map_app, take_drop. }
             rewrite <- Hcat, Hsplit, len_app.
             pose proof (len_nonneg (concat (map snd (drop j cs)))). lia. }
           rewrite len_drop in * by lia. lia.
        -- split; [intros Hr; simpl; by rewrite (Hok Hr) |].
           intros Hr. destruct (Hko Hr) as (c & Hc & Hl).
           exists c. split; [done |]. rewrite Hl, Hlog. simpl.
           by rewrite <- !(assoc app).
    + assert ((-1 =? len (take (Z.to_nat n) d) + 2) = false) as Hrej.
      { apply Z.eqb_neq. pose proof (len_nonneg (take (Z.to_nat n) d)). lia. }
      rewrite Hrej in Hrun. simpl in Hrun. inversion Hrun; subst.
      exists 0%nat. rewrite splice_nil. simpl.
      split; [lia |]. split; [done |]. split; [done |].
      intros _. eexists. split; [reflexivity |]. done.
Qed.

(** A write on an attached device touches nothing outside its range,
    whether it succeeds or not, and keeps the length of the array. *)
Theorem write_changes_only_its_range
    (dev : at24c256_dev_s) (address : Z) (data : list Z) (w : world) :
  attached dev w →
  valid_range dev address (len data) →
  ∃ r w',
    at24c256_write (Some dev) address (Some data) (len data) w = Ret r w'
    ∧ length (cells w') = length (cells w)
    ∧ (∀ p, 0 ≤ p → p < address ∨ address + len data ≤ p →
         peek (cells w') p = peek (cells w) p)
    ∧ (∀ a n, 0 ≤ a → 0 ≤ n → a + n ≤ address ∨ address + len data ≤ a →
         slice a n (cells w') = slice a n (cells w)).
Proof.
  intros Hdev Hrange.
  destruct (write_run dev address data w Hdev Hrange)
    as (r & w' & k & Hrun & _ & Hlater & _ & _ & Hk & Hcells & _).
  pose proof Hdev as (_ & _ & _ & _ & Htot & _).
  pose proof Hrange as ([Ha _] & _ & _ & Hfit).
  assert (address + len (take (Z.to_nat k) data) ≤ len (cells w)) as Hroom.
  { rewrite len_take by lia. lia. }
  exists r, w'. split; [done |].
  split; [by destruct Hlater as (_ & ? & _) |].
  split.
  - intros p Hp Hout. rewrite Hcells.
    apply peek_splice_outside; try done.
    rewrite len_take by lia. lia.
  - intros a n Ha0 Hn Hout. rewrite Hcells.
    destruct Hout as [Hbelow | Habove].
    + apply slice_take_eq; try done. apply take_splice_below; [lia | done].
    + unfold slice. f_equal. unfold splice.
      rewrite len_take in Hroom by lia.
      assert (length (take (Z.to_nat k) data) = Z.to_nat k) as Hlk.
      { rewrite length_take. unfold len in *. lia. }
      rewrite drop_app_ge by (rewrite length_take; unfold len in *; lia).
      rewrite length_take.
      rewrite drop_app_ge by (unfold len in *; lia).
      rewrite drop_drop. rewrite Hlk. f_equal. unfold len in *. lia.
Qed.

Lemma write_changes_only_its_range_witness :
  ∃ r w',
    at24c256_write (Some bench_dev) 60
      (Some [1; 2; 3; 4; 5; 6; 7; 8; 9; 10; 11; 12; 13; 14; 15; 16])
      (len [1; 2; 3; 4; 5; 6; 7; 8; 9; 10; 11; 12; 13; 14; 15; 16]) bench_glitch
    = Ret r w'
    ∧ length (cells w') = length (cells bench_glitch)
    ∧ (∀ p, 0 ≤ p →
         p < 60 ∨ 60 + len [1; 2; 3; 4; 5; 6; 7; 8; 9; 10; 11; 12; 13; 14; 15; 16] ≤ p →
         peek (cells w') p = peek (cells bench_glitch) p)
    ∧ (∀ a n, 0 ≤ a → 0 ≤ n →
         a + n ≤ 60 ∨ 60 + len [1; 2; 3; 4; 5; 6; 7; 8; 9; 10; 11; 12; 13; 14; 15; 16] ≤ a →
         slice a n (cells w') = slice a n (cells bench_glitch)).
Proof.
  apply (write_changes_only_its_range bench_dev 60
           [1; 2; 3; 4; 5; 6; 7; 8; 9; 10; 11; 12; 13; 14; 15; 16] bench_glitch).
  - exact bench_glitch_attached.
  - unfold valid_range, is_u16. simpl. unfold len. simpl. lia.
Defined.

(** A write that fails stops at the chunk that was not acknowledged:
    the chunks before it are in the array, whole and in place, the
    failing chunk was sent once and is not retried, and nothing of it
    or of the chunks after it is written. *)
Theorem failed_write_keeps_whole_chunks
    (dev : at24c256_dev_s) (address : Z) (data : list Z) (w w' : world) :
  attached dev w →
  valid_range dev address (len data) →
  at24c256_write (Some dev) address (Some data) (len data) w
    = Ret AT24C256_ERROR_WRITE w' →
  ∃ cs j c,
    chunking (page_size (config dev)) address data cs
    ∧ cs !! j = Some c
    ∧ cells w' = splice address (concat (map snd (take j cs))) (cells w)
    ∧ log w' = log w
               ++ chunk_events (write_delay_ms (config dev)) (take j cs)
               ++ [I2cWrite (addr_bytes (fst c) ++ snd c) false]
    ∧ concat (map snd (take j cs)) ++ concat (map snd (drop j cs)) = data
    ∧ ¬ reliable w.
Proof.
  intros Hdev Hrange Hrun.
  pose proof Hdev as (Hflag & Hps & Hpage & Hdiv & Htot & Hcap).
  destruct (write_accepted dev address data w) as (cs & Hcs & Hsend); try done; [lia |].
  rewrite Hsend in Hrun.
  destruct Hrange as ([Ha _] & _ & _ & Hfit).
  destruct (send_chunks_stops dev address data cs Hcs w AT24C256_ERROR_WRITE w')
    as (j & _ & Hcells & _ & Hko); try done; try lia.
  destruct Hko as (c & Hc & Hlog); [done |].
  exists cs, j, c. split_and!; try done.
  - rewrite <- concat_app, <- map_app, take_drop.
    eapply chunking_concat. exact Hcs.
  - intros Hrel.
    destruct (send_chunks_run dev cs w) as (r & w'' & Hrun' & _ & _ & _ & _ & Hok & _).
    rewrite Hrun in Hrun'. inversion Hrun'; subst. by specialize (Hok Hrel).
Qed.

Lemma failed_write_keeps_whole_chunks_witness :
  ∃ cs j c,
    chunking (page_size (config bench_dev)) 60
      [1; 2; 3; 4; 5; 6; 7; 8; 9; 10; 11; 12; 13; 14; 15; 16] cs
    ∧ cs !! j = Some c
    ∧ cells (after (at24c256_write (Some bench_dev) 60
                      (Some [1; 2; 3; 4; 5; 6; 7; 8; 9; 10; 11; 12; 13; 14; 15; 16]) 16
                      bench_glitch) bench_glitch)
      = splice 60 (concat (map snd (take j cs))) (cells bench_glitch)
    ∧ log (after (at24c256_write (Some bench_dev) 60
                    (Some [1; 2; 3; 4; 5; 6; 7; 8; 9; 10; 11; 12; 13; 14; 15; 16]) 16
                    bench_glitch) bench_glitch)
      = log bench_glitch
        ++ chunk_events (write_delay_ms (config bench_dev)) (take j cs)
        ++ [I2cWrite (addr_bytes (fst c) ++ snd c) false]
    ∧ concat (map snd (take j cs)) ++ concat (map snd (drop j cs))
      = [1; 2; 3; 4; 5; 6; 7; 8; 9; 10; 11; 12; 13; 14; 15; 16]
    ∧ ¬ reliable bench_glitch.
Proof.
  apply (failed_write_keeps_whole_chunks bench_dev 60
           [1; 2; 3; 4; 5; 6; 7; 8; 9; 10; 11; 12; 13; 14; 15; 16] bench_glitch).
  - exact bench_glitch_attached.
  - unfold valid_range, is_u16. simpl. unfold len. simpl. lia.
  - vm_compute. reflexivity.
Defined.

(** ** Waiting for the device *)

Lemma slept_app l1 l2 : slept (l1 ++ l2) = slept l1 + slept l2.
Proof.
  induction l1 as [| e l1 IH]; [done |].
  destruct e; simpl; rewrite IH; lia.
Qed.

(** The elapsed time as [internal_wait_ready] computes it from the
    seconds and the nanoseconds of the two clock readings. *)
Lemma elapsed_ms_exact s i :
  ((s + 1000 * i) / 1000000 - s / 1000000) * 1000
  + Z.quot ((s + 1000 * i) mod 1000000 * 1000 - s mod 1000000 * 1000) 1000000 = i.
Proof.
  pose proof (Z.div_mod s 1000000 ltac:(lia)) as H1.
  pose proof (Z.div_mod (s + 1000 * i) 1000000 ltac:(lia)) as H2.
  set (q := s / 1000000) in *. set (r := s mod 1000000) in *.
  set (q' := (s + 1000 * i) / 1000000) in *.
  set (r' := (s + 1000 * i) mod 1000000) in *.
  replace (r' * 1000 - r * 1000) with ((i - 1000 * (q' - q)) * 1000000) by lia.
  rewrite Z.quot_mul by lia. lia.
Qed.

Lemma poll_events_succ n last :
  poll_events (S n) last = [I2cRead 1 false; Usleep 1000] ++ poll_events n last.
Proof. done. Qed.

Lemma wait_loop_run dev start timeout_ms : ∀ fuel i w,
  0 ≤ i ≤ timeout_ms →
  slept (log w) = start + 1000 * i →
  (Z.to_nat (timeout_ms - i) + 1 ≤ fuel)%nat →
  ∃ w',
    wait_loop fuel dev start timeout_ms w
    = Ret (if Z.of_nat (silent (link w)) <=? timeout_ms - i
           then AT24C256_OK else AT24C256_ERROR_TIMEOUT) w'
    ∧ log w' = log w
               ++ poll_events
                    (Z.to_nat (Z.min (Z.of_nat (silent (link w))) (timeout_ms - i)))
                    (Z.of_nat (silent (link w)) <=? timeout_ms - i)
    ∧ cells w' = cells w.
Proof.
  induction fuel as [| fuel IH]; intros i w Hi Hclock Hfuel; [lia |].
  simpl wait_loop. unfold bind at 1. unfold sys_read.
  destruct (link w) as [| [|] rest] eqn:Hlink; cbn [pop silent].
  - destruct (fetch (cells w) (cursor w) (Z.to_nat 1)) as [bs q].
    cbn [fst]. change (1 >=? 0) with true. cbv iota. unfold ret.
    destruct (Z.leb_spec (Z.of_nat 0) (timeout_ms - i)); [| lia].
    eexists. split; [reflexivity |].
    rewrite log_emit. split; [| done].
    by replace (Z.to_nat (Z.min (Z.of_nat 0) (timeout_ms - i))) with 0%nat by lia.
  - destruct (fetch (cells w) (cursor w) (Z.to_nat 1)) as [bs q].
    cbn [fst]. change (1 >=? 0) with true. cbv iota. unfold ret.
    destruct (Z.leb_spec (Z.of_nat 0) (timeout_ms - i)); [| lia].
    eexists. split; [reflexivity |].
    rewrite log_emit. split; [| done].
    by replace (Z.to_nat (Z.min (Z.of_nat 0) (timeout_ms - i))) with 0%nat by lia.
  - cbn [fst]. change (-1 >=? 0) with false. cbv iota.
    set (w1 := emit (I2cRead 1 false) (set_link rest w)).
    unfold bind at 1. unfold clock_gettime.
    assert (slept (log w1) = start + 1000 * i) as Hclock1.
    { subst w1. rewrite log_emit, log_set_link, slept_app. simpl. lia. }
    rewrite Hclock1, elapsed_ms_exact.
    destruct (Z.geb_spec i timeout_ms) as [Hout | Hin].
    + unfold ret. assert (i = timeout_ms) as -> by lia.
      rewrite Z.sub_diag.
      destruct (Z.leb_spec (Z.of_nat (S (silent rest))) 0); [lia |].
      eexists. split; [reflexivity |]. split; [| done].
      replace (Z.to_nat (Z.min (Z.of_nat (S (silent rest))) 0)) with 0%nat by lia.
      done.
    + unfold bind at 1. unfold usleep.
      set (w2 := emit (Usleep 1000) w1).
      destruct (IH (i + 1) w2) as (w' & Hrun & Hlog & Hcells).
      * lia.
      * subst w2. rewrite log_emit, slept_app, Hclock1. simpl. lia.
      * lia.
      * assert (link w2 = rest) as Hl2 by done. rewrite Hl2 in Hrun, Hlog.
        exists w'. split.
        { rewrite Hrun. f_equal.
          destruct (Z.leb_spec (Z.of_nat (silent rest)) (timeout_ms - (i + 1)));
            destruct (Z.leb_spec (Z.of_nat (S (silent rest))) (timeout_ms - i));
            try done; lia. }
        split; [| by rewrite Hcells].
        rewrite Hlog.
        assert (log w2 = log w ++ [I2cRead 1 false; Usleep 1000]) as ->.
        { subst w2 w1. rewrite !log_emit, log_set_link. by rewrite <- (assoc app). }
        rewrite <- (assoc app). f_equal.
        replace (Z.to_nat (Z.min (Z.of_nat (S (silent rest))) (timeout_ms - i)))
          with (S (Z.to_nat (Z.min (Z.of_nat (silent rest)) (timeout_ms - (i + 1)))))
          by lia.
        rewrite poll_events_succ. do 2 f_equal.
        destruct (Z.leb_spec (Z.of_nat (silent rest)) (timeout_ms - (i + 1)));
          destruct (Z.leb_spec (Z.of_nat (S (silent rest))) (timeout_ms - i));
          try done; lia.
Qed.

(** With time advancing by the program's own sleeps,
    [at24c256_wait_ready] on an initialized handle polls the device with
    one-byte reads a millisecond apart: it returns success at the first
    read the device answers and the timeout error once [timeout_ms]
    milliseconds were slept without an answer, so after at most
    [timeout_ms + 1] reads. It never changes the array. *)
Theorem wait_ready_polls_until_answer_or_timeout
    (dev : at24c256_dev_s) (timeout_ms : Z) (w : world) :
  initialized dev = true →
  0 ≤ timeout_ms →
  ∃ w',
    at24c256_wait_ready (Some dev) timeout_ms w
    = Ret (if Z.of_nat (silent (link w)) <=? timeout_ms
           then AT24C256_OK else AT24C256_ERROR_TIMEOUT) w'
    ∧ log w' = log w
               ++ poll_events
                    (Z.to_nat (Z.min (Z.of_nat (silent (link w))) timeout_ms))
                    (Z.of_nat (silent (link w)) <=? timeout_ms)
    ∧ cells w' = cells w.
Proof.
  intros Hflag Htime. unfold at24c256_wait_ready. rewrite Hflag. cbn [negb].
  unfold internal_wait_ready, bind, clock_gettime.
  destruct (wait_loop_run dev (slept (log w)) timeout_ms
              (Z.to_nat timeout_ms + 2) 0 w) as (w' & Hrun & Hlog & Hcells);
    [lia | lia | lia |].
  rewrite Z.sub_0_r in *. by exists w'.
Qed.

(** A device that answers the third poll is ready after two sleeps of
    a millisecond; one that does not answer within two milliseconds
    times out at the third poll. *)
Lemma wait_ready_polls_until_answer_or_timeout_witness :
  (∃ w',
     at24c256_wait_ready (Some bench_dev) 5 bench_late = Ret AT24C256_OK w'
     ∧ log w' = [ I2cRead 1 false; Usleep 1000; I2cRead 1 false; Usleep 1000;
                  I2cRead 1 true ])
  ∧ (∃ w',
       at24c256_wait_ready (Some bench_dev) 2 bench_mute
       = Ret AT24C256_ERROR_TIMEOUT w'
       ∧ log w' = [ I2cRead 1 false; Usleep 1000; I2cRead 1 false; Usleep 1000;
                    I2cRead 1 false ]).
Proof.
  split.
  - destruct (wait_ready_polls_until_answer_or_timeout bench_dev 5 bench_late)
      as (w' & Hrun & Hlog & _); [reflexivity | lia |].
    exists w'. split; [exact Hrun | exact Hlog].
  - destruct (wait_ready_polls_until_answer_or_timeout bench_dev 2 bench_mute)
      as (w' & Hrun & Hlog & _); [reflexivity | lia |].
    exists w'. split; [exact Hrun | exact Hlog].
Defined.

(** ** The structures as bytes *)

Lemma of_le16_le16 x : is_u16 x → of_le16 (le16 x) = x.
Proof.
  intros Hx. unfold of_le16, le16. simpl.
  pose proof (addr_bytes_value x Hx). lia.
Qed.

Lemma header_of_bytes_header_bytes h :
  length (magic h) = 4%nat → length (reserved h) = 8%nat →
  is_u16 (hdr_total_size h) →
  header_of_bytes (header_bytes h) = h.
Proof.
  destruct h as [m v c t r]. simpl. intros Hm Hr Ht.
  do 5 (destruct m as [| ? m]; try done).
  do 9 (destruct r as [| ? r]; try done).
  unfold header_of_bytes, header_bytes. simpl.
  f_equal. apply (of_le16_le16 t Ht).
Qed.

Lemma byte_of_ascii_pos c :
  c ≠ Ascii.zero → 0 < Z.of_N (N_of_ascii c) < 256.
Proof.
  intros Hc. pose proof (N_ascii_bounded c).
  assert (N_of_ascii c ≠ 0%N); [| lia].
  intros H0. apply Hc. rewrite <- (ascii_N_embedding c), H0. done.
Qed.

Lemma c_string_bytes s rest :
  Forall (λ c, c ≠ Ascii.zero) (list_ascii_of_string s) →
  c_string (bytes_of_string s ++ 0 :: rest) = s.
Proof.
  induction s as [| c s IH]; intros Hs; [done |].
  simpl in Hs. apply Forall_cons in Hs as [Hc Hs].
  unfold bytes_of_string. simpl.
  pose proof (byte_of_ascii_pos c Hc).
  destruct (Z.eqb_spec (Z.of_N (N_of_ascii c)) 0); [lia |].
  rewrite N2Z.id, ascii_N_embedding. f_equal. by apply IH.
Qed.

Lemma length_bytes_of_string s : length (bytes_of_string s) = String.length s.
Proof.
  unfold bytes_of_string. rewrite length_map.
  induction s as [| c s IH]; [done |]. simpl. by rewrite IH.
Qed.

Lemma file_index_of_bytes_file_index_bytes f pad :
  well_formed f → file_index_of_bytes (file_index_bytes f pad) = f.
Proof.
  destruct f as [name a n c]. intros ([Hlen Hnul] & Ha & Hn). simpl in *.
  unfold file_index_of_bytes, file_index_bytes. simpl filename. simpl address.
  simpl size. simpl checksum.
  assert (length (take 64 (bytes_of_string name ++ replicate 64 0)) = 64%nat) as Hl.
  { rewrite length_take, length_app, length_replicate. lia. }
  set (field := take 64 (bytes_of_string name ++ replicate 64 0)) in *.
  rewrite take_app_length' by done.
  rewrite drop_app_length' by done.
  replace 66%nat with (64 + 2)%nat by done.
  rewrite <- drop_drop, drop_app_length' by done.
  replace 68%nat with (64 + 4)%nat by done.
  rewrite lookup_app_r, Hl by lia.
  f_equal.
  - subst field.
    rewrite take_app_ge by (rewrite length_bytes_of_string; lia).
    rewrite length_bytes_of_string.
    destruct (64 - String.length name)%nat as [| k] eqn:Hk; [lia |].
    simpl. by apply c_string_bytes.
  - by apply of_le16_le16.
  - by apply of_le16_le16.
Qed.

(** ** What the checksum does not see *)






(** ** Reading the directory *)

Lemma log_set_chip cs p w : log (set_chip cs p w) = log w.
Proof. done. Qed.

(** A read on a link without faults: the two transactions it makes. *)
Lemma read_run_reliable dev a n buf w :
  attached dev w → valid_range dev a n → n ≤ len buf → reliable w →
  ∃ w',
    at24c256_read (Some dev) a (Some buf) n w
    = Ret (AT24C256_OK, Some (slice a n (cells w) ++ drop (Z.to_nat n) buf)) w'
    ∧ later w w'
    ∧ cells w' = cells w
    ∧ log w' = log w ++ [I2cWrite (addr_bytes a) true; I2cRead n true].
Proof.
  intros Hdev Hrange Hbuf Hrel.
  pose proof Hdev as (Hflag & Hps & Hpage & Hdiv & Htot & Hcap).
  pose proof Hrange as (Ha & Hn & Hpos & Hfit).
  rewrite read_unfold by (by apply check_address_length_ok).
  destruct (sys_write_cases (fd dev) (addr_bytes a) w)
    as [(rest & Hpop & ->) | (rest & Hpop & Hbad & ->)]; [| done].
  change (len (addr_bytes a) =? 2) with true. simpl negb. cbv iota.
  set (w1 := emit _ _).
  assert (later w w1) as Hw1 by (by apply later_sys_write_acked).
  destruct (chip_write_address a w) as [Hcells Hcursor]; [unfold is_u16 in *; lia | done |].
  destruct (chip_write_frame (addr_bytes a) w) as (_ & _ & _ & _ & Flog).
  destruct (sys_read_cases (fd dev) n w1)
    as [(rest' & bs & q & Hpop' & Hfetch & ->) | (rest' & Hpop' & Hbad & ->)].
  2:{ exfalso. apply Hbad. by eapply later_reliable. }
  simpl fst. rewrite Z.eqb_refl. simpl negb. cbv iota.
  destruct (Z.ltb_spec (len buf) n); [lia |].
  eexists. split.
  { simpl snd. do 4 f_equal.
    change bs with (bs, q).1. rewrite <- Hfetch.
    subst w1. rewrite !cells_emit, !cells_set_link, cursor_emit, cursor_set_link.
    rewrite Hcells, Hcursor.
    apply fetch_slice; unfold is_u16 in *; lia. }
  split.
  { eapply later_trans; [exact Hw1 |].
    eapply later_trans; [apply (later_set_chip_cursor q) |].
    eapply later_trans; [| apply later_emit].
    by apply (later_set_link _ rest' true). }
  split; [done |].
  rewrite log_emit, log_set_link, log_set_chip. subst w1.
  rewrite log_emit, log_set_link, Flog. by rewrite <- (assoc app).
Qed.

Lemma index_entries_succ cs n :
  index_entries cs (S n)
  = index_entries cs n
    ++ [file_index_of_bytes
          (slice (sizeof_index_header_t + sizeof_file_index_t * Z.of_nat n)
                 sizeof_file_index_t cs)].
Proof. unfold index_entries. by rewrite seq_S, map_app. Qed.

(** The loop of [read_file_index] over the entries, from the [k]-th
    on. *)
Lemma read_entries_run dev : ∀ n k w,
  attached dev w →
  16 + 70 * (Z.of_nat k + Z.of_nat n) ≤ total_size (config dev) →
  16 + 70 * (Z.of_nat k + Z.of_nat n) < 65536 →
  ∃ rc files w',
    read_entries (Some dev) n (16 + 70 * Z.of_nat k) (index_entries (cells w) k) w
    = Ret (rc, files) w'
    ∧ later w w'
    ∧ cells w' = cells w
    ∧ (rc = 0 ∨ rc = -1)
    ∧ (rc = 0 → files = index_entries (cells w) (k + n))
    ∧ (reliable w → rc = 0).
Proof.
  induction n as [| n IH]; intros k w Hdev Hfit Hcap.
  - exists 0, (index_entries (cells w) k), w. simpl. unfold ret.
    rewrite Nat.add_0_r. split_and!; auto using later_refl.
  - simpl read_entries.
    assert (valid_range dev (16 + 70 * Z.of_nat k) sizeof_file_index_t) as Hrange.
    { unfold valid_range, is_u16, sizeof_file_index_t. lia. }
    destruct (read_run dev (16 + 70 * Z.of_nat k) sizeof_file_index_t
                (replicate (Z.to_nat sizeof_file_index_t) 0) w Hdev Hrange)
      as (r & b & w1 & Hread & L1 & _ & _ & C1 & Hres & Hok); [done |].
    rewrite (bind_run _ _ _ _ _ Hread). cbn [fst snd].
    destruct Hres as [[-> ->] | [-> ->]].
    + change (negb (err_eqb AT24C256_OK AT24C256_OK)) with false. cbv iota.
      simpl default.
      change (drop (Z.to_nat sizeof_file_index_t)
                (replicate (Z.to_nat sizeof_file_index_t) 0)) with (@nil Z).
      rewrite app_nil_r.
      change (slice (16 + 70 * Z.of_nat k) sizeof_file_index_t (cells w))
        with (slice (sizeof_index_header_t + sizeof_file_index_t * Z.of_nat k)
                    sizeof_file_index_t (cells w)).
      rewrite <- index_entries_succ.
      unfold sizeof_file_index_t at 1. rewrite u16_small by lia.
      replace (16 + 70 * Z.of_nat k + 70) with (16 + 70 * Z.of_nat (S k)) by lia.
      rewrite <- C1.
      destruct (IH (S k) w1) as (rc & files & w' & Hrun & L2 & C2 & Hrc & Hfiles & Hrel).
      * by eapply later_attached.
      * lia.
      * lia.
      * exists rc, files, w'. split; [done |].
        split; [by eapply later_trans |].
        split; [congruence |]. split; [done |].
        split.
        -- intros H0. rewrite (Hfiles H0). f_equal. lia.
        -- intros Hw. apply Hrel. by eapply later_reliable.
    + change (negb (err_eqb AT24C256_ERROR_READ AT24C256_OK)) with true. cbv iota.
      eexists _, _, _. unfold ret. split; [reflexivity |].
      split; [done |]. split; [done |]. split; [by right |].
      split; [done |]. intros Hw. by specialize (Hok Hw).
Qed.

Lemma read_file_index_run (dev : at24c256_dev_s) (w : world) :
  attached dev w →
  PAYLOAD_START ≤ total_size (config dev) →
  ∃ rc files w',
    read_file_index (Some dev) w = Ret (rc, files) w'
    ∧ later w w'
    ∧ cells w' = cells w
    ∧ (rc = 0 ∨ rc = -1)
    ∧ (rc = 0 →
       magic (index_header (cells w)) = CAM_MAGIC
       ∧ file_count (index_header (cells w)) ≤ MAX_FILES
       ∧ files = index_entries (cells w)
                   (Z.to_nat (file_count (index_header (cells w)))))
    ∧ (reliable w →
       (rc = 0 ↔ magic (index_header (cells w)) = CAM_MAGIC
                 ∧ file_count (index_header (cells w)) ≤ MAX_FILES)
       ∧ (rc = -1 →
          files = []
          ∧ log w' = log w ++ [I2cWrite (addr_bytes 0) true; I2cRead 16 true])).
Proof.
  intros Hdev Htotal.
  assert (PAYLOAD_START = 1136) as Hstart by done. rewrite Hstart in Htotal.
  pose proof Hdev as (_ & _ & _ & _ & Htot & Hcap).
  assert (valid_range dev EEPROM_START_ADDRESS sizeof_index_header_t) as Hrange.
  { unfold valid_range, is_u16, EEPROM_START_ADDRESS, sizeof_index_header_t. lia. }
  unfold read_file_index.
  destruct (read_run dev EEPROM_START_ADDRESS sizeof_index_header_t
              (replicate (Z.to_nat sizeof_index_header_t) 0) w Hdev Hrange)
    as (r & b & w1 & Hread & L1 & _ & _ & C1 & Hres & Hok); [done |].
  rewrite (bind_run _ _ _ _ _ Hread). cbn [fst snd].
  destruct Hres as [[-> ->] | [-> ->]].
  2:{ change (negb (err_eqb AT24C256_ERROR_READ AT24C256_OK)) with true. cbv iota.
      eexists _, _, _. unfold ret. split; [reflexivity |]. split; [done |].
      split; [done |]. split; [by right |]. split; [done |].
      intros Hw. by specialize (Hok Hw). }
  change (negb (err_eqb AT24C256_OK AT24C256_OK)) with false. cbv iota zeta.
  change (default [] (Some ?x)) with x.
  change (drop (Z.to_nat sizeof_index_header_t)
            (replicate (Z.to_nat sizeof_index_header_t) 0)) with (@nil Z).
  rewrite app_nil_r. fold (index_header (cells w)).
  assert (reliable w →
          log w1 = log w ++ [I2cWrite (addr_bytes 0) true; I2cRead 16 true]) as Hlog.
  { intros Hw.
    destruct (read_run_reliable dev EEPROM_START_ADDRESS sizeof_index_header_t
                (replicate (Z.to_nat sizeof_index_header_t) 0) w Hdev Hrange)
      as (w1' & Hread' & _ & _ & Hl); [done | done |].
    rewrite Hread in Hread'. by inversion Hread'; subst. }
  destruct (bool_decide (magic (index_header (cells w)) = CAM_MAGIC)) eqn:Hmagic;
    cbn [negb].
  2:{ apply bool_decide_eq_false in Hmagic.
      eexists _, _, _. unfold ret. split; [reflexivity |]. split; [done |].
      split; [done |]. split; [by right |].
      split; [done |].
      intros Hw. split; [split; [done | by intros [? _]] |].
      intros _. split; [done | by apply Hlog]. }
  apply bool_decide_eq_true in Hmagic.
  destruct (Z.gtb_spec (file_count (index_header (cells w))) MAX_FILES) as [Hmany | Hfew].
  { eexists _, _, _. unfold ret. split; [reflexivity |]. split; [done |].
    split; [done |]. split; [by right |].
    split; [done |].
    intros Hw. split; [split; [done | intros [_ ?]; lia] |].
    intros _. split; [done | by apply Hlog]. }
  change (u16 (EEPROM_START_ADDRESS + sizeof_index_header_t)) with (16 + 70 * Z.of_nat 0).
  change (@nil file_index_t) with (index_entries (cells w1) 0).
  unfold MAX_FILES in Hfew.
  destruct (read_entries_run dev (Z.to_nat (file_count (index_header (cells w)))) 0 w1)
    as (rc & files & w' & Hrun & L2 & C2 & Hrc & Hfiles & Hrel).
  { by eapply later_attached. }
  { lia. }
  { lia. }
  exists rc, files, w'. split; [done |]. split; [by eapply later_trans |].
  split; [congruence |]. split; [done |].
  split.
  { intros H0. split; [done |]. split; [done |].
    rewrite (Hfiles H0), C1. done. }
  intros Hw. assert (rc = 0) as -> by (apply Hrel; by eapply later_reliable).
  split; [done |]. done.
Qed.

(** The array the writer leaves after storing the two small blobs. *)
Lemma at24c256_written_attached : attached at24c256_dev at24c256_written.
Proof.
  unfold attached. split; [reflexivity |].
  split; [split; reflexivity |]. split; [reflexivity |].
  split; [exists 1; reflexivity |].
  split; vm_compute; discriminate.
Qed.

Lemma at24c256_written_reliable : reliable at24c256_written.
Proof.
  unfold reliable. replace (link at24c256_written) with (@nil bool)
    by (vm_compute; reflexivity).
  constructor.
Qed.

Lemma at24c256_written_provided : provided at24c256_written.
Proof.
  unfold provided.
  replace (heap at24c256_written) with (@nil bool) by (vm_compute; reflexivity).
  replace (fs at24c256_written) with (@nil bool) by (vm_compute; reflexivity).
  split; constructor.
Qed.

Lemma at24c256_written_header :
  magic (index_header (cells at24c256_written)) = CAM_MAGIC
  ∧ file_count (index_header (cells at24c256_written)) = 2.
Proof. split; vm_compute; reflexivity. Qed.

Lemma at24c256_written_entries :
  index_entries (cells at24c256_written)
    (Z.to_nat (file_count (index_header (cells at24c256_written))))
  = [ {| filename := "a.dat"; address := 1136; size := 3; checksum := 0 |};
      {| filename := "b.dat"; address := 1139; size := 2; checksum := 1 |} ].
Proof. vm_compute. reflexivity. Qed.

(** [read_file_index] returns what the array holds: it succeeds only on
    the magic "CAM\0" and a count of at most [MAX_FILES], and then gives
    the entries decoded from the array, one every [sizeof(file_index_t)]
    bytes after the header. On a link without faults it succeeds
    exactly then, and a header it rejects costs the one read of the
    header: no entry is read. It never changes the array. *)
Theorem read_file_index_decodes_the_array (dev : at24c256_dev_s) (w : world) :
  attached dev w →
  PAYLOAD_START ≤ total_size (config dev) →
  ∃ rc files w',
    read_file_index (Some dev) w = Ret (rc, files) w'
    ∧ cells w' = cells w
    ∧ (rc = 0 ∨ rc = -1)
    ∧ (rc = 0 →
       magic (index_header (cells w)) = CAM_MAGIC
       ∧ file_count (index_header (cells w)) ≤ MAX_FILES
       ∧ files = index_entries (cells w)
                   (Z.to_nat (file_count (index_header (cells w)))))
    ∧ (reliable w →
       (rc = 0 ↔ magic (index_header (cells w)) = CAM_MAGIC
                 ∧ file_count (index_header (cells w)) ≤ MAX_FILES)
       ∧ (rc = -1 →
          files = []
          ∧ log w' = log w ++ [I2cWrite (addr_bytes 0) true; I2cRead 16 true])).
Proof.
  intros Hdev Htotal.
  destruct (read_file_index_run dev w Hdev Htotal)
    as (rc & files & w' & Hrun & _ & Hrest).
  by exists rc, files, w'.
Qed.

(** From the array the writer left, the two entries are decoded. *)
Lemma read_file_index_decodes_the_array_witness :
  ∃ w',
    read_file_index (Some at24c256_dev) at24c256_written
    = Ret (0, [ {| filename := "a.dat"; address := 1136; size := 3; checksum := 0 |};
                {| filename := "b.dat"; address := 1139; size := 2; checksum := 1 |} ])
          w'
    ∧ cells w' = cells at24c256_written.
Proof.
  destruct (read_file_index_decodes_the_array at24c256_dev at24c256_written)
    as (rc & files & w' & Hrun & Hcells & _ & Hgot & Hrel).
  - exact at24c256_written_attached.
  - vm_compute. discriminate.
  - destruct at24c256_written_header as [Hmagic Hcount].
    destruct (Hrel at24c256_written_reliable) as [[_ Hback] _].
    assert (rc = 0) as ->.
    { apply Hback. split; [exact Hmagic |]. rewrite Hcount. vm_compute. discriminate. }
    destruct (Hgot eq_refl) as (_ & _ & ->).
    rewrite at24c256_written_entries in Hrun.
    exists w'. split; [exact Hrun | exact Hcells].
Defined.

(** ** The directory, written and read back *)

Lemma slice_splice_part a (pre mid post cs : list Z) :
  0 ≤ a → a + len (pre ++ mid ++ post) ≤ len cs →
  slice (a + len pre) (len mid) (splice a (pre ++ mid ++ post) cs) = mid.
Proof.
  unfold len. intros Ha Hfit. rewrite !length_app in Hfit.
  unfold slice, splice.
  replace (Z.to_nat (a + Z.of_nat (length pre)))
    with (length (take (Z.to_nat a) cs ++ pre)).
  2:{ rewrite length_app, length_take. lia. }
  rewrite <- !(assoc app), (assoc app (take _ cs) pre).
  rewrite drop_app_length.
  rewrite Nat2Z.id. by rewrite take_app_length.
Qed.

Lemma hdr_total_size_u16 files acc :
  is_u16 acc → is_u16 (fold_left (λ acc f, u16 (acc + size f)) files acc).
Proof.
  revert acc. induction files as [| f files IH]; intros acc Hacc; [done |].
  simpl. apply IH. unfold is_u16, u16. apply Z.mod_pos_bound. lia.
Qed.

Lemma header_for_round_trip files :
  header_of_bytes (header_bytes (header_for files)) = header_for files.
Proof.
  apply header_of_bytes_header_bytes; [done | done |].
  apply hdr_total_size_u16. unfold is_u16. lia.
Qed.

Lemma decode_entries cs : ∀ files k,
  Forall well_formed files →
  (∀ i f, files !! i = Some f →
     ∃ pad,
       slice (sizeof_index_header_t + sizeof_file_index_t * Z.of_nat (k + i))
             sizeof_file_index_t cs
       = file_index_bytes f pad) →
  map (λ i, file_index_of_bytes
              (slice (sizeof_index_header_t + sizeof_file_index_t * Z.of_nat i)
                     sizeof_file_index_t cs))
      (seq k (length files))
  = files.
Proof.
  induction files as [| f files IH]; intros k Hwf Hcs; [done |].
  apply Forall_cons in Hwf as [Hf Hwf]. simpl. f_equal.
  - destruct (Hcs 0%nat f eq_refl) as [pad Hpad].
    rewrite <- (Nat.add_0_r k), Hpad.
    by apply file_index_of_bytes_file_index_bytes.
  - apply IH; [done |]. intros i g Hg.
    replace (S k + i)%nat with (k + S i)%nat by lia. by apply Hcs.
Qed.

(** The directory of [files] laid over an array, as the reader's
    decoding sees it. *)
Lemma index_in_cells files pads cs :
  len files ≤ 16 →
  Forall well_formed files →
  length pads = length files →
  16 + 70 * len files ≤ len cs →
  index_header
    (splice 0 (header_bytes (header_for files) ++ entry_images files pads) cs)
  = header_for files
  ∧ file_count (header_for files) = len files
  ∧ index_entries
      (splice 0 (header_bytes (header_for files) ++ entry_images files pads) cs)
      (length files)
    = files.
Proof.
  intros Hcount Hwf Hpads Hroom.
  pose proof (len_nonneg files) as Hn0.
  set (H := header_bytes (header_for files)) in *.
  set (E := entry_images files pads) in *.
  assert (len H = 16) as HlenH by done.
  assert (len E = 70 * len files) as HlenE by (by apply len_entry_images).
  split; [| split].
  - unfold index_header.
    replace (slice EEPROM_START_ADDRESS sizeof_index_header_t (splice 0 (H ++ E) cs))
      with H; [apply header_for_round_trip |].
    symmetry.
    apply (slice_splice_part 0 [] H E cs); [lia |].
    change (0 + len (H ++ E) ≤ len cs). rewrite len_app. lia.
  - simpl. apply u8_small. lia.
  - unfold index_entries. apply decode_entries; [done |].
    intros i f Hi. simpl Nat.add.
    assert (i < length pads)%nat as Hip by (apply lookup_lt_Some in Hi; lia).
    destruct (lookup_lt_is_Some_2 pads i Hip) as [pad Hpad].
    exists pad.
    pose proof (take_drop_middle files i f Hi) as Hmid.
    pose proof (take_drop_middle pads i pad Hpad) as Hmidp.
    assert (E = entry_images (take i files) (take i pads)
                ++ file_index_bytes f pad
                ++ entry_images (drop (S i) files) (drop (S i) pads)) as HE.
    { subst E. unfold entry_images.
      rewrite <- Hmid at 1. rewrite <- Hmidp at 1.
      rewrite zip_with_app by (rewrite !length_take; lia).
      rewrite concat_app. done. }
    pose proof (slice_splice_part 0
                  (H ++ entry_images (take i files) (take i pads))
                  (file_index_bytes f pad)
                  (entry_images (drop (S i) files) (drop (S i) pads))
                  cs) as Hpart.
    rewrite <- (assoc app), <- HE in Hpart.
    rewrite !len_app, HlenH, HlenE, len_entry_images,
      len_file_index_bytes in Hpart by (rewrite !length_take; lia).
    assert (len (take i files) = Z.of_nat i) as Hli.
    { unfold len. rewrite length_take. apply lookup_lt_Some in Hi. lia. }
    rewrite Hli in Hpart.
    replace (sizeof_index_header_t + sizeof_file_index_t * Z.of_nat i)
      with (0 + (16 + 70 * Z.of_nat i)) by (unfold sizeof_index_header_t, sizeof_file_index_t; lia).
    apply Hpart; lia.
Qed.

(** What [write_file_index] wrote, [read_file_index] reads: on a link
    without faults, for at most [MAX_FILES] entries whose members hold
    their values, the directory is written and the reader gets back the
    same entries, in the same order; the header read back is the one the
    writer built, with the number of the entries as its count. *)
Theorem index_written_is_index_read
    (dev : at24c256_dev_s) (files : list file_index_t) (w : world) :
  attached dev w →
  config dev = AT24C256_DEFAULT_CONFIG →
  reliable w →
  len files ≤ MAX_FILES →
  Forall well_formed files →
  ∃ w1 w2,
    write_file_index (Some dev) files (len files) w = Ret 0 w1
    ∧ index_header (cells w1) = header_for files
    ∧ file_count (index_header (cells w1)) = len files
    ∧ read_file_index (Some dev) w1 = Ret (0, files) w2.
Proof.
  intros Hdev Hcfg Hrel Hcount Hwf. unfold MAX_FILES in Hcount.
  pose proof (len_nonneg files) as Hn0.
  destruct (write_file_index_run dev files w Hdev Hcfg Hcount)
    as (r & w1 & Hwrite & L1 & _ & _ & Hcells & Hok).
  rewrite (Hok Hrel) in *. destruct (Hcells eq_refl) as (pads & Hpads & _ & Hc).
  clear Hcells. rename Hc into Hcells.
  assert (attached dev w1) as Hdev1 by (by eapply later_attached).
  assert (reliable w1) as Hrel1 by (by eapply later_reliable).
  pose proof Hdev as (_ & _ & _ & _ & Htot & _).
  assert (total_size (config dev) = 32768) as Htotal by (by rewrite Hcfg).
  destruct (index_in_cells files pads (cells w) Hcount Hwf Hpads)
    as (Hheader & Hfc & Hentries); [lia |].
  rewrite <- Hcells in Hheader, Hentries.
  destruct (read_file_index_run dev w1 Hdev1)
    as (rc & got & w2 & Hread & _ & _ & _ & Hgot & Hrel').
  { rewrite Htotal. unfold PAYLOAD_START. done. }
  destruct (Hrel' Hrel1) as [[_ Hback] _].
  assert (rc = 0) as ->.
  { apply Hback. rewrite Hheader. split; [done |]. rewrite Hfc. unfold MAX_FILES. lia. }
  destruct (Hgot eq_refl) as (_ & _ & ->).
  exists w1, w2. split; [done |]. split; [done |].
  split; [by rewrite Hheader |].
  rewrite Hread. do 2 f_equal.
  rewrite Hheader, Hfc. unfold len. by rewrite Nat2Z.id.
Qed.

Lemma index_written_is_index_read_witness :
  ∃ w1 w2,
    write_file_index (Some at24c256_dev) bench_files (len bench_files) at24c256_blank
    = Ret 0 w1
    ∧ index_header (cells w1) = header_for bench_files
    ∧ file_count (index_header (cells w1)) = len bench_files
    ∧ read_file_index (Some at24c256_dev) w1 = Ret (0, bench_files) w2.
Proof.
  apply (index_written_is_index_read at24c256_dev bench_files at24c256_blank).
  - exact at24c256_attached.
  - reflexivity.
  - apply Forall_nil_2.
  - vm_compute. discriminate.
  - repeat constructor; simpl; try lia; try discriminate.
Defined.

(** ** Storing every blob *)

Lemma chosen_cons e entries :
  chosen (e :: entries) = if eligible e then e :: chosen entries else chosen entries.
Proof.
  unfold chosen. rewrite filter_cons.
  destruct (eligible e); [by rewrite decide_True | by rewrite decide_False].
Qed.

(** On a link without faults and with memory and files at hand, when
    the blobs taken up are not empty and fit the payload area, the loop
    of [process_camera_parameters] stores them all, one after the
    other, as long as the table has room. *)
Lemma process_loop_all_stored dev dir : ∀ entries cur files w,
  attached dev w →
  config dev = AT24C256_DEFAULT_CONFIG →
  reliable w → provided w →
  PAYLOAD_START ≤ cur →
  Forall (λ e, 0 < len (contents e)) (chosen entries) →
  cur + len (concat (map contents (chosen entries))) ≤ 32768 →
  (length files + length (chosen entries) ≤ 16)%nat →
  ∃ new w',
    process_loop (Some dev) dir entries cur files w = Ret (files ++ new) w'
    ∧ later w w'
    ∧ (∀ n, 0 ≤ n ≤ cur → take (Z.to_nat n) (cells w') = take (Z.to_nat n) (cells w))
    ∧ packed cur new (cur + len (concat (map contents (chosen entries))))
    ∧ Forall2 (λ e f, records (cells w') e f ∧ filename f = stored_name dir e)
        (chosen entries) new.
Proof.
  assert (PAYLOAD_START = 1136) as Hstart by done.
  induction entries as [| e rest IH];
    intros cur files w Hdev Hcfg Hrel Hprov Hcur Hpos Hfit Hroom.
  - exists [], w. simpl. unfold ret. rewrite app_nil_r.
    split_and!; auto using later_refl. change (len []) with 0. lia.
  - rewrite process_loop_cons. rewrite chosen_cons in Hpos, Hfit, Hroom |- *.
    destruct (eligible e) eqn:He; [| by apply IH].
    apply Forall_cons in Hpos as [Hpos1 Hpos].
    simpl in Hfit, Hroom. rewrite len_app in Hfit.
    pose proof (len_nonneg (concat (map contents (chosen rest)))) as Hrest0.
    destruct (store_one dev (join_path dir (d_name e)) e cur w)
      as (s & w1 & Hs & L1 & F1 & _ & Hstored & Hsure); try done; [lia |].
    rewrite (bind_run _ _ _ _ _ Hs).
    destruct Hsure as [info ->]; try done; [lia |].
    destruct (Hstored info eq_refl) as (Haddr & Hend & Hname & Hrecords).
    pose proof Hrecords as (Hsize & Hsz & _ & _).
    destruct (Z.geb_spec (len files) MAX_FILES) as [Hfull | _].
    { unfold MAX_FILES, len in Hfull. lia. }
    rewrite u16_small by lia.
    destruct (IH (cur + size info) (files ++ [info]) w1)
      as (new & w' & Hrun & L & F & Hp & Hall).
    { by eapply later_attached. } { done. }
    { by eapply later_reliable. } { by eapply later_provided. }
    { lia. } { done. } { lia. } { rewrite length_app. simpl. lia. }
    exists (info :: new), w'.
    rewrite <- (assoc app) in Hrun.
    split; [exact Hrun |].
    split; [by eapply later_trans |].
    split; [intros n Hn; rewrite F by lia; by apply F1 |].
    split.
    { simpl. split; [done |]. split; [lia |].
      simpl map. simpl concat. rewrite len_app.
      replace (cur + (len (contents e) + len (concat (map contents (chosen rest)))))
        with (cur + size info + len (concat (map contents (chosen rest)))) by lia.
      done. }
    constructor; [| done].
    split; [| done].
    destruct Hrecords as (? & ? & ? & Hslice).
    unfold records. split; [done |]. split; [done |]. split; [done |].
    rewrite <- Hslice. apply slice_take_eq; [lia | lia |].
    apply F. lia.
Qed.

(** The table of [main] has [MAX_FILES] entries and the loop does not
    count them: the blob stored after the table is full is recorded
    past its end. *)
Lemma process_loop_overruns dev dir : ∀ entries cur files w,
  attached dev w →
  config dev = AT24C256_DEFAULT_CONFIG →
  reliable w → provided w →
  PAYLOAD_START ≤ cur →
  Forall (λ e, 0 < len (contents e)) (chosen entries) →
  cur + len (concat (map contents (chosen entries))) ≤ 32768 →
  (length files ≤ 16)%nat →
  (16 < length files + length (chosen entries))%nat →
  process_loop (Some dev) dir entries cur files w = Undefined.
Proof.
  assert (PAYLOAD_START = 1136) as Hstart by done.
  induction entries as [| e rest IH];
    intros cur files w Hdev Hcfg Hrel Hprov Hcur Hpos Hfit Htable Hmany.
  - simpl in Hmany. lia.
  - rewrite process_loop_cons. rewrite chosen_cons in Hpos, Hfit, Hmany.
    destruct (eligible e) eqn:He; [| by apply IH].
    apply Forall_cons in Hpos as [Hpos1 Hpos].
    simpl in Hfit, Hmany. rewrite len_app in Hfit.
    pose proof (len_nonneg (concat (map contents (chosen rest)))) as Hrest0.
    destruct (store_one dev (join_path dir (d_name e)) e cur w)
      as (s & w1 & Hs & L1 & F1 & _ & Hstored & Hsure); try done; [lia |].
    rewrite (bind_run _ _ _ _ _ Hs).
    destruct Hsure as [info ->]; try done; [lia |].
    destruct (Hstored info eq_refl) as (Haddr & Hend & Hname & Hrecords).
    pose proof Hrecords as (Hsize & Hsz & _ & _).
    destruct (Z.geb_spec (len files) MAX_FILES) as [Hfull | Hfree]; [done |].
    unfold MAX_FILES, len in Hfree.
    rewrite u16_small by lia.
    apply IH; try done.
    + by eapply later_attached.
    + by eapply later_reliable.
    + by eapply later_provided.
    + lia.
    + lia.
    + rewrite length_app. simpl. lia.
    + rewrite length_app. simpl. lia.
Qed.

(** [process_camera_parameters] does not bound the number of the files
    it stores by the size of the table it fills: when more than
    [MAX_FILES] blobs can be stored, storing the one after the last
    entry of the table writes past the end of [files], which has no
    defined behaviour. *)
Theorem more_than_max_files_overruns_the_table
    (dev : at24c256_dev_s) (entries : list dirent) (w : world) :
  attached dev w →
  config dev = AT24C256_DEFAULT_CONFIG →
  reliable w → provided w →
  Forall (λ e, 0 < len (contents e)) (chosen entries) →
  PAYLOAD_START + len (concat (map contents (chosen entries))) ≤ 32768 →
  MAX_FILES < len (chosen entries) →
  process_camera_parameters (Some dev) "camera_parameters" (Some entries) w
    = Undefined
  ∧ camera_data_write.write_files (Some dev) (Some entries) w = Undefined.
Proof.
  intros Hdev Hcfg Hrel Hprov Hpos Hfit Hmany.
  assert (process_camera_parameters (Some dev) "camera_parameters" (Some entries) w
          = Undefined) as Hrun.
  { unfold process_camera_parameters.
    change (u16 (EEPROM_START_ADDRESS + sizeof_index_header_t
                 + MAX_FILES * sizeof_file_index_t)) with PAYLOAD_START.
    unfold bind.
    rewrite (process_loop_overruns dev "camera_parameters" entries PAYLOAD_START [] w);
      try done; [simpl; lia |].
    unfold MAX_FILES, len in Hmany. simpl. lia. }
  split; [done |].
  unfold camera_data_write.write_files, bind. by rewrite Hrun.
Qed.

Lemma more_than_max_files_overruns_the_table_witness :
  process_camera_parameters (Some at24c256_dev) "camera_parameters"
    (Some seventeen_blobs) at24c256_blank = Undefined
  ∧ camera_data_write.write_files (Some at24c256_dev) (Some seventeen_blobs)
      at24c256_blank = Undefined.
Proof.
  apply (more_than_max_files_overruns_the_table at24c256_dev seventeen_blobs
           at24c256_blank).
  - exact at24c256_attached.
  - reflexivity.
  - apply Forall_nil_2.
  - split; apply Forall_nil_2.
  - vm_compute. repeat constructor.
  - vm_compute. discriminate.
  - vm_compute. reflexivity.
Defined.

(** ** What a write costs *)

Lemma page_writes_app l1 l2 : page_writes (l1 ++ l2) = page_writes l1 + page_writes l2.
Proof.
  induction l1 as [| e l1 IH]; [done |].
  destruct e; simpl; rewrite IH; lia.
Qed.

Lemma chunk_events_cost delay cs :
  page_writes (chunk_events delay cs) = len cs
  ∧ slept (chunk_events delay cs) = len cs * (delay * 1000).
Proof.
  induction cs as [| c cs [IH1 IH2]]; [done |].
  change (chunk_events delay (c :: cs))
    with ([I2cWrite (addr_bytes (fst c) ++ snd c) true; Usleep (delay * 1000)]
          ++ chunk_events delay cs).
  rewrite page_writes_app, slept_app, IH1, IH2, len_cons. simpl. split; [lia | nia].
Qed.

(** The chunks of a write are as many as the pages its range touches. *)
Lemma chunking_count page a d cs :
  0 < page → chunking page a d cs → 0 < len d →
  len cs = pages_touched page a (len d).
Proof.
  intros Hpage. unfold pages_touched.
  induction 1 as [a | a d n cs Hlen Hn Hrest IH]; intros Hpos.
  - unfold len in Hpos. simpl in Hpos. lia.
  - destruct (chunk_size_bounds _ Hpage a d Hlen) as [Hn1 Hn2]. rewrite <- Hn in Hn1, Hn2.
    pose proof (Z.mod_pos_bound a page Hpage) as Hoff.
    rewrite len_cons.
    destruct (decide (n = len d)) as [Hall | Hmore].
    + assert (drop (Z.to_nat n) d = []) as Hnil.
      { apply drop_ge. unfold len in *. lia. }
      rewrite Hnil in Hrest. apply chunking_nil_inv in Hrest as ->.
      rewrite len_nil. symmetry. simpl.
      assert ((a mod page + len d + page - 1) / page = 1); [| lia].
      symmetry. apply Z.div_unique with (r := a mod page + len d - 1); lia.
    + assert (n = page - a mod page) as Hfill by lia.
      rewrite IH by (rewrite len_drop by lia; lia).
      rewrite len_drop by lia.
      assert ((a + n) mod page = 0) as ->.
      { rewrite Hfill.
        replace (a + (page - a mod page)) with (a - a mod page + 1 * page) by lia.
        rewrite Z.mod_add by lia.
        rewrite (Z.div_mod a page) at 1 by lia.
        replace (page * (a / page) + a mod page - a mod page)
          with ((a / page) * page) by lia.
        apply Z.mod_mul. lia. }
      replace (a mod page + len d + page - 1)
        with (0 + (len d - n) + page - 1 + 1 * page) by lia.
      rewrite Z.div_add by lia. lia.
Qed.

(** A write on a link without faults: the chunks it sends and what it
    leaves. *)
Lemma write_run_reliable dev a data w :
  attached dev w → valid_range dev a (len data) → reliable w →
  ∃ cs w',
    chunking (page_size (config dev)) a data cs
    ∧ at24c256_write (Some dev) a (Some data) (len data) w = Ret AT24C256_OK w'
    ∧ later w w'
    ∧ heap w' = heap w ∧ fs w' = fs w
    ∧ cells w' = splice a data (cells w)
    ∧ log w' = log w ++ chunk_events (write_delay_ms (config dev)) cs.
Proof.
  intros Hdev Hrange Hrel.
  pose proof Hdev as (Hflag & Hps & Hpage & Hdiv & Htot & Hcap).
  destruct (write_accepted dev a data w) as (cs & Hcs & Hsend); try done; [lia |].
  destruct Hrange as ([Ha _] & _ & _ & Hfit).
  destruct (send_chunks_run dev cs w)
    as (r & w' & Hrun & _ & Hlater & Hheap & Hfs & Hok & Hlog & _).
  specialize (Hok Hrel). subst r.
  destruct (send_chunks_cells dev a data cs Hcs w AT24C256_OK w')
    as (k & Hk & Hcells & Hall); try done; try lia.
  exists cs, w'. rewrite Hsend.
  split_and!; try done; [| by apply Hlog].
  rewrite Hcells, (Hall eq_refl). by rewrite take_ge by (unfold len; lia).
Qed.

(** A write that succeeds makes one transaction for every page its
    range touches, and sleeps the configured delay after each: the
    whole delay is the number of the pages times [write_delay_ms]. *)
Theorem write_takes_one_transaction_per_page
    (dev : at24c256_dev_s) (address : Z) (data : list Z) (w : world) :
  attached dev w →
  valid_range dev address (len data) →
  reliable w →
  ∃ w',
    at24c256_write (Some dev) address (Some data) (len data) w = Ret AT24C256_OK w'
    ∧ page_writes (log w')
      = page_writes (log w) + pages_touched (page_size (config dev)) address (len data)
    ∧ slept (log w')
      = slept (log w)
        + pages_touched (page_size (config dev)) address (len data)
          * (write_delay_ms (config dev) * 1000).
Proof.
  intros Hdev Hrange Hrel.
  destruct (write_run_reliable dev address data w Hdev Hrange Hrel)
    as (cs & w' & Hcs & Hrun & _ & _ & _ & _ & Hlog).
  pose proof Hdev as (_ & Hps & _).
  pose proof Hrange as (_ & _ & Hpos & _).
  destruct (chunk_events_cost (write_delay_ms (config dev)) cs) as [Hw Hs].
  rewrite (chunking_count _ _ _ _ (proj1 Hps) Hcs Hpos) in Hw, Hs.
  exists w'. split; [done |].
  rewrite Hlog, page_writes_app, slept_app, Hw, Hs. done.
Qed.

Lemma write_takes_one_transaction_per_page_witness :
  ∃ w',
    at24c256_write (Some bench_dev) 60
      (Some [1; 2; 3; 4; 5; 6; 7; 8; 9; 10; 11; 12; 13; 14; 15; 16])
      (len [1; 2; 3; 4; 5; 6; 7; 8; 9; 10; 11; 12; 13; 14; 15; 16]) bench_world
    = Ret AT24C256_OK w'
    ∧ page_writes (log w')
      = page_writes (log bench_world)
        + pages_touched (page_size (config bench_dev)) 60
            (len [1; 2; 3; 4; 5; 6; 7; 8; 9; 10; 11; 12; 13; 14; 15; 16])
    ∧ slept (log w')
      = slept (log bench_world)
        + pages_touched (page_size (config bench_dev)) 60
            (len [1; 2; 3; 4; 5; 6; 7; 8; 9; 10; 11; 12; 13; 14; 15; 16])
          * (write_delay_ms (config bench_dev) * 1000).
Proof.
  apply (write_takes_one_transaction_per_page bench_dev 60
           [1; 2; 3; 4; 5; 6; 7; 8; 9; 10; 11; 12; 13; 14; 15; 16] bench_world).
  - exact bench_attached.
  - unfold valid_range, is_u16. simpl. unfold len. simpl. lia.
  - constructor.
Defined.

(** ** Erasing the whole part *)

Lemma pages_touched_aligned page a n :
  0 < page → a mod page = 0 → n mod page = 0 → 0 < n →
  pages_touched page a n = n / page.
Proof.
  intros Hpage Ha Hn Hpos. unfold pages_touched. rewrite Ha.
  pose proof (Z.div_mod n page ltac:(lia)) as Hdm. rewrite Hn in Hdm.
  symmetry. apply Z.div_unique with (r := page - 1); lia.
Qed.

(** The loop of [erase_entire_eeprom] from address [a] on, [k] blocks of
    4096 bytes before the end of the part. *)
Lemma erase_loop_clears dev :
  config dev = AT24C256_DEFAULT_CONFIG →
  ∀ fuel k a w,
    attached dev w → reliable w →
    (k ≤ fuel)%nat → 0 ≤ a → a mod 4096 = 0 → a + 4096 * Z.of_nat k = 32768 →
    ∃ w',
      erase_loop fuel (Some dev) (replicate 4096 255) a (4096 * Z.of_nat k) w
      = Ret AT24C256_OK w'
      ∧ later w w'
      ∧ cells w' = splice a (replicate (Z.to_nat (4096 * Z.of_nat k)) 255) (cells w)
      ∧ page_writes (log w') = page_writes (log w) + 64 * Z.of_nat k
      ∧ slept (log w') = slept (log w) + 64 * Z.of_nat k * 5000.
Proof.
  intros Hcfg.
  assert (len (replicate 4096 255) = 4096) as Hbuf by done.
  induction fuel as [| fuel IH]; intros k a w Hdev Hrel Hk Ha Hal Hend.
  - assert (k = 0%nat) as -> by lia. exists w. simpl. rewrite splice_nil.
    split_and!; auto using later_refl; lia.
  - destruct k as [| k].
    { exists w. simpl. rewrite splice_nil. split_and!; auto using later_refl; lia. }
    cbn [erase_loop].
    destruct (Z.gtb_spec (4096 * Z.of_nat (S k)) 0); [| lia].
    assert ((if 4096 * Z.of_nat (S k) >? 4096 then 4096 else 4096 * Z.of_nat (S k)) = 4096)
      as ->.
    { destruct (Z.gtb_spec (4096 * Z.of_nat (S k)) 4096); lia. }
    replace (at24c256_write (Some dev) a (Some (replicate 4096 255)) 4096)
      with (at24c256_write (Some dev) a (Some (replicate 4096 255))
              (len (replicate 4096 255))) by (by rewrite Hbuf).
    assert (valid_range dev a (len (replicate 4096 255))) as Hrange.
    { rewrite Hbuf. unfold valid_range, is_u16. rewrite Hcfg. simpl. lia. }
    destruct (write_run_reliable dev a (replicate 4096 255) w Hdev Hrange Hrel)
      as (cs & w1 & Hcs & Hw & L1 & _ & _ & C1 & Hlog).
    rewrite (bind_run _ _ _ _ _ Hw).
    change (negb (err_eqb AT24C256_OK AT24C256_OK)) with false. cbv iota.
    replace (u16 (4096 * Z.of_nat (S k) - 4096)) with (4096 * Z.of_nat k)
      by (rewrite u16_small; lia).
    rewrite u16_small by lia.
    destruct (IH k (a + 4096) w1) as (w' & Hrest & L2 & C2 & Hpw & Hsl).
    { by eapply later_attached. } { by eapply later_reliable. }
    { lia. } { lia. }
    { rewrite <- Zplus_mod_idemp_l, Hal. done. }
    { lia. }
    exists w'. split; [done |].
    split; [by eapply later_trans |].
    pose proof Hdev as (_ & _ & _ & _ & Htot & _). rewrite Hcfg in Htot. simpl in Htot.
    split.
    { rewrite C2, C1.
      rewrite <- Hbuf at 1.
      rewrite splice_splice.
      - f_equal. rewrite <- replicate_add. f_equal. lia.
      - done.
      - rewrite Hbuf, len_replicate by lia. lia. }
    destruct (chunk_events_cost (write_delay_ms (config dev)) cs) as [Hw1 Hs1].
    assert (len cs = 64) as Hcount.
    { assert (0 < page_size (config dev)) as Hps by (by rewrite Hcfg).
      rewrite (chunking_count _ _ _ _ Hps Hcs) by (rewrite Hbuf; lia).
      rewrite Hcfg, Hbuf. simpl page_size.
      rewrite pages_touched_aligned; try done.
      rewrite <- (Z.mod_mod_divide a 4096 64) by (by exists 64).
      by rewrite Hal. }
    rewrite Hcount in Hw1, Hs1.
    rewrite Hpw, Hsl, Hlog, page_writes_app, slept_app, Hw1, Hs1, Hcfg.
    simpl write_delay_ms. lia.
Qed.

Lemma erase_entire_eeprom_run dev w :
  attached dev w →
  config dev = AT24C256_DEFAULT_CONFIG →
  reliable w → provided w →
  ∃ w',
    erase_entire_eeprom (Some dev) w = Ret AT24C256_OK w'
    ∧ later w w'
    ∧ cells w' = splice 0 (replicate (Z.to_nat 32768) 255) (cells w)
    ∧ page_writes (log w') = page_writes (log w) + 512
    ∧ slept (log w') = slept (log w) + 2560000.
Proof.
  intros Hdev Hcfg Hrel Hprov. unfold erase_entire_eeprom.
  destruct (sys_malloc_run 4096 w) as (got & w1 & Hm & L1 & C1 & G1 & K1 & Hgot).
  rewrite (bind_run _ _ _ _ _ Hm), (Hgot Hprov). cbn [negb].
  destruct (erase_loop_clears dev Hcfg 8 8 0 w1) as (w' & Hrun & L2 & C2 & Hpw & Hsl);
    try done; try lia.
  { by eapply later_attached. } { by eapply later_reliable. }
  exists w'. split; [exact Hrun |].
  split; [by eapply later_trans |].
  rewrite C1 in C2. rewrite G1 in Hpw, Hsl.
  split; [exact C2 |]. split; lia.
Qed.

(** [erase_entire_eeprom] on a link without faults: every byte of the
    part reads 0xFF afterwards, at the price of 512 page writes and of
    2.56 seconds of settle delay; the directory is gone with the rest,
    so [read_file_index] then fails on the magic. When its buffer cannot
    be allocated it reports the memory error and sends nothing. *)
Theorem erase_entire_eeprom_clears_the_part (dev : at24c256_dev_s) (w : world) :
  attached dev w →
  config dev = AT24C256_DEFAULT_CONFIG →
  reliable w →
  (provided w →
   ∃ w',
     erase_entire_eeprom (Some dev) w = Ret AT24C256_OK w'
     ∧ cells w' = splice 0 (replicate (Z.to_nat 32768) 255) (cells w)
     ∧ (∀ p, 0 ≤ p < 32768 → peek (cells w') p = 255)
     ∧ page_writes (log w') = page_writes (log w) + 512
     ∧ slept (log w') = slept (log w) + 2560000
     ∧ ∃ w'', read_file_index (Some dev) w' = Ret (-1, []) w'')
  ∧ ((pop (heap w)).1 = false →
     ∃ w', erase_entire_eeprom (Some dev) w = Ret AT24C256_ERROR_MEMORY w'
           ∧ cells w' = cells w ∧ log w' = log w).
Proof.
  intros Hdev Hcfg Hrel.
  split.
  - intros Hprov.
    destruct (erase_entire_eeprom_run dev w Hdev Hcfg Hrel Hprov)
      as (w' & Hrun & L & C2 & Hpw & Hsl).
    exists w'. split; [exact Hrun |].
    pose proof Hdev as (_ & _ & _ & _ & Htot & _). rewrite Hcfg in Htot. simpl in Htot.
    assert (∀ p, 0 ≤ p < 32768 → peek (cells w') p = 255) as Hpeek.
    { intros p Hp. rewrite C2. unfold peek, splice.
      change (Z.to_nat 0) with 0%nat. rewrite take_0, app_nil_l.
      rewrite lookup_app_l by (rewrite length_replicate; lia).
      rewrite lookup_replicate_2 by lia. done. }
    split; [exact C2 |]. split; [exact Hpeek |].
    split; [lia |]. split; [lia |].
    assert (attached dev w') as Hdev' by (by eapply later_attached).
    destruct (read_file_index_run dev w' Hdev')
      as (rc & files & w'' & Hread & _ & _ & Hrc & Hgood & Hrel').
    { rewrite Hcfg. done. }
    destruct (Hrel' ltac:(by eapply later_reliable)) as [_ Hbad].
    assert (rc = -1) as ->.
    { destruct Hrc as [-> | ->]; [| done]. exfalso.
      destruct (Hgood eq_refl) as (Hmagic & _).
      unfold index_header, header_of_bytes in Hmagic. simpl magic in Hmagic.
      assert (take 4 (slice EEPROM_START_ADDRESS sizeof_index_header_t (cells w'))
              = [255; 255; 255; 255]) as Hff.
      { rewrite C2. unfold slice, splice.
        change (Z.to_nat EEPROM_START_ADDRESS) with 0%nat.
        change (Z.to_nat 0) with 0%nat. rewrite take_0, app_nil_l, drop_0.
        rewrite take_take. change (4 `min` Z.to_nat sizeof_index_header_t)%nat with 4%nat.
        rewrite take_app_le by (rewrite length_replicate; lia).
        rewrite take_replicate. done. }
      rewrite Hff in Hmagic. done. }
    destruct (Hbad eq_refl) as [-> _]. by exists w''.
  - intros Hfail. unfold erase_entire_eeprom, bind, sys_malloc.
    destruct (pop (heap w)) as [ok rest]. simpl in Hfail. subst ok.
    cbn [negb]. eexists. split; [reflexivity |]. done.
Qed.

Lemma attached_set_heap dev h w : attached dev w → attached dev (set_heap h w).
Proof. intros H. exact H. Qed.

Lemma reliable_set_heap h w : reliable w → reliable (set_heap h w).
Proof. intros H. exact H. Qed.

(** The part the writer left holds the directory; the erase clears
    it, and without memory for its buffer it sends nothing. *)
Lemma erase_entire_eeprom_clears_the_part_witness :
  peek (cells at24c256_written) 0 = 67
  ∧ (∃ w',
       erase_entire_eeprom (Some at24c256_dev) at24c256_written = Ret AT24C256_OK w'
       ∧ (∀ p, 0 ≤ p < 32768 → peek (cells w') p = 255)
       ∧ page_writes (log w') = page_writes (log at24c256_written) + 512
       ∧ slept (log w') = slept (log at24c256_written) + 2560000
       ∧ ∃ w'', read_file_index (Some at24c256_dev) w' = Ret (-1, []) w'')
  ∧ (∃ w',
       erase_entire_eeprom (Some at24c256_dev) (set_heap [false] at24c256_written)
       = Ret AT24C256_ERROR_MEMORY w'
       ∧ cells w' = cells (set_heap [false] at24c256_written)
       ∧ log w' = log (set_heap [false] at24c256_written)).
Proof.
  split; [vm_compute; reflexivity |]. split.
  - destruct (erase_entire_eeprom_clears_the_part at24c256_dev at24c256_written
                at24c256_written_attached eq_refl at24c256_written_reliable)
      as [Hclean _].
    destruct (Hclean at24c256_written_provided)
      as (w' & Hrun & _ & Hpeek & Hwrites & Hslept & Hindex).
    exists w'.
    split; [exact Hrun |]. split; [exact Hpeek |]. split; [exact Hwrites |].
    split; [exact Hslept | exact Hindex].
  - destruct (erase_entire_eeprom_clears_the_part at24c256_dev
                (set_heap [false] at24c256_written)
                (attached_set_heap _ _ _ at24c256_written_attached) eq_refl
                (reliable_set_heap _ _ at24c256_written_reliable))
      as [_ Hnone].
    exact (Hnone eq_refl).
Defined.

(** ** Names and paths *)

Lemma substring_all s n : (String.length s ≤ n)%nat → substring 0 n s = s.
Proof.
  revert n. induction s as [| c s IH]; intros n Hn; [by destruct n |].
  destruct n as [| n]; simpl in *; [lia |]. rewrite IH by lia. done.
Qed.

Lemma strrchr_absent s c :
  Forall (λ a, a ≠ c) (list_ascii_of_string s) → strrchr s c = None.
Proof.
  induction s as [| a s IH]; intros Hs; [done |].
  simpl in Hs. apply Forall_cons in Hs as [Ha Hs].
  simpl. rewrite IH by done.
  destruct (Ascii.eqb_spec a c); done.
Qed.

Lemma strrchr_last pre c name :
  Forall (λ a, a ≠ c) (list_ascii_of_string name) →
  strrchr (pre ++ String c name) c = Some (String c name).
Proof.
  intros Hname. induction pre as [| a pre IH]; simpl.
  - rewrite strrchr_absent by done. by rewrite Ascii.eqb_refl.
  - by rewrite IH.
Qed.

Lemma length_append s1 s2 :
  String.length (s1 ++ s2) = (String.length s1 + String.length s2)%nat.
Proof. induction s1 as [| c s1 IH]; [done |]. simpl. by rewrite IH. Qed.

Lemma join_path_short dir name :
  (String.length dir + String.length name < 511)%nat →
  join_path dir name = (dir ++ "/" ++ name)%string.
Proof.
  intros Hlen. unfold join_path. apply substring_all.
  rewrite length_append. simpl. lia.
Qed.

Lemma stored_name_plain dir e :
  plain_name (d_name e) →
  (String.length dir < 400)%nat →
  stored_name dir e = d_name e.
Proof.
  intros [Hlen Hchars] Hdir. unfold stored_name.
  rewrite join_path_short by lia.
  unfold base_name.
  change (dir ++ "/" ++ d_name e)%string with (dir ++ String "/" (d_name e))%string.
  rewrite strrchr_last.
  - by apply substring_all.
  - eapply Forall_impl; [exact Hchars |]. by intros a [? _].
Qed.

Lemma plain_name_c_name s : plain_name s → c_name s.
Proof.
  intros [Hlen Hchars]. split; [lia |].
  eapply Forall_impl; [exact Hchars |]. by intros a [_ ?].
Qed.

(** ** The two programs, one after the other *)

Lemma create_directory_run path w :
  ∃ d w1,
    create_directory path w = Ret d w1
    ∧ later w w1 ∧ cells w1 = cells w ∧ log w1 = log w ∧ link w1 = link w
    ∧ (d = 0 ∨ d = -1)
    ∧ (provided w → d = 0).
Proof.
  unfold create_directory.
  destruct (pop (fs w)) as [[|] rest] eqn:Hpop.
  - eexists _, _. split; [reflexivity |].
    split; [by eapply later_set_fs |]. split_and!; try done. by left.
  - destruct (pop rest) as [made rest'] eqn:Hpop'.
    eexists _, _. split; [reflexivity |].
    split.
    { eapply later_trans; [by eapply (later_set_fs w rest false) |].
      by apply (later_set_fs (set_fs rest w) rest' made). }
    split_and!; try done.
    + destruct made; [by left | by right].
    + intros [_ Hfs]. destruct (pop_spec _ _ _ Hpop) as [_ Hp]. by specialize (Hp Hfs).
Qed.

Lemma Forall2_records_names dir cs cs' (entries : list dirent) files a b :
  packed a files b → 0 ≤ a →
  (∀ f, f ∈ files → slice (address f) (size f) cs' = slice (address f) (size f) cs) →
  Forall2 (λ e f, records cs e f ∧ filename f = stored_name dir e) entries files →
  Forall2 (λ e f, records cs' e f ∧ filename f = stored_name dir e) entries files.
Proof.
  intros Hpacked Ha Hsame Hall.
  induction Hall as [| e f entries files [Hrec Hname] _ IH] in a, Hpacked, Ha, Hsame |- *;
    [constructor |].
  simpl in Hpacked. destruct Hpacked as (Haddr & Hpos & Hrest).
  constructor.
  - split; [| done]. destruct Hrec as (? & ? & ? & Hslice).
    unfold records. split; [done |]. split; [done |]. split; [done |].
    rewrite Hsame; [done | apply list_elem_of_here].
  - apply (IH (a + size f)); [done | lia |].
    intros g Hg. apply Hsame. by apply list_elem_of_further.
Qed.

(** The writer on a link without faults, when every blob it takes up
    can be stored: the blobs lie packed after the room of the
    directory, and the directory describes them. *)
Lemma writer_main_run args entries w :
  attached at24c256_dev w → reliable w → provided w →
  Forall (λ e, plain_name (d_name e) ∧ 0 < len (contents e)) (chosen entries) →
  chosen entries ≠ [] →
  (length (chosen entries) ≤ 16)%nat →
  PAYLOAD_START + len (concat (map contents (chosen entries))) ≤ 32768 →
  ∃ files w1,
    camera_data_write.main args (Some entries) w = Ret EXIT_SUCCESS w1
    ∧ later w w1
    ∧ Forall2 (λ e f, records (cells w1) e f ∧ filename f = d_name e)
        (chosen entries) files
    ∧ packed PAYLOAD_START files
        (PAYLOAD_START + len (concat (map contents (chosen entries))))
    ∧ index_header (cells w1) = header_for files
    ∧ index_entries (cells w1) (length files) = files.
Proof.
  intros Hdev Hrel Hprov Hgood Hsome Hcount Hfit.
  assert (PAYLOAD_START = 1136) as Hstart by done.
  unfold camera_data_write.main.
  destruct (init_run AT24C256_DEFAULT_CONFIG w)
    as (r & h & w1 & Hinit & L1 & C1 & G1 & Hres & Hok).
  rewrite (bind_run _ _ _ _ _ Hinit).
  specialize (Hok Hrel Hprov). subst r.
  destruct Hres as [[_ ->] | [? _]]; [| done].
  fold at24c256_dev.
  change (negb (err_eqb AT24C256_OK AT24C256_OK)) with false. cbv iota.
  assert (attached at24c256_dev w1) as Hdev1 by (by eapply later_attached).
  assert (reliable w1) as Hrel1 by (by eapply later_reliable).
  assert (provided w1) as Hprov1 by (by eapply later_provided).
  assert (∃ w2,
    (if should_erase_eeprom args then erase_entire_eeprom (Some at24c256_dev)
     else ret AT24C256_OK) w1 = Ret AT24C256_OK w2 ∧ later w1 w2) as (w2 & Herase & L2).
  { destruct (should_erase_eeprom args).
    - destruct (erase_entire_eeprom_run at24c256_dev w1) as (w2 & ? & ? & _); try done.
      by exists w2.
    - exists w1. split; [done | apply later_refl]. }
  rewrite (bind_run _ _ _ _ _ Herase).
  change (negb (err_eqb AT24C256_OK AT24C256_OK)) with false. cbv iota.
  assert (attached at24c256_dev w2) as Hdev2 by (by eapply later_attached).
  assert (reliable w2) as Hrel2 by (by eapply later_reliable).
  assert (provided w2) as Hprov2 by (by eapply later_provided).
  unfold camera_data_write.write_files, process_camera_parameters.
  change (u16 (EEPROM_START_ADDRESS + sizeof_index_header_t
               + MAX_FILES * sizeof_file_index_t)) with PAYLOAD_START.
  destruct (process_loop_all_stored at24c256_dev "camera_parameters" entries
              PAYLOAD_START [] w2)
    as (files & w3 & Hloop & L3 & _ & Hpacked & Hall); try done.
  { eapply Forall_impl; [exact Hgood |]. by intros e [_ ?]. }
  simpl app in Hloop.
  assert ((files0 <- process_loop (Some at24c256_dev) "camera_parameters" entries
                       PAYLOAD_START [] ;;
           ret (len files0, files0)) w2 = Ret (len files, files) w3) as Hproc.
  { by rewrite (bind_run _ _ _ _ _ Hloop). }
  rewrite (bind_run _ _ _ _ _ Hproc). cbv beta iota.
  pose proof (Forall2_length _ _ _ Hall) as Hlen.
  assert (0 < len files ≤ 16) as Hn.
  { unfold len. rewrite <- Hlen. clear -Hsome Hcount.
    destruct (chosen entries); [done |]. simpl in *. lia. }
  destruct (Z.gtb_spec (len files) 0); [| lia].
  assert (attached at24c256_dev w3) as Hdev3 by (by eapply later_attached).
  destruct (write_file_index_run at24c256_dev files w3 Hdev3 eq_refl)
    as (x & w4 & Hindex & L4 & _ & _ & Hcells & Hx); [lia |].
  rewrite (bind_run _ _ _ _ _ Hindex).
  rewrite (Hx ltac:(by eapply later_reliable)) in *.
  destruct (Hcells eq_refl) as (pads & Hpads & _ & Hc).
  clear Hcells. rename Hc into Hcells.
  change (negb (0 =? 0)) with false. cbv iota.
  unfold bind, at24c256_deinit, ret.
  exists files, w4. split; [done |].
  split; [do 3 (eapply later_trans; [eassumption |]); done |].
  destruct (packed_bounds _ _ _ Hpacked) as [_ Hbounds].
  pose proof Hdev3 as (_ & _ & _ & _ & Htot & _). simpl in Htot.
  assert (len (header_bytes (header_for files)
               ++ entry_images files pads) = 16 + 70 * len files) as Hdir.
  { by rewrite len_app, len_header_bytes, len_entry_images. }
  assert (Forall2 (λ e f, records (cells w4) e f
                          ∧ filename f = stored_name "camera_parameters" e)
            (chosen entries) files) as Hall4.
  { eapply Forall2_records_names; [exact Hpacked | lia | | exact Hall].
    intros f Hf. rewrite Hcells.
    rewrite Forall_forall in Hbounds. destruct (Hbounds f Hf) as (Hlo & Hpos & _).
    apply slice_splice_above; lia. }
  assert (Forall (λ e, plain_name (d_name e)) (chosen entries)) as Hplain.
  { eapply Forall_impl; [exact Hgood |]. by intros e [? _]. }
  assert (Forall (λ f, is_u16 (address f) ∧ is_u16 (size f)) files) as Hu16.
  { eapply Forall_impl; [exact Hbounds |]. intros f (? & ? & ?). unfold is_u16. lia. }
  assert (Forall2 (λ e f, records (cells w4) e f ∧ filename f = d_name e)
            (chosen entries) files) as Hnames.
  { clear -Hall4 Hplain. revert Hplain.
    induction Hall4 as [| e f es fs [Hrec Hname] _ IH]; intros Hplain; [constructor |].
    apply Forall_cons in Hplain as [Hp Hplain].
    constructor; [| by apply IH].
    split; [done |]. rewrite Hname. apply stored_name_plain; [done | simpl; lia]. }
  split; [exact Hnames |]. split; [exact Hpacked |].
  assert (Forall well_formed files) as Hwf.
  { clear -Hnames Hplain Hu16. revert Hplain Hu16.
    induction Hnames as [| e f es fs [Hrec Hname] _ IH]; intros Hplain Hu16;
      [constructor |].
    apply Forall_cons in Hplain as [Hp Hplain].
    apply Forall_cons in Hu16 as [[Ha Hs] Hu16].
    constructor; [| by apply IH].
    split; [rewrite Hname; by apply plain_name_c_name | done]. }
  destruct (index_in_cells files pads (cells w3)) as (Hheader & _ & Hentries);
    [lia | done | done | lia |].
  rewrite Hcells. done.
Qed.

(** The reader on a link without faults, over an array that holds a
    directory with at least one entry and payloads that match it. *)
Lemma reader_main_run w :
  attached at24c256_dev w → reliable w → provided w →
  magic (index_header (cells w)) = CAM_MAGIC →
  0 < file_count (index_header (cells w)) ≤ MAX_FILES →
  Forall (λ f, terminated f = true)
    (index_entries (cells w) (Z.to_nat (file_count (index_header (cells w))))) →
  Forall (holds at24c256_dev (cells w))
    (index_entries (cells w) (Z.to_nat (file_count (index_header (cells w))))) →
  ∃ w',
    camera_data_read.main w = Ret EXIT_SUCCESS w'
    ∧ cells w' = cells w
    ∧ Forall (λ f, FileSaved (join_path "out" (filename f))
                     (slice (address f) (size f) (cells w)) ∈ log w')
        (index_entries (cells w) (Z.to_nat (file_count (index_header (cells w))))).
Proof.
  intros Hdev Hrel Hprov Hmagic Hcount Hnames Hholds.
  unfold camera_data_read.main.
  destruct (create_directory_run "out" w) as (d & w1 & Hdir & L1 & C1 & _ & _ & _ & Hd).
  rewrite (bind_run _ _ _ _ _ Hdir), (Hd Hprov).
  change (negb (0 =? 0)) with false. cbv iota.
  assert (reliable w1) as Hrel1 by (by eapply later_reliable).
  assert (provided w1) as Hprov1 by (by eapply later_provided).
  destruct (init_run AT24C256_DEFAULT_CONFIG w1)
    as (r & h & w2 & Hinit & L2 & C2 & _ & Hres & Hok).
  rewrite (bind_run _ _ _ _ _ Hinit).
  specialize (Hok Hrel1 Hprov1). subst r.
  destruct Hres as [[_ ->] | [? _]]; [| done].
  fold at24c256_dev.
  change (negb (err_eqb AT24C256_OK AT24C256_OK)) with false. cbv iota.
  assert (later w w2) as L02 by (by eapply later_trans).
  assert (attached at24c256_dev w2) as Hdev2 by (by eapply later_attached).
  assert (reliable w2) as Hrel2 by (by eapply later_reliable).
  assert (provided w2) as Hprov2 by (by eapply later_provided).
  assert (cells w2 = cells w) as C02 by congruence.
  destruct (read_file_index_run at24c256_dev w2 Hdev2)
    as (rc & files & w3 & Hread & L3 & C3 & _ & Hgot & Hrel').
  { vm_compute. discriminate. }
  rewrite (bind_run _ _ _ _ _ Hread).
  destruct (Hrel' Hrel2) as [[_ Hback] _].
  rewrite C02 in Hback, Hgot.
  assert (rc = 0) as -> by (apply Hback; split; [done | lia]).
  destruct (Hgot eq_refl) as (_ & _ & ->).
  change (negb (0 =? 0)) with false. cbv iota.
  set (files := index_entries (cells w)
                  (Z.to_nat (file_count (index_header (cells w))))) in *.
  assert (cells w3 = cells w) as C03 by congruence.
  assert (forallb terminated files = true) as ->.
  { apply forallb_forall. intros f Hf. apply (proj1 (Forall_forall _ _) Hnames).
    by apply list_elem_of_In. }
  cbn [negb].
  unfold camera_data_read.read_files.
  destruct (restore_loop_run at24c256_dev "out" files 0 w3)
    as (w4 & Hloop & L4 & C4 & Hsaved).
  { by eapply later_attached. } { by eapply later_reliable. }
  { by eapply later_provided. }
  { eapply Forall_impl; [exact Hholds |]. by intros f [? _]. }
  rewrite (bind_run _ _ _ _ _ Hloop).
  unfold bind, at24c256_deinit, ret. cbn [snd].
  rewrite C03 in *.
  assert (map (verdict (cells w)) files = map (λ _, Restored) files) as Hverdicts.
  { apply map_ext_Forall. eapply Forall_impl; [exact Hholds |].
    intros f. apply verdict_holds. }
  rewrite Hverdicts.
  rewrite filter_all_restored
    by (apply Forall_forall; intros s Hs; apply list_elem_of_fmap in Hs as (? & -> & _); done).
  assert (0 < len (map (λ _ : file_index_t, Restored) files)) as Hpos.
  { unfold len. rewrite length_map. subst files. unfold index_entries.
    rewrite length_map, length_seq. lia. }
  destruct (Z.gtb_spec (0 + len (map (λ _ : file_index_t, Restored) files)) 0); [| lia].
  exists w4. split; [done |]. split; [congruence |].
  apply Forall_forall. intros f Hf.
  rewrite Forall_forall in Hsaved, Hholds.
  apply (Hsaved f Hf). by eapply verdict_holds, Hholds.
Qed.



(** Both programs on a link without faults: when the blobs the writer
    takes up have plain names, are not empty, are at most [MAX_FILES]
    and fit the payload area, [camera_data_write] exits with success,
    and [camera_data_read] run on what it left exits with success and
    saves every one of these blobs, under its own name in [out] and with
    its own contents. *)
Theorem written_by_one_program_restored_by_the_other
    (args : list string) (entries : list dirent) (w : world) :
  attached at24c256_dev w → reliable w → provided w →
  Forall (λ e, plain_name (d_name e) ∧ 0 < len (contents e)) (chosen entries) →
  chosen entries ≠ [] →
  (length (chosen entries) ≤ 16)%nat →
  PAYLOAD_START + len (concat (map contents (chosen entries))) ≤ 32768 →
  ∃ w1 w2,
    camera_data_write.main args (Some entries) w = Ret EXIT_SUCCESS w1
    ∧ camera_data_read.main w1 = Ret EXIT_SUCCESS w2
    ∧ cells w2 = cells w1
    ∧ Forall (λ e, FileSaved ("out/" ++ d_name e) (contents e) ∈ log w2)
        (chosen entries).
Proof.
  intros Hdev Hrel Hprov Hgood Hsome Hcount Hfit.
  assert (PAYLOAD_START = 1136) as Hstart by done.
  destruct (writer_main_run args entries w Hdev Hrel Hprov Hgood Hsome Hcount Hfit)
    as (files & w1 & Hwrite & L1 & Hall & Hpacked & Hheader & Hentries).
  pose proof (Forall2_length _ _ _ Hall) as Hlen.
  assert (0 < len files ≤ 16) as Hn.
  { unfold len. rewrite <- Hlen. clear -Hsome Hcount.
    destruct (chosen entries); [done |]. simpl in *. lia. }
  assert (file_count (index_header (cells w1)) = len files) as Hfc.
  { rewrite Hheader. simpl. apply u8_small. lia. }
  assert (index_entries (cells w1) (Z.to_nat (file_count (index_header (cells w1))))
          = files) as Hfiles.
  { rewrite Hfc. unfold len. by rewrite Nat2Z.id. }
  destruct (packed_bounds _ _ _ Hpacked) as [_ Hbounds].
  assert (Forall (holds at24c256_dev (cells w1)) files) as Hholds.
  { assert (Forall (λ f, valid_range at24c256_dev (address f) (size f)) files) as Hranges.
    { eapply Forall_impl; [exact Hbounds |]. intros f (? & ? & ?).
      unfold valid_range, is_u16. simpl. lia. }
    clear -Hall Hranges. revert Hranges.
    induction Hall as [| e f es fs [Hrec _] _ IH]; intros Hranges; [constructor |].
    apply Forall_cons in Hranges as [Hrange Hranges].
    constructor; [| by apply IH].
    destruct Hrec as (_ & _ & Hsum & Hslice).
    split; [done |]. by rewrite Hslice. }
  assert (Forall (λ f, terminated f = true) files) as Hterm.
  { assert (Forall (λ e, String.length (d_name e) ≤ 63)%nat (chosen entries)) as Hshorts.
    { eapply Forall_impl; [exact Hgood |]. by intros e [[? _] _]. }
    clear -Hall Hshorts. revert Hshorts.
    induction Hall as [| e f es fs [_ Hname] _ IH]; intros Hshorts; [constructor |].
    apply Forall_cons in Hshorts as [Hshort Hshorts].
    constructor; [| by apply IH].
    unfold terminated. rewrite Hname. apply Nat.ltb_lt. lia. }
  destruct (reader_main_run w1) as (w2 & Hread & C2 & Hsaved).
  { by eapply later_attached. } { by eapply later_reliable. }
  { by eapply later_provided. }
  { by rewrite Hheader. }
  { rewrite Hfc. unfold MAX_FILES. lia. }
  { by rewrite Hfiles. }
  { by rewrite Hfiles. }
  rewrite Hfiles in Hsaved.
  exists w1, w2. split; [done |]. split; [done |]. split; [done |].
  assert (Forall (λ e, String.length (d_name e) ≤ 63)%nat (chosen entries)) as Hshorts.
  { eapply Forall_impl; [exact Hgood |]. by intros e [[? _] _]. }
  clear -Hall Hsaved Hshorts. revert Hsaved Hshorts.
  induction Hall as [| e f es fs [Hrec Hname] _ IH]; intros Hsaved Hshorts; [constructor |].
  apply Forall_cons in Hsaved as [Hf Hsaved].
  apply Forall_cons in Hshorts as [Hshort Hshorts].
  constructor; [| by apply IH].
  destruct Hrec as (_ & _ & _ & Hslice).
  rewrite Hslice, Hname, join_path_short in Hf by (simpl; lia).
  exact Hf.
Qed.

Lemma written_by_one_program_restored_by_the_other_witness :
  ∃ w1 w2,
    camera_data_write.main ["--erase"%string] (Some small_then_small) at24c256_blank
      = Ret EXIT_SUCCESS w1
    ∧ camera_data_read.main w1 = Ret EXIT_SUCCESS w2
    ∧ cells w2 = cells w1
    ∧ Forall (λ e, FileSaved ("out/" ++ d_name e) (contents e) ∈ log w2)
        (chosen small_then_small).
Proof.
  apply (written_by_one_program_restored_by_the_other ["--erase"%string] small_then_small
           at24c256_blank).
  - exact at24c256_attached.
  - apply Forall_nil_2.
  - split; apply Forall_nil_2.
  - vm_compute. repeat constructor; discriminate.
  - vm_compute. discriminate.
  - vm_compute. lia.
  - vm_compute. discriminate.
Defined.

(** ** The reader, whatever it finds *)

Lemma saved_app l1 l2 : saved (l1 ++ l2) = saved l1 ++ saved l2.
Proof.
  induction l1 as [| e l1 IH]; [done |].
  destruct e; simpl; by rewrite IH.
Qed.

(** A read into a fresh buffer of [n] bytes returns, whatever the
    handle, the range and the link; it changes neither the array nor
    the files saved. *)
Lemma read_fresh_run dev a n w :
  ∃ r b w',
    at24c256_read (Some dev) a (Some (replicate (Z.to_nat n) 0)) n w = Ret (r, b) w'
    ∧ later w w'
    ∧ cells w' = cells w
    ∧ heap w' = heap w ∧ fs w' = fs w
    ∧ saved (log w') = saved (log w).
Proof.
  unfold at24c256_read.
  destruct (err_eqb (check_address_length (Some dev) a n) AT24C256_OK); cbn [negb].
  2:{ eexists _, _, _. split; [reflexivity |]. split_and!; auto using later_refl. }
  fold (addr_bytes a).
  destruct (sys_write_cases (fd dev) (addr_bytes a) w)
    as [(rest & Hpop & Hw) | (rest & Hpop & Hbad & Hw)];
    rewrite (bind_run _ _ _ _ _ Hw).
  - change (len (addr_bytes a) =? 2) with true. cbn [negb].
    set (w1 := emit _ _).
    assert (later w w1) as Hw1 by (by apply later_sys_write_acked).
    assert (cells w1 = cells w) as Hc1 by done.
    assert (saved (log w1) = saved (log w)) as Hs1.
    { subst w1. rewrite log_emit, log_set_link, saved_app. simpl.
      rewrite app_nil_r. done. }
    destruct (sys_read_cases (fd dev) n w1)
      as [(rest' & bs & q & Hpop' & Hfetch & Hr) | (rest' & Hpop' & Hbad & Hr)];
      rewrite (bind_run _ _ _ _ _ Hr); cbn [fst snd].
    + rewrite Z.eqb_refl. cbn [negb].
      destruct (Z.ltb_spec (len (replicate (Z.to_nat n) 0)) n) as [Hshort | _].
      { unfold len in Hshort. rewrite length_replicate in Hshort. lia. }
      eexists _, _, _. split; [reflexivity |].
      split.
      { eapply later_trans; [exact Hw1 |].
        eapply later_trans; [apply (later_set_chip_cursor q) |].
        eapply later_trans; [| apply later_emit].
        by apply (later_set_link _ rest' true). }
      split; [done |]. split; [done |]. split; [done |].
      rewrite log_emit, log_set_link, log_set_chip, saved_app, Hs1. simpl.
      by rewrite app_nil_r.
    + destruct (negb (-1 =? n)).
      * eexists _, _, _. split; [reflexivity |].
        split.
        { eapply later_trans; [exact Hw1 |].
          eapply later_trans; [| apply later_emit].
          by apply (later_set_link _ rest' false). }
        split; [done |]. split; [done |]. split; [done |].
        rewrite log_emit, log_set_link, saved_app, Hs1. simpl. by rewrite app_nil_r.
      * destruct (Z.ltb_spec (len (replicate (Z.to_nat n) 0)) n) as [Hshort | _].
        { unfold len in Hshort. rewrite length_replicate in Hshort. lia. }
        eexists _, _, _. split; [reflexivity |].
        split.
        { eapply later_trans; [exact Hw1 |].
          eapply later_trans; [| apply later_emit].
          by apply (later_set_link _ rest' false). }
        split; [done |]. split; [done |]. split; [done |].
        rewrite log_emit, log_set_link, saved_app, Hs1. simpl. by rewrite app_nil_r.
  - change (-1 =? 2) with false. cbn [negb].
    eexists _, _, _. split; [reflexivity |].
    split; [by apply later_sys_write_failed |].
    split; [done |]. split; [done |]. split; [done |].
    rewrite log_emit, log_set_link, saved_app. simpl. by rewrite app_nil_r.
Qed.

Lemma read_entries_any dev : ∀ n a files w,
  ∃ rc files' w',
    read_entries (Some dev) n a files w = Ret (rc, files') w'
    ∧ later w w'
    ∧ cells w' = cells w
    ∧ saved (log w') = saved (log w).
Proof.
  induction n as [| n IH]; intros a files w.
  - exists 0, files, w. split_and!; auto using later_refl.
  - simpl read_entries.
    destruct (read_fresh_run dev a sizeof_file_index_t w)
      as (r & b & w1 & Hread & L1 & C1 & _ & _ & S1).
    rewrite (bind_run _ _ _ _ _ Hread). cbn [fst snd].
    destruct (negb (err_eqb r AT24C256_OK)).
    + eexists _, _, _. unfold ret. split; [reflexivity |]. done.
    + destruct (IH (u16 (a + sizeof_file_index_t))
                  (files ++ [file_index_of_bytes (default [] b)]) w1)
        as (rc & files' & w' & Hrun & L2 & C2 & S2).
      exists rc, files', w'. split; [done |].
      split; [by eapply later_trans |]. split; congruence.
Qed.

Lemma read_file_index_any dev w :
  ∃ rc files w',
    read_file_index (Some dev) w = Ret (rc, files) w'
    ∧ later w w'
    ∧ cells w' = cells w
    ∧ saved (log w') = saved (log w).
Proof.
  unfold read_file_index.
  destruct (read_fresh_run dev EEPROM_START_ADDRESS sizeof_index_header_t w)
    as (r & b & w1 & Hread & L1 & C1 & _ & _ & S1).
  rewrite (bind_run _ _ _ _ _ Hread). cbn [fst snd].
  destruct (negb (err_eqb r AT24C256_OK)).
  { eexists _, _, _. unfold ret. split; [reflexivity |]. done. }
  cbv zeta.
  destruct (negb (bool_decide (magic (header_of_bytes (default [] b)) = CAM_MAGIC))).
  { eexists _, _, _. unfold ret. split; [reflexivity |]. done. }
  destruct (file_count (header_of_bytes (default [] b)) >? MAX_FILES).
  { eexists _, _, _. unfold ret. split; [reflexivity |]. done. }
  destruct (read_entries_any dev
              (Z.to_nat (file_count (header_of_bytes (default [] b))))
              (u16 (EEPROM_START_ADDRESS + sizeof_index_header_t)) [] w1)
    as (rc & files & w' & Hrun & L2 & C2 & S2).
  exists rc, files, w'. split; [done |].
  split; [by eapply later_trans |]. split; congruence.
Qed.

(** One file of the directory, whatever the array and the link: the
    call returns, the array is as it was, and a file is saved exactly
    when the result is 0. *)
Lemma read_file_any dev f out w :
  ∃ s w',
    read_file_from_eeprom (Some dev) f out w = Ret s w'
    ∧ later w w'
    ∧ cells w' = cells w
    ∧ ∃ new, saved (log w') = saved (log w) ++ new
             ∧ len new = (if restore_code s =? 0 then 1 else 0).
Proof.
  unfold read_file_from_eeprom.
  destruct (sys_malloc_run (size f) w) as (got & w1 & Hm & L1 & C1 & G1 & _).
  rewrite (bind_run _ _ _ _ _ Hm).
  destruct got; cbn [negb].
  2:{ eexists _, _. unfold ret. split; [reflexivity |]. split; [done |].
      split; [done |]. exists []. rewrite app_nil_r, G1. done. }
  destruct (read_fresh_run dev (address f) (size f) w1)
    as (r & b & w2 & Hread & L2 & C2 & _ & _ & S2).
  rewrite (bind_run _ _ _ _ _ Hread). cbn [fst snd].
  assert (later w w2) as L02 by (by eapply later_trans).
  assert (saved (log w2) = saved (log w)) as S02 by congruence.
  destruct (negb (err_eqb r AT24C256_OK)).
  { eexists _, _. unfold ret. split; [reflexivity |]. split; [done |].
    split; [congruence |]. exists []. by rewrite app_nil_r. }
  cbv zeta.
  destruct (negb (calculate_checksum (default [] b) 0 =? checksum f)).
  { eexists _, _. unfold ret. split; [reflexivity |]. split; [done |].
    split; [congruence |]. exists []. by rewrite app_nil_r. }
  destruct (sys_fopen_run w2) as (ok1 & w3 & Ho & L3 & C3 & G3 & _).
  rewrite (bind_run _ _ _ _ _ Ho).
  destruct ok1; cbn [negb].
  2:{ eexists _, _. unfold ret. split; [reflexivity |].
      split; [by eapply later_trans |].
      split; [congruence |]. exists []. rewrite app_nil_r. split; [congruence | done]. }
  destruct (sys_fread_fwrite_run w3) as (ok2 & w4 & Hw & L4 & C4 & G4 & _).
  rewrite (bind_run _ _ _ _ _ Hw).
  destruct ok2; cbn [negb].
  2:{ eexists _, _. unfold ret. split; [reflexivity |].
      split; [do 2 (eapply later_trans; [eassumption |]); done |].
      split; [congruence |]. exists []. rewrite app_nil_r. split; [congruence | done]. }
  eexists _, _. split; [reflexivity |].
  split; [do 3 (eapply later_trans; [eassumption |]); apply later_emit |].
  split; [rewrite cells_emit; congruence |].
  eexists. rewrite log_emit, saved_app, G4, G3, S02. split; [reflexivity |]. done.
Qed.

Lemma restore_loop_any dev out : ∀ files n w,
  ∃ statuses w' new,
    restore_loop (Some dev) files out n w = Ret (statuses, n + len new) w'
    ∧ later w w'
    ∧ cells w' = cells w
    ∧ saved (log w') = saved (log w) ++ new
    ∧ length statuses = length files.
Proof.
  induction files as [| f files IH]; intros n w.
  - exists [], w, []. simpl. unfold ret. rewrite app_nil_r, Z.add_0_r.
    split_and!; auto using later_refl.
  - simpl restore_loop.
    destruct (read_file_any dev f out w) as (s & w1 & Hone & L1 & C1 & new1 & S1 & Hn1).
    rewrite (bind_run _ _ _ _ _ Hone).
    destruct (IH (if restore_code s =? 0 then n + 1 else n) w1)
      as (statuses & w' & new & Hrest & L2 & C2 & S2 & Hlen).
    rewrite (bind_run _ _ _ _ _ Hrest). cbn [fst snd]. unfold ret.
    exists (s :: statuses), w', (new1 ++ new).
    split.
    { do 2 f_equal. rewrite len_app, Hn1. destruct (restore_code s =? 0); lia. }
    split; [by eapply later_trans |].
    split; [congruence |].
    split; [by rewrite S2, S1, <- (assoc app) |].
    simpl. by rewrite Hlen.
Qed.

Lemma forallb_false_Exists {A} (f : A → bool) : ∀ l,
  forallb f l = false → Exists (λ x, f x = false) l.
Proof.
  induction l as [| x l IH]; [done |]. simpl.
  destruct (f x) eqn:Hx; [| by constructor].
  intros Hl. apply Exists_cons_tl. by apply IH.
Qed.

(** The reader, whatever the array holds and whatever fails on the way:
    either it returns, or its table holds an entry whose name does not
    end within the member. *)
Lemma reader_main_any w :
  (∃ code w' new,
     camera_data_read.main w = Ret code w'
     ∧ cells w' = cells w
     ∧ saved (log w') = saved (log w) ++ new
     ∧ (code = EXIT_SUCCESS ∧ new ≠ [] ∨ code = EXIT_FAILURE ∧ new = []))
  ∨ (camera_data_read.main w = Undefined
     ∧ ∃ w0 files w1,
         later w w0 ∧ cells w0 = cells w
         ∧ read_file_index (Some at24c256_dev) w0 = Ret (0, files) w1
         ∧ Exists (λ f, terminated f = false) files).
Proof.
  unfold camera_data_read.main.
  destruct (create_directory_run "out" w) as (d & w1 & Hdir & L1 & C1 & G1 & _).
  rewrite (bind_run _ _ _ _ _ Hdir).
  destruct (negb (d =? 0)).
  { left. eexists _, _, []. unfold ret. split; [reflexivity |]. split; [done |].
    rewrite app_nil_r. split; [by rewrite G1 | by right]. }
  destruct (init_run AT24C256_DEFAULT_CONFIG w1)
    as (r & h & w2 & Hinit & L2 & C2 & G2 & Hres & _).
  rewrite (bind_run _ _ _ _ _ Hinit).
  destruct Hres as [[-> ->] | [Hr ->]].
  2:{ pose proof (err_eqb_ok r) as Hcase.
      destruct (err_eqb r AT24C256_OK); [done |]. cbn [negb].
      left. eexists _, _, []. unfold ret. split; [reflexivity |].
      split; [congruence |]. rewrite app_nil_r.
      split; [by rewrite G2, G1 | by right]. }
  change (negb (err_eqb AT24C256_OK AT24C256_OK)) with false. cbv iota.
  fold at24c256_dev.
  destruct (read_file_index_any at24c256_dev w2)
    as (rc & files & w3 & Hread & L3 & C3 & S3).
  rewrite (bind_run _ _ _ _ _ Hread).
  assert (saved (log w3) = saved (log w)) as S03 by (rewrite S3, G2, G1; done).
  destruct (Z.eqb_spec rc 0) as [-> | Hrc]; cbn [negb].
  2:{ unfold bind, at24c256_deinit, ret.
      left. eexists _, _, []. split; [reflexivity |].
      split; [congruence |]. rewrite app_nil_r. split; [done | by right]. }
  destruct (forallb terminated files) eqn:Hnames; cbn [negb].
  2:{ right. split; [done |]. exists w2, files, w3.
      split; [exact (later_trans _ _ _ L1 L2) |].
      split; [congruence |]. split; [done |].
      by apply forallb_false_Exists. }
  left. unfold camera_data_read.read_files.
  destruct (restore_loop_any at24c256_dev "out" files 0 w3)
    as (statuses & w4 & new & Hloop & L4 & C4 & S4 & _).
  rewrite (bind_run _ _ _ _ _ Hloop).
  unfold bind, at24c256_deinit, ret. cbn [snd].
  pose proof (len_nonneg new) as Hnew.
  destruct (Z.gtb_spec (0 + len new) 0) as [Hsome | Hnone].
  - exists EXIT_SUCCESS, w4, new. split; [done |].
    split; [congruence |]. split; [by rewrite S4, S03 |].
    left. split; [done |]. intros ->. unfold len in Hsome. simpl in Hsome. lia.
  - exists EXIT_FAILURE, w4, new. split; [done |].
    split; [congruence |]. split; [by rewrite S4, S03 |].
    right. split; [done |]. destruct new; [done |]. rewrite len_cons in Hnone.
    pose proof (len_nonneg new). lia.
Qed.

(** [camera_data_read], whatever the array holds and whatever fails on
    the way, never runs on for ever and never changes the array. It
    returns one of the two exit statuses, success exactly when it saved
    at least one file, unless the directory it read holds an entry
    whose name does not end within the [filename] member: printing that
    name has no defined behaviour. When every name of the directory in
    the array ends within its member, the run is defined. *)
Theorem reader_never_writes_and_succeeds_iff_a_file_is_saved (w : world) :
  ((∃ code w' new,
      camera_data_read.main w = Ret code w'
      ∧ cells w' = cells w
      ∧ saved (log w') = saved (log w) ++ new
      ∧ (code = EXIT_SUCCESS ∧ new ≠ [] ∨ code = EXIT_FAILURE ∧ new = []))
   ∨ (camera_data_read.main w = Undefined
      ∧ ∃ w0 files w1,
          later w w0 ∧ cells w0 = cells w
          ∧ read_file_index (Some at24c256_dev) w0 = Ret (0, files) w1
          ∧ Exists (λ f, terminated f = false) files))
  ∧ (attached at24c256_dev w →
     Forall (λ f, terminated f = true)
       (index_entries (cells w) (Z.to_nat (file_count (index_header (cells w))))) →
     camera_data_read.main w ≠ Undefined).
Proof.
  split; [apply reader_main_any |].
  intros Hdev Hnames Hundef.
  destruct (reader_main_any w)
    as [(code & w' & new & Hrun & _) | (_ & w0 & files & w1 & L0 & C0 & Hread & Hbad)];
    [congruence |].
  destruct (read_file_index_run at24c256_dev w0)
    as (rc & files' & w1' & Hread' & _ & _ & _ & Hgot & _).
  { by eapply later_attached. } { vm_compute. discriminate. }
  rewrite Hread in Hread'. injection Hread' as <- <- <-.
  destruct (Hgot eq_refl) as (_ & Hcount & ->).
  rewrite C0 in *.
  apply Exists_exists in Hbad as (f & Hf & Hfalse).
  rewrite Forall_forall in Hnames. rewrite (Hnames f Hf) in Hfalse. done.
Qed.

Lemma reader_never_writes_and_succeeds_iff_a_file_is_saved_witness :
  camera_data_read.main at24c256_written ≠ Undefined
  ∧ camera_data_read.main at24c256_overrun = Undefined
  ∧ ∃ w0 files w1,
      later at24c256_overrun w0 ∧ cells w0 = cells at24c256_overrun
      ∧ read_file_index (Some at24c256_dev) w0 = Ret (0, files) w1
      ∧ Exists (λ f, terminated f = false) files.
Proof.
  split; [| split].
  - apply (proj2 (reader_never_writes_and_succeeds_iff_a_file_is_saved
                    at24c256_written)).
    + unfold attached. split; [reflexivity |].
      split; [split; reflexivity |]. split; [reflexivity |].
      split; [exists 1; reflexivity |].
      split; vm_compute; discriminate.
    + replace (index_entries (cells at24c256_written)
                 (Z.to_nat (file_count (index_header (cells at24c256_written)))))
        with [ {| filename := "a.dat"; address := 1136; size := 3; checksum := 0 |};
               {| filename := "b.dat"; address := 1139; size := 2; checksum := 1 |} ]
        by (vm_compute; reflexivity).
      repeat constructor.
  - vm_compute. reflexivity.
  - destruct (proj1 (reader_never_writes_and_succeeds_iff_a_file_is_saved
                       at24c256_overrun))
      as [(code & w' & new & Hrun & _) | [_ Hbad]]; [| exact Hbad].
    exfalso.
    assert (value (camera_data_read.main at24c256_overrun) = None) as Hnone
      by (vm_compute; reflexivity).
    rewrite Hrun in Hnone. discriminate.
Defined.

(** ** The example program *)

(** A write, a pause and the read of the same range, on a link without
    faults. *)
Lemma write_pause_read dev a data buf pause w :
  attached dev w → valid_range dev a (len data) → len data ≤ len buf → reliable w →
  ∃ w1 w3,
    at24c256_write (Some dev) a (Some data) (len data) w = Ret AT24C256_OK w1
    ∧ at24c256_read (Some dev) a (Some buf) (len data) (emit (Usleep pause) w1)
      = Ret (AT24C256_OK, Some (data ++ drop (Z.to_nat (len data)) buf)) w3
    ∧ later w w3
    ∧ cells w3 = splice a data (cells w)
    ∧ log w3 = log w1 ++ [Usleep pause; I2cWrite (addr_bytes a) true;
                          I2cRead (len data) true].
Proof.
  intros Hdev Hrange Hbuf Hrel.
  destruct (write_run_reliable dev a data w Hdev Hrange Hrel)
    as (cs & w1 & _ & Hwrite & L1 & _ & _ & C1 & _).
  set (w2 := emit (Usleep pause) w1).
  assert (later w w2) as L2 by (eapply later_trans; [exact L1 | apply later_emit]).
  destruct (read_run_reliable dev a (len data) buf w2) as (w3 & Hread & L3 & C3 & Hlog);
    try done.
  { by eapply later_attached. } { by eapply later_reliable. }
  exists w1, w3. split; [done |].
  pose proof Hdev as (_ & _ & _ & _ & Htot & _).
  pose proof Hrange as ([Ha _] & _ & _ & Hfit).
  assert (slice a (len data) (cells w2) = data) as Hslice.
  { subst w2. rewrite cells_emit, C1. apply slice_splice; lia. }
  rewrite Hslice in Hread. split; [exact Hread |].
  split; [by eapply later_trans |].
  split; [by rewrite C3 |].
  rewrite Hlog. subst w2. rewrite log_emit. by rewrite <- (assoc app).
Qed.

Lemma memcmp_eq_prefix data rest n :
  n = len data → memcmp_eq data (data ++ rest) n = true.
Proof.
  intros ->. unfold memcmp_eq, len. rewrite Nat2Z.id. apply bool_decide_eq_true.
  by rewrite take_app_length, take_ge.
Qed.

Lemma basic_test_run dev w :
  attached dev w → config dev = AT24C256_DEFAULT_CONFIG → reliable w →
  ∃ w',
    example.basic_read_write_test (Some dev) w = Ret 0 w'
    ∧ later w w'
    ∧ cells w' = splice 4096 (bytes_of_string test_string ++ [0]) (cells w).
Proof.
  intros Hdev Hcfg Hrel. unfold example.basic_read_write_test. cbv zeta.
  set (data := bytes_of_string test_string ++ [0]).
  change (u16 (len (bytes_of_string test_string) + 1)) with (len data).
  destruct (write_pause_read dev 4096 data (replicate 64 0) 10000 w)
    as (w1 & w3 & Hwrite & Hread & L & C & _); try done.
  { unfold valid_range, is_u16. rewrite Hcfg. vm_compute. intuition discriminate. }
  rewrite (bind_run _ _ _ _ _ Hwrite).
  change (negb (err_eqb AT24C256_OK AT24C256_OK)) with false. cbv iota.
  unfold bind at 1. unfold usleep.
  rewrite (bind_run _ _ _ _ _ Hread). cbn [fst snd].
  change (negb (err_eqb AT24C256_OK AT24C256_OK)) with false. cbv iota.
  change (default [] (Some ?x)) with x.
  rewrite memcmp_eq_prefix by done. by exists w3.
Qed.

Lemma cross_page_test_run dev w :
  attached dev w → config dev = AT24C256_DEFAULT_CONFIG → reliable w →
  ∃ w1 w',
    at24c256_write (Some dev) 8128 (Some (alphabet 128)) 128 w = Ret AT24C256_OK w1
    ∧ example.cross_page_write_test (Some dev) w = Ret 0 w'
    ∧ later w w'
    ∧ cells w' = splice 8128 (alphabet 128) (cells w)
    ∧ log w' = log w1 ++ [Usleep 20000; I2cWrite (addr_bytes 8128) true;
                          I2cRead 128 true].
Proof.
  intros Hdev Hcfg Hrel. unfold example.cross_page_write_test. cbv zeta.
  change (Z.to_nat 128) with 128%nat.
  set (data := alphabet 128).
  assert (len data = 128) as Hlen by done.
  destruct (write_pause_read dev 8128 data (replicate 128 0) 20000 w)
    as (w1 & w3 & Hwrite & Hread & L & C & Hlog); try done.
  { unfold valid_range, is_u16. rewrite Hcfg, Hlen. simpl. lia. }
  rewrite Hlen in Hwrite, Hread, Hlog.
  rewrite (bind_run _ _ _ _ _ Hwrite).
  change (negb (err_eqb AT24C256_OK AT24C256_OK)) with false. cbv iota.
  unfold bind at 1. unfold usleep.
  rewrite (bind_run _ _ _ _ _ Hread). cbn [fst snd].
  change (negb (err_eqb AT24C256_OK AT24C256_OK)) with false. cbv iota.
  change (default [] (Some ?x)) with x.
  rewrite memcmp_eq_prefix by done. by exists w1, w3.
Qed.

Lemma forallb_replicate_ff n rest :
  forallb (λ b, b =? 255) (take n (replicate n 255 ++ rest)) = true.
Proof.
  rewrite take_app_le by (rewrite length_replicate; lia).
  rewrite take_replicate, Nat.min_id.
  induction n as [| n IH]; [done |]. simpl. exact IH.
Qed.

Lemma erase_test_run dev w :
  attached dev w → config dev = AT24C256_DEFAULT_CONFIG → reliable w → provided w →
  ∃ w',
    example.erase_test (Some dev) w = Ret 0 w'
    ∧ later w w'
    ∧ cells w' = splice 8192 (replicate 32 255) (cells w).
Proof.
  intros Hdev Hcfg Hrel [Hheap _]. unfold example.erase_test. cbv zeta.
  change (Z.to_nat 32) with 32%nat.
  pose proof Hdev as (Hflag & _).
  unfold bind at 1.
  rewrite erase_unfold by (apply check_address_length_ok; [done | lia |];
                           rewrite Hcfg; simpl; lia).
  destruct (pop (heap w)) as [ok rest] eqn:Hpop.
  destruct (pop_spec _ _ _ Hpop) as [_ Hok]. rewrite (Hok Hheap).
  set (w0 := set_heap rest w).
  assert (later w w0) as L0 by (by eapply later_set_heap).
  set (data := replicate 32 255).
  assert (len data = 32) as Hlen by done.
  assert (attached dev w0) as Hdev0 by (by eapply later_attached).
  assert (reliable w0) as Hrel0 by (by eapply later_reliable).
  assert (valid_range dev 8192 (len data)) as Hrange.
  { unfold valid_range, is_u16. rewrite Hcfg, Hlen. simpl. lia. }
  destruct (write_pause_read dev 8192 data (replicate 32 0) 10000 w0 Hdev0 Hrange)
    as (w1 & w3 & Hwrite & Hread & L & C & _); [done | done |].
  rewrite Hlen in Hwrite, Hread.
  change (Z.to_nat 32) with 32%nat. fold data.
  rewrite Hwrite.
  change (negb (err_eqb AT24C256_OK AT24C256_OK)) with false. cbv iota.
  unfold bind at 1. unfold usleep.
  rewrite (bind_run _ _ _ _ _ Hread). cbn [fst snd].
  change (negb (err_eqb AT24C256_OK AT24C256_OK)) with false. cbv iota.
  change (default [] (Some ?x)) with x.
  unfold data at 1. rewrite forallb_replicate_ff.
  exists w3. split; [done |]. split; [by eapply later_trans |]. done.
Qed.

Lemma performance_test_run dev w :
  attached dev w → config dev = AT24C256_DEFAULT_CONFIG → reliable w →
  ∃ w',
    example.performance_test (Some dev) w = Ret 0 w'
    ∧ later w w'
    ∧ cells w' = splice 12288 (ramp 256) (cells w).
Proof.
  intros Hdev Hcfg Hrel. unfold example.performance_test. cbv zeta.
  change (Z.to_nat 256) with 256%nat.
  set (data := ramp 256).
  assert (len data = 256) as Hlen by done.
  destruct (write_pause_read dev 12288 data (replicate 256 0) 50000 w)
    as (w1 & w3 & Hwrite & Hread & L & C & _); try done.
  { unfold valid_range, is_u16. rewrite Hcfg, Hlen. simpl. lia. }
  rewrite Hlen in Hwrite, Hread.
  unfold bind at 1. unfold clock_gettime at 1.
  rewrite (bind_run _ _ _ _ _ Hwrite).
  change (negb (err_eqb AT24C256_OK AT24C256_OK)) with false. cbv iota.
  unfold bind at 1. unfold clock_gettime at 1.
  unfold bind at 1. unfold usleep.
  unfold bind at 1. unfold clock_gettime at 1.
  rewrite (bind_run _ _ _ _ _ Hread). cbn [fst snd].
  change (negb (err_eqb AT24C256_OK AT24C256_OK)) with false. cbv iota.
  unfold bind at 1. unfold clock_gettime at 1.
  change (default [] (Some ?x)) with x.
  rewrite memcmp_eq_prefix by done. by exists w3.
Qed.

(** The example program on a sound device: with the AT24C256 behind the
    handle, a link without faults and memory at hand, every one of its
    four tests passes, whatever the array held before, and the program
    exits with success. The array then holds the test string at 0x1000,
    the alphabet pattern from 0x1FC0 with the 32 bytes from 0x2000
    erased over it, and the ramp at 0x3000; nothing else changed. *)
Theorem example_passes_on_a_sound_device (w : world) :
  attached at24c256_dev w → reliable w → provided w →
  ∃ w',
    example.main w = Ret EXIT_SUCCESS w'
    ∧ cells w'
      = splice 12288 (ramp 256)
          (splice 8192 (replicate 32 255)
             (splice 8128 (alphabet 128)
                (splice 4096 (bytes_of_string test_string ++ [0]) (cells w)))).
Proof.
  intros Hdev Hrel Hprov. unfold example.main.
  destruct (init_run AT24C256_DEFAULT_CONFIG w)
    as (r & h & w0 & Hinit & L0 & C0 & _ & Hres & Hok).
  rewrite (bind_run _ _ _ _ _ Hinit).
  specialize (Hok Hrel Hprov). subst r.
  destruct Hres as [[_ ->] | [? _]]; [| done].
  fold at24c256_dev.
  change (negb (err_eqb AT24C256_OK AT24C256_OK)) with false. cbv iota.
  assert (attached at24c256_dev w0) as Hdev0 by (by eapply later_attached).
  assert (reliable w0) as Hrel0 by (by eapply later_reliable).
  assert (provided w0) as Hprov0 by (by eapply later_provided).
  destruct (basic_test_run at24c256_dev w0) as (w1 & H1 & L1 & C1); try done.
  rewrite (bind_run _ _ _ _ _ H1).
  assert (attached at24c256_dev w1) as Hdev1 by (by eapply later_attached).
  assert (reliable w1) as Hrel1 by (by eapply later_reliable).
  assert (provided w1) as Hprov1 by (by eapply later_provided).
  destruct (cross_page_test_run at24c256_dev w1) as (_ & w2 & _ & H2 & L2 & C2 & _);
    try done.
  rewrite (bind_run _ _ _ _ _ H2).
  assert (attached at24c256_dev w2) as Hdev2 by (by eapply later_attached).
  assert (reliable w2) as Hrel2 by (by eapply later_reliable).
  assert (provided w2) as Hprov2 by (by eapply later_provided).
  destruct (erase_test_run at24c256_dev w2) as (w3 & H3 & L3 & C3); try done.
  rewrite (bind_run _ _ _ _ _ H3).
  assert (attached at24c256_dev w3) as Hdev3 by (by eapply later_attached).
  assert (reliable w3) as Hrel3 by (by eapply later_reliable).
  destruct (performance_test_run at24c256_dev w3) as (w4 & H4 & L4 & C4); try done.
  rewrite (bind_run _ _ _ _ _ H4).
  unfold bind, at24c256_deinit, ret.
  exists w4. split; [reflexivity |]. by rewrite C4, C3, C2, C1, C0.
Qed.

Lemma example_passes_on_a_sound_device_witness :
  ∃ w',
    example.main at24c256_blank = Ret EXIT_SUCCESS w'
    ∧ cells w'
      = splice 12288 (ramp 256)
          (splice 8192 (replicate 32 255)
             (splice 8128 (alphabet 128)
                (splice 4096 (bytes_of_string test_string ++ [0])
                   (cells at24c256_blank)))).
Proof.
  apply (example_passes_on_a_sound_device at24c256_blank).
  - exact at24c256_attached.
  - apply Forall_nil_2.
  - split; apply Forall_nil_2.
Defined.

Lemma alphabet_chunks :
  chunking 64 8128 (alphabet 128)
    [(8128, take 64 (alphabet 128)); (8192, drop 64 (alphabet 128))].
Proof.
  apply (chunking_next 64 8128 (alphabet 128) 64
           [(8192, drop 64 (alphabet 128))]); [done | done |].
  apply (chunking_next 64 8192 (drop 64 (alphabet 128)) 64 []); [done | done |].
  apply chunking_done.
Qed.

(** The test the example calls the cross-page write starts on a page
    boundary (0x1FC0 is 127 pages of 64 bytes) and is two pages long:
    the driver sends it as two full pages, and no chunk of it is cut
    short by the end of a page. *)
Theorem cross_page_test_sends_two_full_pages (dev : at24c256_dev_s) (w : world) :
  attached dev w → config dev = AT24C256_DEFAULT_CONFIG → reliable w →
  8128 mod page_size (config dev) = 0
  ∧ ∃ w',
      example.cross_page_write_test (Some dev) w = Ret 0 w'
      ∧ log w' = log w
          ++ [ I2cWrite (addr_bytes 8128 ++ take 64 (alphabet 128)) true; Usleep 5000;
               I2cWrite (addr_bytes 8192 ++ drop 64 (alphabet 128)) true; Usleep 5000;
               Usleep 20000;
               I2cWrite (addr_bytes 8128) true; I2cRead 128 true ].
Proof.
  intros Hdev Hcfg Hrel. split; [by rewrite Hcfg |].
  destruct (cross_page_test_run dev w Hdev Hcfg Hrel)
    as (w1 & w' & Hwrite & Hrun & _ & _ & Hlog).
  assert (valid_range dev 8128 (len (alphabet 128))) as Hrange.
  { unfold valid_range, is_u16. rewrite Hcfg. vm_compute. intuition discriminate. }
  destruct (write_run_reliable dev 8128 (alphabet 128) w Hdev Hrange Hrel)
    as (cs & w1' & Hcs & Hwrite' & _ & _ & _ & _ & Hlog1).
  change (len (alphabet 128)) with 128 in Hwrite'.
  rewrite Hwrite in Hwrite'. inversion Hwrite'; subst w1'.
  rewrite Hcfg in Hcs, Hlog1. simpl page_size in Hcs. simpl write_delay_ms in Hlog1.
  rewrite (chunking_unique 64 _ _ _ _ Hcs alphabet_chunks) in Hlog1.
  exists w'. split; [done |].
  rewrite Hlog, Hlog1. by rewrite <- (assoc app).
Qed.

Lemma cross_page_test_sends_two_full_pages_witness :
  8128 mod page_size (config at24c256_dev) = 0
  ∧ ∃ w',
      example.cross_page_write_test (Some at24c256_dev) at24c256_blank = Ret 0 w'
      ∧ log w' = log at24c256_blank
          ++ [ I2cWrite (addr_bytes 8128 ++ take 64 (alphabet 128)) true; Usleep 5000;
               I2cWrite (addr_bytes 8192 ++ drop 64 (alphabet 128)) true; Usleep 5000;
               Usleep 20000;
               I2cWrite (addr_bytes 8128) true; I2cRead 128 true ].
Proof.
  apply (cross_page_test_sends_two_full_pages at24c256_dev at24c256_blank).
  - exact at24c256_attached.
  - reflexivity.
  - apply Forall_nil_2.
Defined.

(** ** The programs without the directory *)

Lemma take_nil_inv {A} (l : list A) n : (0 < n)%nat → take n l = [] → l = [].
Proof. destruct l, n; simpl; intros; (done || lia). Qed.

Lemma verify_loop_spec : ∀ fuel f1 f2,
  (length f1 < fuel)%nat →
  verify_loop fuel f1 f2 = Some (if bool_decide (f1 = f2) then 0 else -1).
Proof.
  induction fuel as [| fuel IH]; intros f1 f2 Hfuel; [lia |].
  cbn [verify_loop]. cbv zeta.
  destruct (Z.eqb_spec (len (take 1024 f1)) (len (take 1024 f2))) as [Hlen | Hlen];
    cbn [negb orb].
  2:{ rewrite bool_decide_eq_false_2; [done |]. intros ->. done. }
  unfold memcmp_eq.
  rewrite (take_ge (take 1024 f1)) by (unfold len; lia).
  rewrite (take_ge (take 1024 f2)) by (unfold len in *; lia).
  destruct (decide (take 1024 f1 = take 1024 f2)) as [Hbuf | Hbuf].
  2:{ rewrite (bool_decide_eq_false_2 _ Hbuf). cbn [negb].
      rewrite bool_decide_eq_false_2; [done |]. intros ->. done. }
  rewrite (bool_decide_eq_true_2 _ Hbuf). cbn [negb].
  destruct (Z.gtb_spec (len (take 1024 f1)) 0) as [Hsome | Hnone].
  - rewrite IH.
    + f_equal.
      destruct (decide (f1 = f2)) as [-> | Hne].
      * by rewrite !bool_decide_eq_true_2.
      * rewrite !bool_decide_eq_false_2; [done | done |].
        intros Hdrop. apply Hne.
        by rewrite <- (take_drop 1024 f1), <- (take_drop 1024 f2), Hbuf, Hdrop.
    + rewrite length_drop. unfold len in Hsome. rewrite length_take in Hsome. lia.
  - assert (f1 = []) as ->.
    { apply (take_nil_inv _ 1024); [lia |].
      destruct (take 1024 f1); [done |]. rewrite len_cons in Hnone.
      pose proof (len_nonneg l). lia. }
    assert (f2 = []) as ->.
    { apply (take_nil_inv _ 1024); [lia |]. by rewrite <- Hbuf. }
    done.
Qed.

(** [verify_files] compares block by block and stops at the first
    difference; all the same it decides the equality of the two files:
    it returns 0 when they hold the same bytes and -1 otherwise, also
    -1 when one of them cannot be opened. *)
Theorem verify_files_decides_equality (f1 f2 : list Z) :
  verify_files (Some f1) (Some f2) = Some (if bool_decide (f1 = f2) then 0 else -1)
  ∧ verify_files None (Some f2) = Some (-1)
  ∧ verify_files (Some f1) None = Some (-1).
Proof.
  split; [| done]. unfold verify_files. apply verify_loop_spec. lia.
Qed.

Lemma slice_app_split a (x y cs : list Z) :
  0 ≤ a →
  slice a (len (x ++ y)) cs = x ++ y →
  slice a (len x) cs = x ∧ slice (a + len x) (len y) cs = y.
Proof.
  unfold slice, len. intros Ha Hxy. rewrite length_app in Hxy.
  replace (Z.to_nat (Z.of_nat (length x + length y))) with (length x + length y)%nat
    in Hxy by lia.
  rewrite !Nat2Z.id.
  split.
  - apply (f_equal (take (length x))) in Hxy.
    rewrite take_take, take_app_length in Hxy.
    by replace (length x `min` (length x + length y))%nat with (length x) in Hxy by lia.
  - apply (f_equal (drop (length x))) in Hxy.
    rewrite drop_app_length in Hxy.
    replace (Z.to_nat (a + Z.of_nat (length x))) with (Z.to_nat a + length x)%nat by lia.
    by rewrite <- drop_drop, take_drop_commute.
Qed.

Lemma flat_process_loop_cons handle dir e rest cur n :
  flat_write.process_loop handle dir (e :: rest) cur n =
  if eligible e then
    s <- flat_write.write_file_to_eeprom handle (join_path dir (d_name e)) e cur ;;
    match s with
    | Written file_size =>
        flat_write.process_loop handle dir rest (u16 (cur + file_size)) (n + 1)
    | NotWritten => flat_write.process_loop handle dir rest cur n
    end
  else flat_write.process_loop handle dir rest cur n.
Proof.
  unfold eligible. cbn [flat_write.process_loop].
  destruct (String.eqb (d_name e) "." || String.eqb (d_name e) ".."); [done |].
  destruct (is_dat (d_name e)); [| done].
  by destruct (is_regular e).
Qed.

Lemma flat_store_one dev path e cur w :
  attached dev w →
  config dev = AT24C256_DEFAULT_CONFIG →
  reliable w → provided w →
  0 ≤ cur → 0 < len (contents e) → cur + len (contents e) ≤ 32768 →
  ∃ w',
    flat_write.write_file_to_eeprom (Some dev) path e cur w
    = Ret (Written (len (contents e))) w'
    ∧ later w w'
    ∧ cells w' = splice cur (contents e) (cells w).
Proof.
  intros Hdev Hcfg Hrel Hprov Hcur Hpos Hfit.
  unfold flat_write.write_file_to_eeprom, MAX_FILE_SIZE.
  destruct (sys_fopen_run w) as (ok1 & w1 & H1 & L1 & C1 & _ & _ & Hok1).
  rewrite (bind_run _ _ _ _ _ H1), (Hok1 Hprov). cbn [negb].
  destruct (Z.gtb_spec (len (contents e)) (32 * 1024)); [lia |].
  assert (provided w1) as Hprov1 by (by eapply later_provided).
  destruct (sys_malloc_run (len (contents e)) w1) as (ok2 & w2 & H2 & L2 & C2 & _ & _ & Hok2).
  rewrite (bind_run _ _ _ _ _ H2), (Hok2 Hprov1). cbn [negb].
  assert (provided w2) as Hprov2 by (by eapply later_provided).
  destruct (sys_fread_fwrite_run w2) as (ok3 & w3 & H3 & L3 & C3 & _ & _ & Hok3).
  rewrite (bind_run _ _ _ _ _ H3), (Hok3 Hprov2). cbn [negb].
  assert (later w w3) as L03 by (do 2 (eapply later_trans; [eassumption |]); done).
  rewrite u16_small by lia.
  destruct (write_run_reliable dev cur (contents e) w3)
    as (cs & w4 & _ & H4 & L4 & _ & _ & C4 & _).
  { by eapply later_attached. }
  { unfold valid_range, is_u16. rewrite Hcfg. simpl. lia. }
  { by eapply later_reliable. }
  rewrite (bind_run _ _ _ _ _ H4).
  change (negb (err_eqb AT24C256_OK AT24C256_OK)) with false. cbv iota.
  unfold bind, usleep, ret.
  eexists. split; [reflexivity |].
  split.
  { eapply later_trans; [exact L03 |]. eapply later_trans; [exact L4 |]. apply later_emit. }
  rewrite cells_emit, C4. congruence.
Qed.

(** The loop of the earlier writer, when every blob it takes up can be
    stored: the blobs lie one after the other from [cur] on. *)
Lemma flat_store_all dev dir : ∀ entries cur n w,
  attached dev w →
  config dev = AT24C256_DEFAULT_CONFIG →
  reliable w → provided w →
  0 ≤ cur →
  Forall (λ e, 0 < len (contents e)) (chosen entries) →
  cur + len (concat (map contents (chosen entries))) ≤ 32768 →
  ∃ w',
    flat_write.process_loop (Some dev) dir entries cur n w
    = Ret (n + len (chosen entries)) w'
    ∧ later w w'
    ∧ cells w' = splice cur (concat (map contents (chosen entries))) (cells w).
Proof.
  induction entries as [| e rest IH]; intros cur n w Hdev Hcfg Hrel Hprov Hcur Hpos Hfit.
  - exists w. simpl. unfold ret. rewrite splice_nil.
    change (len (chosen [])) with 0. rewrite Z.add_0_r.
    split_and!; auto using later_refl.
  - rewrite flat_process_loop_cons. rewrite chosen_cons in Hpos, Hfit |- *.
    destruct (eligible e) eqn:He; [| by apply IH].
    apply Forall_cons in Hpos as [Hpos1 Hpos].
    simpl in Hfit. rewrite len_app in Hfit.
    pose proof (len_nonneg (concat (map contents (chosen rest)))) as Hrest0.
    destruct (flat_store_one dev (join_path dir (d_name e)) e cur w)
      as (w1 & Hs & L1 & C1); try done; [lia |].
    rewrite (bind_run _ _ _ _ _ Hs).
    rewrite u16_small by lia.
    destruct (IH (cur + len (contents e)) (n + 1) w1) as (w' & Hrun & L & C).
    { by eapply later_attached. } { done. }
    { by eapply later_reliable. } { by eapply later_provided. }
    { lia. } { done. } { lia. }
    exists w'. split; [rewrite Hrun, len_cons; f_equal; lia |].
    split; [by eapply later_trans |].
    rewrite C, C1. simpl map. simpl concat.
    apply splice_splice; [done |].
    pose proof Hdev as (_ & _ & _ & _ & Htot & _). rewrite Hcfg in Htot. simpl in Htot.
    lia.
Qed.

Lemma flat_read_loop_cons handle dir out e rest cur n :
  flat_read.process_loop handle dir out (e :: rest) cur n =
  if eligible e then
    opened <- sys_fopen ;;
    if negb opened then flat_read.process_loop handle dir out rest cur n
    else
      s <- flat_read.read_file_from_eeprom handle (join_path out (d_name e))
             cur (len (contents e)) ;;
      if restore_code s =? 0
      then
        f1 <- sys_fopen ;;
        f2 <- sys_fopen ;;
        flat_read.process_loop handle dir out rest
          (u16 (cur + len (contents e))) (n + 1)
      else flat_read.process_loop handle dir out rest cur n
  else flat_read.process_loop handle dir out rest cur n.
Proof.
  unfold eligible. cbn [flat_read.process_loop].
  destruct (String.eqb (d_name e) "." || String.eqb (d_name e) ".."); [done |].
  destruct (is_dat (d_name e)); [| done].
  by destruct (is_regular e).
Qed.

Lemma flat_restore_one dev path cur n w :
  attached dev w → reliable w → provided w →
  valid_range dev cur n →
  ∃ w',
    flat_read.read_file_from_eeprom (Some dev) path cur n w = Ret Restored w'
    ∧ later w w'
    ∧ cells w' = cells w
    ∧ saved (log w') = saved (log w) ++ [(path, slice cur n (cells w))].
Proof.
  intros Hdev Hrel Hprov Hrange.
  pose proof Hrange as (_ & Hn & Hpos & _).
  unfold flat_read.read_file_from_eeprom.
  destruct (sys_malloc_run n w) as (ok & w1 & Hm & L1 & C1 & G1 & _ & Hok).
  rewrite (bind_run _ _ _ _ _ Hm), (Hok Hprov). cbn [negb].
  rewrite u16_small by (unfold is_u16 in Hn; lia).
  destruct (read_run_reliable dev cur n (replicate (Z.to_nat n) 0) w1)
    as (w2 & Hread & L2 & C2 & G2); try done.
  { by eapply later_attached. }
  { rewrite len_replicate by lia. lia. }
  { by eapply later_reliable. }
  rewrite (bind_run _ _ _ _ _ Hread). cbn [fst snd].
  change (negb (err_eqb AT24C256_OK AT24C256_OK)) with false. cbv iota zeta.
  change (default [] (Some ?x)) with x.
  rewrite drop_replicate, Nat.sub_diag, app_nil_r.
  assert (provided w2) as Hprov2.
  { eapply later_provided; [| exact Hprov]. exact (later_trans _ _ _ L1 L2). }
  destruct (sys_fopen_run w2) as (ok1 & w3 & Ho & L3 & C3 & G3 & _ & Hok1).
  rewrite (bind_run _ _ _ _ _ Ho), (Hok1 Hprov2). cbn [negb].
  assert (provided w3) as Hprov3 by (by eapply later_provided).
  destruct (sys_fread_fwrite_run w3) as (ok2 & w4 & Hw & L4 & C4 & G4 & _ & Hok2).
  rewrite (bind_run _ _ _ _ _ Hw), (Hok2 Hprov3). cbn [negb].
  eexists. split; [reflexivity |].
  split; [do 4 (eapply later_trans; [eassumption |]); apply later_emit |].
  split; [rewrite cells_emit; congruence |].
  rewrite log_emit, G4, G3, G2, G1, C1, !saved_app. simpl.
  by rewrite app_nil_r.
Qed.

(** The loop of the earlier reader, whatever the array holds: every
    entry taken up is saved, with the bytes of the array at the running
    address. *)
Lemma flat_restore_all dev dir out : ∀ entries cur n w,
  attached dev w →
  config dev = AT24C256_DEFAULT_CONFIG →
  reliable w → provided w →
  0 ≤ cur →
  Forall (λ e, 0 < len (contents e)) (chosen entries) →
  cur + len (concat (map contents (chosen entries))) ≤ 32768 →
  ∃ w',
    flat_read.process_loop (Some dev) dir out entries cur n w
    = Ret (n + len (chosen entries)) w'
    ∧ later w w'
    ∧ cells w' = cells w
    ∧ saved (log w') = saved (log w) ++ flat_saved out cur (chosen entries) (cells w).
Proof.
  induction entries as [| e rest IH];
    intros cur n w Hdev Hcfg Hrel Hprov Hcur Hpos Hfit.
  - exists w. simpl. unfold ret.
    change (len (chosen [])) with 0. rewrite Z.add_0_r, app_nil_r.
    split_and!; auto using later_refl.
  - rewrite flat_read_loop_cons. rewrite chosen_cons in Hpos, Hfit |- *.
    destruct (eligible e) eqn:He; [| by apply IH].
    apply Forall_cons in Hpos as [Hpos1 Hpos].
    simpl map in Hfit. simpl concat in Hfit.
    rewrite len_app in Hfit.
    pose proof (len_nonneg (concat (map contents (chosen rest)))) as Hrest0.
    destruct (sys_fopen_run w) as (ok & w0 & Ho & L0 & C0 & G0 & _ & Hok).
    rewrite (bind_run _ _ _ _ _ Ho), (Hok Hprov). cbn [negb].
    destruct (flat_restore_one dev (join_path out (d_name e)) cur (len (contents e)) w0)
      as (w1 & Hone & L1 & C1 & Hsaved).
    { by eapply later_attached. } { by eapply later_reliable. }
    { by eapply later_provided. }
    { unfold valid_range, is_u16. rewrite Hcfg. simpl. lia. }
    rewrite (bind_run _ _ _ _ _ Hone). change (restore_code Restored =? 0) with true.
    cbv iota. rewrite u16_small by lia.
    assert (later w w1) as L01 by exact (later_trans _ _ _ L0 L1).
    destruct (sys_fopen_run w1) as (v1 & wv & Hv1 & Lv1 & Cv1 & Gv1 & _).
    rewrite (bind_run _ _ _ _ _ Hv1).
    destruct (sys_fopen_run wv) as (v2 & wv' & Hv2 & Lv2 & Cv2 & Gv2 & _).
    rewrite (bind_run _ _ _ _ _ Hv2).
    assert (later w1 wv') as L1v by exact (later_trans _ _ _ Lv1 Lv2).
    assert (later w wv') as L0v by exact (later_trans _ _ _ L01 L1v).
    assert (cells wv' = cells w) as C01 by congruence.
    destruct (IH (cur + len (contents e)) (n + 1) wv') as (w' & Hrun & L & C & Hall).
    { by eapply later_attached. } { done. }
    { by eapply later_reliable. } { by eapply later_provided. }
    { lia. } { done. } { lia. }
    exists w'. split; [rewrite Hrun, len_cons; f_equal; lia |].
    split; [exact (later_trans _ _ _ L0v L) |].
    split; [congruence |].
    rewrite Hall, Gv2, Gv1, Hsaved, G0, C0, C01. simpl flat_saved.
    by rewrite <- (assoc app).
Qed.

(** When the array holds the blobs packed from [cur] on, these are the
    bytes the earlier reader saves. *)
Lemma flat_saved_held out cs : ∀ es cur,
  0 ≤ cur →
  slice cur (len (concat (map contents es))) cs = concat (map contents es) →
  flat_saved out cur es cs = map (λ e, (join_path out (d_name e), contents e)) es.
Proof.
  induction es as [| e es IH]; intros cur Hcur Hheld; [done |].
  simpl map in Hheld. simpl concat in Hheld.
  destruct (slice_app_split _ _ _ _ Hcur Hheld) as [Hmine Hrest].
  simpl. rewrite Hmine. f_equal.
  apply IH; [| done]. pose proof (len_nonneg (contents e)). lia.
Qed.

(** The earlier reader on a sound link. *)
Lemma flat_read_main_run entries w :
  attached at24c256_dev w → reliable w → provided w →
  Forall (λ e, 0 < len (contents e)) (chosen entries) →
  chosen entries ≠ [] →
  len (concat (map contents (chosen entries))) ≤ 32768 →
  ∃ w',
    flat_read.main (Some entries) w = Ret EXIT_SUCCESS w'
    ∧ later w w'
    ∧ cells w' = cells w
    ∧ saved (log w') = saved (log w) ++ flat_saved "out" 0 (chosen entries) (cells w).
Proof.
  intros Hdev Hrel Hprov Hpos Hsome Hfit.
  assert (0 < len (chosen entries)) as Hcount.
  { destruct (chosen entries); [done |]. rewrite len_cons.
    pose proof (len_nonneg l). lia. }
  unfold flat_read.main.
  destruct (create_directory_run "out" w) as (d & w2 & Hdir & L2 & C2 & G2 & _ & _ & Hd).
  rewrite (bind_run _ _ _ _ _ Hdir), (Hd Hprov).
  change (negb (0 =? 0)) with false. cbv iota.
  destruct (init_run AT24C256_DEFAULT_CONFIG w2)
    as (r & h & w3 & Hinit & L3 & C3 & G3 & Hres & Hok).
  rewrite (bind_run _ _ _ _ _ Hinit).
  rewrite (Hok ltac:(by eapply later_reliable) ltac:(by eapply later_provided)) in *.
  destruct Hres as [[_ ->] | [? _]]; [| done].
  fold at24c256_dev.
  change (negb (err_eqb AT24C256_OK AT24C256_OK)) with false. cbv iota.
  assert (later w w3) as L03 by exact (later_trans _ _ _ L2 L3).
  unfold flat_read.process_camera_parameters.
  destruct (flat_restore_all at24c256_dev "camera_parameters" "out" entries
              EEPROM_START_ADDRESS 0 w3) as (w4 & Hloop & L4 & C4 & Hsaved); try done.
  { by eapply later_attached. } { by eapply later_reliable. }
  { by eapply later_provided. }
  rewrite (bind_run _ _ _ _ _ Hloop).
  unfold bind at 1. unfold at24c256_deinit, ret.
  destruct (Z.gtb_spec (0 + len (chosen entries)) 0); [| lia].
  exists w4. split; [done |].
  split; [exact (later_trans _ _ _ L03 L4) |].
  split; [congruence |].
  rewrite Hsaved, G3, G2, C3, C2. done.
Qed.

(** The earlier writer on a sound link. *)
Lemma flat_write_main_run args entries w :
  attached at24c256_dev w → reliable w → provided w →
  Forall (λ e, 0 < len (contents e)) (chosen entries) →
  chosen entries ≠ [] →
  len (concat (map contents (chosen entries))) ≤ 32768 →
  ∃ w',
    flat_write.main args (Some entries) w = Ret EXIT_SUCCESS w'
    ∧ later w w'
    ∧ slice 0 (len (concat (map contents (chosen entries)))) (cells w')
      = concat (map contents (chosen entries)).
Proof.
  intros Hdev Hrel Hprov Hpos Hsome Hfit.
  assert (0 < len (chosen entries)) as Hcount.
  { destruct (chosen entries); [done |]. rewrite len_cons.
    pose proof (len_nonneg l). lia. }
  pose proof Hdev as (_ & _ & _ & _ & Htot & _). simpl in Htot.
  unfold flat_write.main.
  destruct (init_run AT24C256_DEFAULT_CONFIG w)
    as (r & h & w0 & Hinit & L0 & C0 & _ & Hres & Hok).
  rewrite (bind_run _ _ _ _ _ Hinit).
  specialize (Hok Hrel Hprov). subst r.
  destruct Hres as [[_ ->] | [? _]]; [| done].
  fold at24c256_dev.
  change (negb (err_eqb AT24C256_OK AT24C256_OK)) with false. cbv iota.
  assert (attached at24c256_dev w0) as Hdev0 by (by eapply later_attached).
  assert (reliable w0) as Hrel0 by (by eapply later_reliable).
  assert (provided w0) as Hprov0 by (by eapply later_provided).
  assert (∃ wa,
    (if should_erase_eeprom args then erase_entire_eeprom (Some at24c256_dev)
     else ret AT24C256_OK) w0 = Ret AT24C256_OK wa ∧ later w0 wa) as (wa & Herase & La).
  { destruct (should_erase_eeprom args).
    - destruct (erase_entire_eeprom_run at24c256_dev w0) as (wa & ? & ? & _); try done.
      by exists wa.
    - exists w0. split; [done | apply later_refl]. }
  rewrite (bind_run _ _ _ _ _ Herase).
  change (negb (err_eqb AT24C256_OK AT24C256_OK)) with false. cbv iota.
  unfold flat_write.process_camera_parameters.
  destruct (flat_store_all at24c256_dev "camera_parameters" entries
              EEPROM_START_ADDRESS 0 wa) as (w1 & Hloop & L1 & C1); try done.
  { by eapply later_attached. } { by eapply later_reliable. }
  { by eapply later_provided. }
  rewrite (bind_run _ _ _ _ _ Hloop).
  unfold bind at 1. unfold at24c256_deinit, ret.
  destruct (Z.gtb_spec (0 + len (chosen entries)) 0); [| lia].
  assert (later w wa) as L0a by exact (later_trans _ _ _ L0 La).
  assert (len (cells wa) = len (cells w)) as Hsame.
  { destruct L0a as (_ & Hl & _). unfold len. by rewrite Hl. }
  exists w1. split; [done |].
  split; [exact (later_trans _ _ _ L0a L1) |].
  rewrite C1. apply slice_splice; [done |]. unfold EEPROM_START_ADDRESS. lia.
Qed.

(** The two earlier programs on a link without faults: when the blobs
    taken up are not empty and fit the part, the writer stores them
    packed from address 0 and exits with success, and the reader, run
    over the same directory, exits with success, leaves the array as it
    is and saves exactly these blobs, each under its name in [out], in
    the order of the directory. No table bounds their number. *)
Theorem flat_programs_restore_what_was_written
    (args : list string) (entries : list dirent) (w : world) :
  attached at24c256_dev w → reliable w → provided w →
  Forall (λ e, 0 < len (contents e)) (chosen entries) →
  chosen entries ≠ [] →
  len (concat (map contents (chosen entries))) ≤ 32768 →
  ∃ w1 w2,
    flat_write.main args (Some entries) w = Ret EXIT_SUCCESS w1
    ∧ slice 0 (len (concat (map contents (chosen entries)))) (cells w1)
      = concat (map contents (chosen entries))
    ∧ flat_read.main (Some entries) w1 = Ret EXIT_SUCCESS w2
    ∧ cells w2 = cells w1
    ∧ saved (log w2)
      = saved (log w1)
        ++ map (λ e, (join_path "out" (d_name e), contents e)) (chosen entries).
Proof.
  intros Hdev Hrel Hprov Hpos Hsome Hfit.
  destruct (flat_write_main_run args entries w) as (w1 & Hw & L1 & Hheld); try done.
  destruct (flat_read_main_run entries w1) as (w2 & Hr & L2 & C2 & Hsaved); try done.
  { by eapply later_attached. } { by eapply later_reliable. }
  { by eapply later_provided. }
  exists w1, w2. split_and!; try done.
  rewrite Hsaved. f_equal. by apply flat_saved_held.
Qed.

Lemma flat_programs_restore_what_was_written_witness :
  ∃ w1 w2,
    flat_write.main [] (Some small_then_small) at24c256_blank = Ret EXIT_SUCCESS w1
    ∧ slice 0 (len (concat (map contents (chosen small_then_small)))) (cells w1)
      = concat (map contents (chosen small_then_small))
    ∧ flat_read.main (Some small_then_small) w1 = Ret EXIT_SUCCESS w2
    ∧ cells w2 = cells w1
    ∧ saved (log w2)
      = saved (log w1)
        ++ map (λ e, (join_path "out" (d_name e), contents e))
             (chosen small_then_small).
Proof.
  apply (flat_programs_restore_what_was_written [] small_then_small at24c256_blank).
  - exact at24c256_attached.
  - apply Forall_nil_2.
  - split; apply Forall_nil_2.
  - vm_compute. repeat constructor.
  - vm_compute. discriminate.
  - vm_compute. discriminate.
Defined.

(** The earlier reader checks nothing of what it reads: on a link
    without faults it exits with success whatever the array holds, and
    saves for every entry taken up of the input directory the bytes of
    the array at the running address, as many as the input file has. *)
Theorem flat_reader_saves_whatever_the_array_holds
    (entries : list dirent) (w : world) :
  attached at24c256_dev w → reliable w → provided w →
  Forall (λ e, 0 < len (contents e)) (chosen entries) →
  chosen entries ≠ [] →
  len (concat (map contents (chosen entries))) ≤ 32768 →
  ∃ w',
    flat_read.main (Some entries) w = Ret EXIT_SUCCESS w'
    ∧ cells w' = cells w
    ∧ saved (log w') = saved (log w) ++ flat_saved "out" 0 (chosen entries) (cells w).
Proof.
  intros Hdev Hrel Hprov Hpos Hsome Hfit.
  destruct (flat_read_main_run entries w) as (w' & Hr & _ & C & Hsaved); try done.
  by exists w'.
Qed.

Lemma flat_reader_saves_whatever_the_array_holds_witness :
  ∃ w',
    flat_read.main (Some small_then_small) at24c256_blank = Ret EXIT_SUCCESS w'
    ∧ cells w' = cells at24c256_blank
    ∧ saved (log w')
      = saved (log at24c256_blank)
        ++ flat_saved "out" 0 (chosen small_then_small) (cells at24c256_blank).
Proof.
  apply (flat_reader_saves_whatever_the_array_holds small_then_small at24c256_blank).
  - exact at24c256_attached.
  - apply Forall_nil_2.
  - split; apply Forall_nil_2.
  - vm_compute. repeat constructor.
  - vm_compute. discriminate.
  - vm_compute. discriminate.
Defined.
